(** * jfit.py: group compose generation and lifecycle orchestration

    A shallow embedding of [src/jfit.py] and the properties its
    specification states about it.

    The script is a sequence of file-system operations, sub-process
    invocations and prints.  It is embedded in a state-and-exception monad
    over a [world] made of a file system, the current directory and the
    trace of observable events (lines printed, processes run, sleeps).
    Python exceptions are explicit outcomes, so that a function that
    raises is told apart from one that returns a non-zero code.

    The script is Python 2: strings are byte strings, and the output of a
    sub-process compares with a string literal.  What the model takes for
    granted is said where it is used: dictionaries iterate in insertion
    order, paths are resolved lexically, the programs the script runs are
    installed, and every command string tokenises. *)

From Stdlib Require Import String Ascii List ZArith Lia Bool DecimalString.
Import ListNotations.
Set Warnings "-register-all".
Local Open Scope string_scope.
Local Open Scope Z_scope.

(** ** Python strings *)

Module PyStr.

(** The whitespace of [str.split()] and [str.strip()] on byte strings. *)
Definition is_space (c : ascii) : bool :=
  let n := nat_of_ascii c in
  (Nat.eqb n 32 || (Nat.leb 9 n && Nat.leb n 13))%bool.

(** [s.split(sep)] for a separator given as a predicate on characters:
    every separator starts a new field, empty fields are kept. *)
Fixpoint split_by (p : ascii -> bool) (s : string) : list string :=
  match s with
  | EmptyString => [EmptyString]
  | String c rest =>
      if p c then EmptyString :: split_by p rest
      else match split_by p rest with
           | [] => [String c EmptyString]
           | hd :: tl => String c hd :: tl
           end
  end.

(** [s.split(c)] for a one-character separator. *)
Definition split_on (sep : ascii) (s : string) : list string :=
  split_by (Ascii.eqb sep) s.

Definition nonempty (s : string) : bool :=
  match s with EmptyString => false | _ => true end.

(** [s.split()]: fields separated by runs of whitespace, none empty. *)
Definition split_ws (s : string) : list string :=
  filter nonempty (split_by is_space s).

Fixpoint lstrip (s : string) : string :=
  match s with
  | EmptyString => EmptyString
  | String c rest => if is_space c then lstrip rest else s
  end.

Fixpoint rstrip (s : string) : string :=
  match s with
  | EmptyString => EmptyString
  | String c rest =>
      match rstrip rest with
      | EmptyString => if is_space c then EmptyString else String c EmptyString
      | r => String c r
      end
  end.

(** [s.strip()] *)
Definition strip (s : string) : string := rstrip (lstrip s).

(** [s.startswith(p)] *)
Fixpoint startswith (p s : string) : bool :=
  match p with
  | EmptyString => true
  | String a p' =>
      match s with
      | EmptyString => false
      | String b s' => (Ascii.eqb a b && startswith p' s')%bool
      end
  end.

(** [s.endswith(suf)]: some suffix of [s] is [suf]. *)
Fixpoint endswith (suf s : string) : bool :=
  if String.eqb s suf then true
  else match s with
       | EmptyString => false
       | String _ rest => endswith suf rest
       end.

(** [sep.join(l)] *)
Definition join (sep : string) (l : list string) : string :=
  String.concat sep l.

(** [s[n:]] *)
Fixpoint drop (n : nat) (s : string) : string :=
  match n, s with
  | O, _ => s
  | S n', String _ rest => drop n' rest
  | S _, EmptyString => EmptyString
  end.

(** [s[:-1]] *)
Fixpoint drop_last (s : string) : string :=
  match s with
  | EmptyString => EmptyString
  | String c rest =>
      match rest with
      | EmptyString => EmptyString
      | _ => String c (drop_last rest)
      end
  end.

(** [s[1:-1]] *)
Definition slice_1_m1 (s : string) : string := drop_last (drop 1 s).

Definition map_chars (f : ascii -> ascii) : string -> string :=
  fix go (s : string) : string :=
    match s with
    | EmptyString => EmptyString
    | String c rest => String (f c) (go rest)
    end.

Definition upper_char (c : ascii) : ascii :=
  let n := nat_of_ascii c in
  if (Nat.leb 97 n && Nat.leb n 122)%bool then ascii_of_nat (n - 32) else c.

Definition lower_char (c : ascii) : ascii :=
  let n := nat_of_ascii c in
  if (Nat.leb 65 n && Nat.leb n 90)%bool then ascii_of_nat (n + 32) else c.

(** [s.upper()] and [s.lower()] *)
Definition upper : string -> string := map_chars upper_char.
Definition lower : string -> string := map_chars lower_char.

(** ['{}'.format(n)] for an integer. *)
Definition of_Z (z : Z) : string := NilZero.string_of_int (Z.to_int z).

End PyStr.

Import PyStr.

(** ** Paths ([posixpath]) *)

(** [os.path.join(a, b)] *)
Definition path_join (a b : string) : string :=
  if startswith "/" b then b
  else if (negb (nonempty a) || endswith "/" a)%bool then a ++ b
  else a ++ "/" ++ b.

(** A resolved path is the list of its components below the root.  Paths
    are resolved lexically: there are no symbolic links in the model.  The
    script builds no empty path; the empty path resolves to the current
    directory. *)
Definition path := list string.

Definition norm_step (acc : path) (c : string) : path :=
  if (String.eqb c "" || String.eqb c ".")%bool then acc
  else if String.eqb c ".." then removelast acc
  else (acc ++ [c])%list.

Definition resolve (cwd : path) (p : string) : path :=
  fold_left norm_step (split_on "/" p)
            (if startswith "/" p then [] else cwd).

Definition path_str (p : path) : string := "/" ++ join "/" p.

Fixpoint path_eqb (p q : path) : bool :=
  match p, q with
  | [], [] => true
  | x :: p', y :: q' => (String.eqb x y && path_eqb p' q')%bool
  | _, _ => false
  end.

(** [is_prefix d p]: [p] is [d] or lies below it. *)
Fixpoint is_prefix (d p : path) : bool :=
  match d, p with
  | [], _ => true
  | x :: d', y :: p' => (String.eqb x y && is_prefix d' p')%bool
  | _ :: _, [] => false
  end.

(** The name of [p] when it is a direct child of [d]. *)
Fixpoint child_of (d p : path) : option string :=
  match d, p with
  | [], [n] => Some n
  | x :: d', y :: p' => if String.eqb x y then child_of d' p' else None
  | _, _ => None
  end.

(** ** The file system *)

Inductive json : Type :=
| JNull
| JBool (b : bool)
| JNum (z : Z)
| JStr (s : string)
| JArr (items : list json)
| JObj (fields : list (string * json)).

(** A file holds text, a JSON document or an archive with named members:
    the decoded view is what the script consumes through [json.load] and
    [tar]. *)
Inductive content : Type :=
| Text (s : string)
| Json (j : json)
| TarGz (members : list (string * content)).

Inductive node : Type :=
| Dir
| File (c : content).

Definition fsT := list (path * node).

Fixpoint assoc {V : Type} (k : string) (l : list (string * V)) : option V :=
  match l with
  | [] => None
  | (k', v) :: rest => if String.eqb k' k then Some v else assoc k rest
  end.

Fixpoint fs_find (fs : fsT) (p : path) : option node :=
  match fs with
  | [] => None
  | (q, n) :: rest => if path_eqb q p then Some n else fs_find rest p
  end.

(** The root is always a directory. *)
Definition fs_lookup (fs : fsT) (p : path) : option node :=
  match p with
  | [] => Some Dir
  | _ => fs_find fs p
  end.

Fixpoint fs_set (p : path) (n : node) (fs : fsT) : fsT :=
  match fs with
  | [] => [(p, n)]
  | (q, m) :: rest =>
      if path_eqb q p then (p, n) :: rest else (q, m) :: fs_set p n rest
  end.

Definition fs_del (p : path) (fs : fsT) : fsT :=
  filter (fun e => negb (path_eqb (fst e) p)) fs.

Definition fs_rmtree (p : path) (fs : fsT) : fsT :=
  filter (fun e => negb (is_prefix p (fst e))) fs.

Fixpoint fs_children (d : path) (fs : fsT) : list string :=
  match fs with
  | [] => []
  | (q, _) :: rest =>
      match child_of d q with
      | Some n => n :: fs_children d rest
      | None => fs_children d rest
      end
  end.

Definition is_dir (fs : fsT) (p : path) : bool :=
  match fs_lookup fs p with Some Dir => true | _ => false end.

Definition is_file (fs : fsT) (p : path) : bool :=
  match fs_lookup fs p with Some (File _) => true | _ => false end.

(** A file can be created or overwritten at [p] when its parent is a
    directory and [p] is not one. *)
Definition writable (fs : fsT) (p : path) : bool :=
  match p with
  | [] => false
  | _ => (is_dir fs (removelast p) && negb (is_dir fs p))%bool
  end.

(** [mkdir] of every missing directory on the way down to the target. *)
Fixpoint mkdirs_from (done : path) (todo : list string) (fs : fsT)
  : option fsT :=
  match todo with
  | [] => Some fs
  | c :: rest =>
      let d := (done ++ [c])%list in
      match fs_lookup fs d with
      | Some Dir => mkdirs_from d rest fs
      | Some (File _) => None
      | None => mkdirs_from d rest (fs_set d Dir fs)
      end
  end.

(** ** The world, and the monad of the script *)

Inductive event : Type :=
| Print (line : string)
| Exec (command : string) (returncode : Z) (output : string)
| Sleep (seconds : Z).

(** [w_trace] holds the events in reverse order, the latest first. *)
Record world : Type := World {
  w_fs : fsT;
  w_cwd : path;
  w_trace : list event
}.

Definition add_event (e : event) (w : world) : world :=
  {| w_fs := w_fs w; w_cwd := w_cwd w; w_trace := e :: w_trace w |}.

Definition set_fs (fs : fsT) (w : world) : world :=
  {| w_fs := fs; w_cwd := w_cwd w; w_trace := w_trace w |}.

Definition set_cwd (d : path) (w : world) : world :=
  {| w_fs := w_fs w; w_cwd := d; w_trace := w_trace w |}.

Inductive exn : Type :=
| CalledProcessError (returncode : Z)
| IOError
| OSError
| IndexError
| KeyError
| TypeError
| ValueError
| AttributeError
| TemplateError.

(** How a run ends: it returns, it raises, or the fuel granted to an
    unbounded loop ran out. *)
Inductive outcome (A : Type) : Type :=
| Ret (a : A) (w : world)
| Raise (e : exn) (w : world)
| OutOfFuel (w : world).

Arguments Ret {A} a w.
Arguments Raise {A} e w.
Arguments OutOfFuel {A} w.

Definition M (A : Type) : Type := world -> outcome A.

Definition ret {A : Type} (a : A) : M A := fun w => Ret a w.

Definition bind {A B : Type} (m : M A) (k : A -> M B) : M B :=
  fun w =>
    match m w with
    | Ret a w' => k a w'
    | Raise e w' => Raise e w'
    | OutOfFuel w' => OutOfFuel w'
    end.

Definition raise {A : Type} (e : exn) : M A := fun w => Raise e w.

Declare Scope py_scope.
Delimit Scope py_scope with py.
Notation "x <- m ;; k" := (bind m (fun x => k))
  (at level 61, m at next level, right associativity) : py_scope.
Notation "m ;; k" := (bind m (fun _ => k))
  (at level 61, right associativity) : py_scope.
Local Open Scope py_scope.

(** [try: m  except subprocess.CalledProcessError as exc: h exc.returncode] *)
Definition try_except {A : Type} (m : M A) (h : Z -> M A) : M A :=
  fun w =>
    match m w with
    | Raise (CalledProcessError rc) w' => h rc w'
    | o => o
    end.

Definition outcome_world {A : Type} (o : outcome A) : world :=
  match o with
  | Ret _ w => w
  | Raise _ w => w
  | OutOfFuel w => w
  end.

(** *** Primitives of [os], [shutil], [time] and the built-ins *)

Definition print (line : string) : M unit :=
  fun w => Ret tt (add_event (Print line) w).

Definition sleep (seconds : Z) : M unit :=
  fun w => Ret tt (add_event (Sleep seconds) w).

Definition getcwd : M string :=
  fun w => Ret (path_str (w_cwd w)) w.

Definition chdir (p : string) : M unit :=
  fun w =>
    let d := resolve (w_cwd w) p in
    if is_dir (w_fs w) d then Ret tt (set_cwd d w) else Raise OSError w.

Definition isfile (p : string) : M bool :=
  fun w => Ret (is_file (w_fs w) (resolve (w_cwd w) p)) w.

Definition isdir (p : string) : M bool :=
  fun w => Ret (is_dir (w_fs w) (resolve (w_cwd w) p)) w.

Definition listdir (p : string) : M (list string) :=
  fun w =>
    let d := resolve (w_cwd w) p in
    if is_dir (w_fs w) d then Ret (fs_children d (w_fs w)) w
    else Raise OSError w.

(** [open(p, 'r')] followed by a use of the file object. *)
Definition open_r (p : string) : M content :=
  fun w =>
    match fs_lookup (w_fs w) (resolve (w_cwd w) p) with
    | Some (File c) => Ret c w
    | _ => Raise IOError w
    end.

(** [json.load(fob)] *)
Definition json_load (c : content) : M json :=
  match c with
  | Json j => ret j
  | _ => raise ValueError
  end.

(** [with open(p, 'w') as fob: fob.write(text)] *)
Definition write_file (p : string) (text : string) : M unit :=
  fun w =>
    let k := resolve (w_cwd w) p in
    if writable (w_fs w) k
    then Ret tt (set_fs (fs_set k (File (Text text)) (w_fs w)) w)
    else Raise IOError w.

(** [os.remove(p)] *)
Definition os_remove (p : string) : M unit :=
  fun w =>
    let k := resolve (w_cwd w) p in
    if is_file (w_fs w) k then Ret tt (set_fs (fs_del k (w_fs w)) w)
    else Raise OSError w.

(** [shutil.rmtree(p)] *)
Definition rmtree (p : string) : M unit :=
  fun w =>
    let k := resolve (w_cwd w) p in
    if is_dir (w_fs w) k then Ret tt (set_fs (fs_rmtree k (w_fs w)) w)
    else Raise OSError w.

(** [os.makedirs(p)] *)
Definition makedirs (p : string) : M unit :=
  fun w =>
    let k := resolve (w_cwd w) p in
    match fs_lookup (w_fs w) k with
    | Some _ => Raise OSError w
    | None =>
        match mkdirs_from [] k (w_fs w) with
        | Some fs' => Ret tt (set_fs fs' w)
        | None => Raise OSError w
        end
    end.

(** *** Sub-processes *)

(** What a program does when it is run: its exit status, its output and
    the file system it leaves. *)
Definition proc : Type := world -> Z * string * fsT.

Definition spawn (run : proc) (command_string : string) : M (Z * string) :=
  fun w =>
    let '(rc, output, fs') := run w in
    Ret (rc, output) (add_event (Exec command_string rc output) (set_fs fs' w)).

Definition tar_failure : string :=
  "tar: Exiting with failure status due to previous errors".

(** [tar -xf archive member], run in the current directory. *)
Definition tar_xf (archive member : string) : proc :=
  fun w =>
    let fs := w_fs w in
    match fs_lookup fs (resolve (w_cwd w) archive) with
    | Some (File (TarGz members)) =>
        match assoc member members with
        | Some c =>
            let k := resolve (w_cwd w) member in
            if writable fs k then (0, "", fs_set k (File c) fs)
            else (2, tar_failure, fs)
        | None => (2, tar_failure, fs)
        end
    | _ => (2, tar_failure, fs)
    end.

(** Escape sequences of [colorama.Fore]. *)
Definition ESC : string := String (ascii_of_nat 27) "[".
Definition Fore_RED : string := ESC ++ "31m".
Definition Fore_GREEN : string := ESC ++ "32m".
Definition Fore_CYAN : string := ESC ++ "36m".

Definition NL : string := String (ascii_of_nat 10) "".
Definition DQ : string := String (ascii_of_nat 34) "".

Fixpoint spaces (n : nat) : string :=
  match n with
  | O => EmptyString
  | S n' => String " " (spaces n')
  end.

(** ** Python dictionaries and values *)

(** A value of the environment dictionary: a string, or the list a
    [_LIST] entry is turned into. *)
Inductive value : Type :=
| VStr (s : string)
| VList (items : list string).

(** A dictionary keeps its keys in insertion order; assigning to a key
    that is present keeps its place. *)
Definition pydict := list (string * value).

Fixpoint dict_set {V : Type} (k : string) (v : V) (d : list (string * V))
  : list (string * V) :=
  match d with
  | [] => [(k, v)]
  | (k', v') :: rest =>
      if String.eqb k' k then (k', v) :: rest else (k', v') :: dict_set k v rest
  end.

Definition dict_keys {V : Type} (d : list (string * V)) : list string :=
  map fst d.

(** [d.update(other)] *)
Definition dict_update {V : Type} (d other : list (string * V))
  : list (string * V) :=
  fold_left (fun acc kv => dict_set (fst kv) (snd kv) acc) other d.

(** [repr] of a list of plain strings. *)
Definition repr_list (l : list string) : string :=
  "[" ++ join ", " (map (fun s => "'" ++ s ++ "'") l) ++ "]".

(** ['{}'.format(v)] *)
Definition format_value (v : value) : string :=
  match v with
  | VStr s => s
  | VList l => repr_list l
  end.

(** [l[i]] on a list *)
Definition list_index {A : Type} (l : list A) (i : nat) : M A :=
  match nth_error l i with
  | Some x => ret x
  | None => raise IndexError
  end.

(** [v[0]] on a loaded JSON value *)
Definition json_index0 (v : json) : M json :=
  match v with
  | JArr (x :: _) => ret x
  | JArr [] => raise IndexError
  | JStr (String c _) => ret (JStr (String c EmptyString))
  | JStr EmptyString => raise IndexError
  | JObj _ => raise KeyError
  | _ => raise TypeError
  end.

(** [v[key]] on a loaded JSON value *)
Definition json_getitem (v : json) (key : string) : M json :=
  match v with
  | JObj fields =>
      match assoc key fields with
      | Some x => ret x
      | None => raise KeyError
      end
  | _ => raise TypeError
  end.

Fixpoint mapM {A B : Type} (f : A -> M B) (l : list A) : M (list B) :=
  match l with
  | [] => ret []
  | x :: rest => y <- f x ;; ys <- mapM f rest ;; ret (y :: ys)
  end.

Fixpoint filterM {A : Type} (f : A -> M bool) (l : list A) : M (list A) :=
  match l with
  | [] => ret []
  | x :: rest =>
      b <- f x ;; ys <- filterM f rest ;; ret (if b then x :: ys else ys)
  end.

(** ** The host of the script *)

(** What the script takes from its installation and from the programs it
    drives: the directory it is installed in, the bytes of a file that is
    not plain text, the [str()] of a JSON value that is not a string, the
    template engine ([None] when rendering raises), and the container
    engine, which answers a command from the events so far and the file
    system, and may change the latter. *)
Record host : Type := Host {
  FILE_DIR_PATH : string;
  raw_bytes : content -> string;
  py_str : json -> string;
  jinja2_render : string -> pydict -> option string;
  engine : list event -> fsT -> string -> Z * string * fsT
}.

(** Namespace built by [argparse]. *)
Record args : Type := Args {
  group_name : string;
  service : option string;
  input_file_path : string;
  device_group : string;
  input_dir : option string
}.

(** Truth value of an optional argument: [None] and [''] are false. *)
Definition truthy (o : option string) : bool :=
  match o with
  | Some s => nonempty s
  | None => false
  end.

(** ['{}'.format(o)] *)
Definition format_opt (o : option string) : string :=
  match o with
  | Some s => s
  | None => "None"
  end.

Inductive flow : Type :=
| Continue
| Break (err : string).

(** ** The script *)

Section Jfit.

Variable H : host.

Definition ETC_DIR_PATH : string := path_join (FILE_DIR_PATH H) "etc".
Definition GROUP_DIR : string := path_join ETC_DIR_PATH "core_output".
Definition COMPOSE_SNIPPET_DIR : string :=
  path_join (FILE_DIR_PATH H) "compose_files".
Definition GROUP_ENV_FILE : string := "source.env".
Definition SERVICE_KEYS : list string :=
  ["JTI_NATIVE_COLLECTOR"; "JTI_OC_COLLECTOR"; "RULE_ENGINE";
   "TRAINING_ENGINE"; "COMMAND_RPC"; "DATABASE"].
Definition DOCKER_IMAGE_DIR : string :=
  path_join (FILE_DIR_PATH H) "docker_images".
Definition PARSE_INPUT_DIR : string := path_join (FILE_DIR_PATH H) "input".

(** [fob.read()] *)
Definition read_text (c : content) : string :=
  match c with
  | Text s => s
  | _ => raw_bytes H c
  end.

(** ['{}'.format(v)] for a loaded JSON value *)
Definition format_json (v : json) : string :=
  match v with
  | JStr s => s
  | _ => py_str H v
  end.

(** The container engine ([docker], [docker-compose]) as a program. *)
Definition docker (command_string : string) : proc :=
  fun w => engine H (w_trace w) (w_fs w) command_string.

(** The text [execute] prints for a command that failed. *)
Definition execute_error (command_string : string) (rc : Z) (output : string)
  : string :=
  let err := "Command " ++ command_string ++ " exited with code: "
             ++ of_Z rc in
  err ++ NL ++ "Error: " ++ output.

(** [execute]: the command is printed, run, and its stripped output is
    returned; a non-zero exit status is printed and raised.  Command
    strings are assumed to tokenise under [shlex.split]. *)
Definition execute (run : proc) (command_string : string) : M string :=
  print (Fore_CYAN ++ command_string) ;;
  r <- spawn run command_string ;;
  let '(rc, output) := r in
  if rc =? 0 then ret (strip output)
  else
    let err := execute_error command_string rc output in
    print (Fore_RED ++ err) ;;
    raise (CalledProcessError rc).

(** [shell_command]: [subprocess.call] returns the exit status. *)
Definition shell_command (run : proc) (command_string : string) : M Z :=
  print (Fore_CYAN ++ command_string) ;;
  r <- spawn run command_string ;;
  ret (fst r).

Definition get_group_dir_path (group_name : string) : string :=
  path_join GROUP_DIR group_name.

Definition _get_container_tags (container_image_path : string) : M json :=
  cwd <- getcwd ;;
  chdir (FILE_DIR_PATH H) ;;
  let image_manifest_file := "manifest.json" in
  let untar_command :=
    "tar -xf " ++ container_image_path ++ " " ++ image_manifest_file in
  execute (tar_xf container_image_path image_manifest_file) untar_command ;;
  let image_manifest_file_path :=
    path_join (FILE_DIR_PATH H) image_manifest_file in
  fob <- open_r image_manifest_file ;;
  doc <- json_load fob ;;
  first <- json_index0 doc ;;
  repo_tags <- json_getitem first "RepoTags" ;;
  tags <- json_index0 repo_tags ;;
  os_remove image_manifest_file_path ;;
  chdir cwd ;;
  ret tags.

(** The dictionary comprehension over the whitespace-separated entries of
    the manifest: [{line.split('=')[0]: line.split('=')[1] ...}]. *)
Fixpoint parse_env (lines : list string) (env_dict : pydict) : M pydict :=
  match lines with
  | [] => ret env_dict
  | line :: rest =>
      if nonempty (strip line) then
        key <- list_index (split_on "=" line) 0 ;;
        val <- list_index (split_on "=" line) 1 ;;
        parse_env rest (dict_set key (VStr val) env_dict)
      else parse_env rest env_dict
  end.

(** The loop that turns the [_LIST] entries into lists. *)
Fixpoint parse_lists (keys : list string) (env_dict : pydict) : M pydict :=
  match keys with
  | [] => ret env_dict
  | key :: rest =>
      if endswith "_LIST" key then
        match assoc key env_dict with
        | Some (VStr s) =>
            let val := slice_1_m1 s in
            let val := split_on "," val in
            parse_lists rest (dict_set key (VList val) env_dict)
        | Some (VList _) => raise AttributeError
        | None => raise KeyError
        end
      else parse_lists rest env_dict
  end.

(** [service_tag.split(':')], then the two fields the script reads. *)
Definition split_tag (tag : string) : M (string * string) :=
  let service_tag := split_on ":" tag in
  service <- list_index service_tag 0 ;;
  let service := strip service in
  version <- list_index service_tag 1 ;;
  let version := strip version in
  ret (service, version).

(** One turn of the loop over the keys of the environment dictionary. *)
Definition process_role (dir_path compose_snippet_loc : string)
    (env_dict : pydict) (service_type : string) : M flow :=
  if negb (existsb (String.eqb service_type) SERVICE_KEYS) then ret Continue
  else
    impl <- match assoc service_type env_dict with
            | Some v => ret v
            | None => raise KeyError
            end ;;
    let service_name := "jfit_" ++ format_value impl in
    let service_image_path :=
      path_join DOCKER_IMAGE_DIR (service_name ++ ".tar.gz") in
    found <- isfile service_image_path ;;
    if negb found then
      ret (Break ("Unable to find docker image: " ++ service_image_path))
    else
      service_tag <- _get_container_tags service_image_path ;;
      match service_tag with
      | JNull =>
          ret (Break ("Unable to extract tags for service: " ++ service_name))
      | JStr tag =>
          fields <- split_tag tag ;;
          let '(service, version) := fields in
          let jinja_template := service ++ ".yaml.j2" in
          let jinja_template :=
            if String.eqb service "TRAINING_ENGINE"
            then service ++ "_training.yaml.j2"
            else jinja_template in
          let jinja_template := path_join compose_snippet_loc jinja_template in
          found <- isfile jinja_template ;;
          if negb found then
            ret (Break ("Compose file " ++ jinja_template ++ " is missing"))
          else
            fob <- open_r jinja_template ;;
            let template := read_text fob in
            if negb (nonempty template) then
              ret (Break ("Compose file " ++ jinja_template ++ " is empty"))
            else
              let data :=
                [(upper service ++ "_IMAGE", VStr service);
                 (upper service ++ "_TAG", VStr version)] in
              let conf_file_name := drop 5 service ++ ".conf" in
              let conf_file_path :=
                path_join (path_join dir_path (lower service_type))
                          conf_file_name in
              has_conf <- isfile conf_file_path ;;
              let data :=
                if has_conf
                then dict_set (upper service ++ "_CONF") (VStr conf_file_path)
                              data
                else data in
              let data := dict_update data env_dict in
              output <- match jinja2_render H template data with
                        | Some text => ret text
                        | None => raise TemplateError
                        end ;;
              let rendered_compose_location :=
                path_join dir_path (service ++ ".yaml") in
              write_file rendered_compose_location output ;;
              ret Continue
      | _ => raise AttributeError
      end.

(** [for service_type in ...: ... break]: [None] when the loop ran to its
    end, the error of the turn that broke out of it otherwise. *)
Fixpoint for_roles (body : string -> M flow) (keys : list string)
  : M (option string) :=
  match keys with
  | [] => ret None
  | service_type :: rest =>
      f <- body service_type ;;
      match f with
      | Continue => for_roles body rest
      | Break err => ret (Some err)
      end
  end.

Definition injected_paths : pydict :=
  [("JFIT_ETC_PATH", VStr ETC_DIR_PATH); ("JFIT_OUTPUT_PATH", VStr GROUP_DIR)].

(** The first part of [_create_compose_file]: the environment dictionary
    of the group. *)
Definition load_env_dict (dir_path : string) : M pydict :=
  let env_file := path_join dir_path GROUP_ENV_FILE in
  found <- isfile env_file ;;
  (if negb found
   then print (Fore_RED ++ "Unable to find file: " ++ env_file)
   else ret tt) ;;
  fob <- open_r env_file ;;
  let env_file_content := read_text fob in
  env_dict <- parse_env (split_ws env_file_content) [] ;;
  env_dict <- parse_lists (dict_keys env_dict) env_dict ;;
  ret (dict_update env_dict injected_paths).

Definition _create_compose_file_in (compose_snippet_loc dir_path : string)
  : M Z :=
  env_dict <- load_env_dict dir_path ;;
  broke <- for_roles (process_role dir_path compose_snippet_loc env_dict)
                     (dict_keys env_dict) ;;
  match broke with
  | Some err => print (Fore_RED ++ err) ;; ret 1
  | None => ret 0
  end.

(** [_create_compose_file(dir_path)] with the default template location. *)
Definition _create_compose_file (dir_path : string) : M Z :=
  _create_compose_file_in COMPOSE_SNIPPET_DIR dir_path.

(** [_get_compose_files] returns [1] or the argument string. *)
Definition _get_compose_files (dir_path : string) : M (string + Z) :=
  names <- listdir dir_path ;;
  let yaml_files := filter (endswith ".yaml") names in
  match yaml_files with
  | [] =>
      let err := "Unable to find compose files." ++ NL
                 ++ " Please run parse command first!" in
      print (Fore_RED ++ err) ;;
      ret (inr 1)
  | _ => ret (inl (join " -f " ("" :: yaml_files)))
  end.

(** ['{}'.format(compose_files)] *)
Definition format_files (compose_files : string + Z) : string :=
  match compose_files with
  | inl s => s
  | inr z => of_Z z
  end.

(** [compose_files == 1] *)
Definition is_one (compose_files : string + Z) : bool :=
  match compose_files with
  | inl _ => false
  | inr z => z =? 1
  end.

Definition remove (a : args) : M Z :=
  cwd <- getcwd ;;
  let group_name := group_name a in
  let group_dir_path := get_group_dir_path group_name in
  chdir group_dir_path ;;
  compose_files <- _get_compose_files group_dir_path ;;
  let compose_command :=
    "docker-compose -p " ++ group_name ++ " " ++ format_files compose_files
    ++ " rm --force --stop -v" in
  let message := "Remove group " ++ group_name in
  let compose_command :=
    if truthy (service a)
    then compose_command ++ " " ++ format_opt (service a)
    else compose_command in
  let message :=
    if truthy (service a)
    then Fore_GREEN ++ "Remove " ++ group_name ++ "'s service "
         ++ format_opt (service a)
    else message in
  r <- try_except
         (execute (docker compose_command) compose_command ;;
          ret (0, Fore_GREEN ++ "Success: " ++ message))
         (fun returncode => ret (returncode, Fore_RED ++ "Failure: " ++ message)) ;;
  let '(ret_code, message) := r in
  print message ;;
  chdir cwd ;;
  ret ret_code.

(** The tail shared by [start], [stop] and [restart]: run the command,
    print its output, go back, report. *)
Definition run_compose (compose_command cwd message : string) : M Z :=
  ret_code <- try_except
                (output <- execute (docker compose_command) compose_command ;;
                 print output ;;
                 ret 0)
                (fun returncode => ret returncode) ;;
  chdir cwd ;;
  (if ret_code =? 0 then print message else ret tt) ;;
  ret ret_code.

Definition start (a : args) : M Z :=
  let group_name := group_name a in
  let group_dir_path := get_group_dir_path group_name in
  valid <- isdir group_dir_path ;;
  if negb valid then
    print (Fore_RED ++ "Group name is not valid") ;;
    ret 1
  else
    let message := Fore_GREEN ++ "Success!" in
    cwd <- getcwd ;;
    chdir group_dir_path ;;
    let compose_command := "docker-compose -p " ++ group_name in
    compose_files <- _get_compose_files group_dir_path ;;
    if is_one compose_files then ret 1
    else
      let compose_command :=
        compose_command ++ " " ++ format_files compose_files in
      let compose_command :=
        if truthy (service a)
        then compose_command ++ " start " ++ format_opt (service a)
        else compose_command ++ " up -d" in
      run_compose compose_command cwd message.

Definition stop (a : args) : M Z :=
  let group_name := group_name a in
  let group_dir_path := get_group_dir_path group_name in
  valid <- isdir group_dir_path ;;
  if negb valid then
    print (Fore_RED ++ "Group name is not valid") ;;
    ret 1
  else
    let message := Fore_GREEN ++ "Success!" in
    cwd <- getcwd ;;
    chdir group_dir_path ;;
    compose_files <- _get_compose_files group_dir_path ;;
    if is_one compose_files then ret 1
    else
      let compose_command :=
        "docker-compose -p " ++ group_name ++ " "
        ++ format_files compose_files ++ " stop" in
      let compose_command :=
        if truthy (service a)
        then compose_command ++ " " ++ format_opt (service a)
        else compose_command in
      run_compose compose_command cwd message.

Definition restart (a : args) : M Z :=
  let group_name := group_name a in
  let group_dir_path := get_group_dir_path group_name in
  valid <- isdir group_dir_path ;;
  if negb valid then
    print (Fore_RED ++ "Group name is not valid") ;;
    ret 1
  else
    let message := Fore_GREEN ++ "Success!" in
    cwd <- getcwd ;;
    chdir group_dir_path ;;
    compose_files <- _get_compose_files group_dir_path ;;
    if is_one compose_files then ret 1
    else
      let compose_command :=
        "docker-compose -p " ++ group_name ++ " "
        ++ format_files compose_files ++ " restart" in
      let compose_command :=
        if truthy (service a)
        then compose_command ++ " " ++ format_opt (service a)
        else compose_command in
      run_compose compose_command cwd message.

Definition cli (a : args) : M Z :=
  let group_name := group_name a in
  let group_dir_path := get_group_dir_path group_name in
  valid <- isdir group_dir_path ;;
  if negb valid then
    print (Fore_RED ++ "Group name is not valid") ;;
    ret 1
  else
    cwd <- getcwd ;;
    chdir group_dir_path ;;
    compose_files <- _get_compose_files group_dir_path ;;
    if is_one compose_files then ret 1
    else
      let compose_command :=
        "docker-compose -p " ++ group_name ++ " "
        ++ format_files compose_files ++ " exec "
        ++ format_opt (service a) ++ " sh" in
      ret_code <- try_except (shell_command (docker compose_command)
                                            compose_command)
                             (fun returncode => ret returncode) ;;
      chdir cwd ;;
      ret ret_code.

(** *** [parse] *)

(** [os.path.realpath(p)] *)
Definition realpath (p : string) : M string :=
  fun w => Ret (path_str (resolve (w_cwd w) p)) w.

(** The search for the input file and the input directory: the error, if
    any, with the paths settled on. *)
Definition parse_locate_input (a : args)
  : M (option string * string * string) :=
  let input_dir :=
    if truthy (input_dir a) then format_opt (input_dir a)
    else PARSE_INPUT_DIR in
  cwd <- getcwd ;;
  let input_file_path0 := path_join cwd (input_file_path a) in
  found <- isfile input_file_path0 ;;
  if negb found then
    let input_file_path1 := path_join (FILE_DIR_PATH H) (input_file_path a) in
    found <- isfile input_file_path1 ;;
    if negb found
    then ret (Some ("Unable to locate file " ++ input_file_path a),
              input_file_path1, input_dir)
    else ret (None, input_file_path1, input_dir)
  else
    is_d <- isdir input_dir ;;
    if negb is_d then
      let full_input_path := path_join (FILE_DIR_PATH H) input_dir in
      is_d <- isdir full_input_path ;;
      if negb is_d
      then ret (Some ("Invalid input directory: " ++ input_dir),
                input_file_path0, input_dir)
      else ret (None, input_file_path0, full_input_path)
    else ret (None, input_file_path0, input_dir).

(** The output root is emptied, or made. *)
Definition parse_reset_output (output_folder : string) : M unit :=
  is_d <- isdir output_folder ;;
  if negb is_d then makedirs output_folder
  else rmtree output_folder ;; makedirs output_folder.

Definition status_command_of (container_id : string) : string :=
  "docker inspect --format=" ++ DQ ++ "{{.State.Status}}" ++ DQ ++ " "
  ++ container_id.

(** [while status != 'exited': status = execute(...); time.sleep(5)].
    The loop has no bound of its own: [fuel] bounds the turns observed. *)
Fixpoint poll_status (fuel : nat) (status_command status : string) : M unit :=
  if String.eqb status "exited" then ret tt
  else
    match fuel with
    | O => fun w => OutOfFuel w
    | S fuel' =>
        status' <- execute (docker status_command) status_command ;;
        sleep 5 ;;
        poll_status fuel' status_command status'
    end.

(** The body of the [try] around the helper container. *)
Definition run_helper (fuel : nat) (docker_parse_command : string) : M Z :=
  container_id <- execute (docker docker_parse_command) docker_parse_command ;;
  let status_command := status_command_of container_id in
  poll_status fuel status_command "" ;;
  let remove_command := "docker rm -f " ++ container_id in
  execute (docker remove_command) remove_command ;;
  ret 0.

(** The compose files of a batch of group directories, and the code
    [parse] returns for it. *)
Definition assemble_groups (group_folders : list string) : M Z :=
  ret_codes <- mapM _create_compose_file group_folders ;;
  let non_zero := filter (fun x => negb (x =? 0)) ret_codes in
  match non_zero with
  | [] => ret 0
  | _ => ret 1
  end.

(** The end of [parse]: the compose files of every group directory the
    helper left in the output root. *)
Definition parse_assemble (output_folder : string) : M Z :=
  is_d <- isdir output_folder ;;
  if negb is_d then
    print (Fore_RED ++ "Unable to parse input configuration") ;;
    ret 1
  else
    names <- listdir output_folder ;;
    kept <- filterM (fun x =>
                       if startswith "." x then ret false
                       else isdir (path_join output_folder x)) names ;;
    let group_folders := map (path_join output_folder) kept in
    match group_folders with
    | [] =>
        print (Fore_RED ++ "Unable to parse the input configuration") ;;
        ret 1
    | _ => assemble_groups group_folders
    end.

Definition parse_command_of (device_group : string) : string :=
  "python /jfit/jfit.py " ++ spaces 20 ++ "--config /input.json"
  ++ spaces 20 ++ "--device-group " ++ device_group
  ++ spaces 20 ++ "--output-dir /output/core_output"
  ++ spaces 20 ++ "--data-base-path /input" ++ spaces 20.

Definition docker_parse_command_of
    (input_file_path output_mount input_dir tags parse_command : string)
  : string :=
  "docker run -i -d " ++ spaces 28 ++ "-v " ++ input_file_path
  ++ ":/input.json " ++ spaces 28 ++ "-v " ++ output_mount
  ++ ":/output/ " ++ spaces 28 ++ "-v " ++ input_dir
  ++ ":/input/ " ++ spaces 28 ++ tags ++ " " ++ parse_command.

(** What [parse] does once the output root is reset: the helper container
    is launched and awaited, the groups it left are assembled. *)
Definition parse_launch (fuel : nat) (a : args)
    (input_file_path input_dir : string) : M Z :=
  let jfit_core_container_name := "jfit_core" in
  let output_folder := GROUP_DIR in
  let jfit_core_image_path :=
    path_join DOCKER_IMAGE_DIR (jfit_core_container_name ++ ".tar.gz") in
  tags <- _get_container_tags jfit_core_image_path ;;
  let parse_command := parse_command_of (device_group a) in
  output_mount <- realpath (path_join output_folder "..") ;;
  let docker_parse_command :=
    docker_parse_command_of input_file_path output_mount input_dir
                            (format_json tags) parse_command in
  ret_code <- try_except (run_helper fuel docker_parse_command)
                         (fun returncode => ret returncode) ;;
  if negb (ret_code =? 0) then ret ret_code
  else parse_assemble output_folder.

(** What [parse] does once its input is located. *)
Definition parse_located (fuel : nat) (a : args)
    (input_file_path input_dir : string) : M Z :=
  parse_reset_output GROUP_DIR ;;
  parse_launch fuel a input_file_path input_dir.

Definition parse (fuel : nat) (a : args) : M Z :=
  located <- parse_locate_input a ;;
  let '(err, input_file_path, input_dir) := located in
  match err with
  | Some err => print (Fore_RED ++ err) ;; ret 1
  | None => parse_located fuel a input_file_path input_dir
  end.

(** *** [install], [logs] and [mgd] *)

Definition DEP_SCRIPT : string := "install_dep.sh".
Definition MGD_IMAGE : string := "jfit_mgd.tar.gz".
Definition CONFIG_LOCATION : string := "config".
Definition Fore_MAGENTA : string := ESC ++ "35m".

(** [bash], [sudo], [ln] and [vi] are answered by the host as the
    container engine is. *)
Definition system (command_string : string) : proc := docker command_string.

Definition get_docker_images (full_path : bool) : M (list string) :=
  names <- listdir DOCKER_IMAGE_DIR ;;
  let docker_images :=
    filter (fun f => (startswith "jfit_" f && endswith ".tar.gz" f)%bool)
           names in
  ret (if full_path then map (path_join DOCKER_IMAGE_DIR) docker_images
       else docker_images).

(** The loop of [install] over the images: the code of the first load that
    fails, 0 when every load succeeds. *)
Fixpoint load_images (docker_images : list string) : M Z :=
  match docker_images with
  | [] => ret 0
  | docker_image :: rest =>
      let command := "sudo docker load --input " ++ docker_image in
      failed <- try_except (execute (system command) command ;; ret None)
                           (fun returncode => ret (Some returncode)) ;;
      match failed with
      | Some returncode => ret returncode
      | None =>
          print (Fore_GREEN ++ "Successfully loaded " ++ docker_image) ;;
          load_images rest
      end
  end.

(** [install]; [script_name] is the name of the script in its directory,
    so that [os.path.realpath(__file__)] is their join. *)
Definition install (script_name : string) : M Z :=
  cwd <- getcwd ;;
  chdir (FILE_DIR_PATH H) ;;
  let dep_install_command := "bash " ++ DEP_SCRIPT in
  ret_code <- try_except
                (execute (system dep_install_command) dep_install_command ;;
                 ret 0)
                (fun returncode => ret returncode) ;;
  if negb (ret_code =? 0) then
    print (Fore_RED ++ "Failure: Dependency install") ;;
    ret ret_code
  else
    print (Fore_GREEN ++ "Success: Dependency install") ;;
    chdir cwd ;;
    docker_images <- get_docker_images true ;;
    ret_code <- load_images docker_images ;;
    if negb (ret_code =? 0) then
      print (Fore_RED ++ "Failure: Docker image load") ;;
      ret ret_code
    else
      let command :=
        "ln -sf " ++ path_join (FILE_DIR_PATH H) script_name
        ++ " /usr/local/bin/jfit" in
      ret_code <- try_except (execute (system command) command ;; ret 0)
                             (fun returncode => ret returncode) ;;
      (if negb (ret_code =? 0)
       then print (Fore_RED ++ "Unable to set a soft link to jfit binary")
       else ret tt) ;;
      ret ret_code.

Definition inspect_command_of (group_name service : string) : string :=
  "docker inspect --format=" ++ DQ ++ "{{.LogPath}}" ++ DQ ++ " "
  ++ lower group_name ++ "_" ++ service ++ "_1".

Definition logs (a : args) : M Z :=
  let group_name := group_name a in
  let group_dir_path := get_group_dir_path group_name in
  valid <- isdir group_dir_path ;;
  if negb valid then
    print (Fore_RED ++ "Group name is not valid") ;;
    ret 1
  else
    cwd <- getcwd ;;
    chdir group_dir_path ;;
    let inspect_command :=
      inspect_command_of group_name (format_opt (service a)) in
    ret_code <- try_except
                  (log_location <- execute (docker inspect_command)
                                           inspect_command ;;
                   let vi_command := "vi " ++ log_location in
                   try_except (shell_command (system vi_command) vi_command ;;
                               ret 0)
                              (fun returncode => ret returncode))
                  (fun returncode => ret returncode) ;;
    chdir cwd ;;
    ret ret_code.

Definition mgd_container_name : string := "jfit_mgd_cli".

(** The [cli] branch of [mgd], which its [start] branch ends with. *)
Definition mgd_cli : M unit :=
  let docker_command :=
    "docker exec -it " ++ mgd_container_name ++ " /usr/sbin/cli" in
  shell_command (docker docker_command) docker_command ;;
  ret tt.

Definition mgd (mgd_command : string) : M unit :=
  if String.eqb mgd_command "start" then
    let remove_command := "docker rm -f " ++ mgd_container_name in
    try_except
      (execute (docker remove_command) remove_command ;;
       print (Fore_MAGENTA
              ++ "Removed already running container! Starting a new one"))
      (fun _ => ret tt) ;;
    let mgd_docker_image := path_join DOCKER_IMAGE_DIR MGD_IMAGE in
    tags <- _get_container_tags mgd_docker_image ;;
    let config_folder_location :=
      path_join (path_join (FILE_DIR_PATH H) CONFIG_LOCATION) "" in
    let docker_command :=
      "docker run -v " ++ config_folder_location ++ ":/config/ --name "
      ++ mgd_container_name ++ " -d " ++ format_json tags in
    execute (docker docker_command) docker_command ;;
    mgd_cli
  else if String.eqb mgd_command "stop" then
    let docker_command := "docker stop " ++ mgd_container_name in
    execute (docker docker_command) docker_command ;;
    ret tt
  else if String.eqb mgd_command "cli" then mgd_cli
  else ret tt.

End Jfit.

(** ** Vocabulary of the properties *)

(** The script's directory is an absolute path: it is the [dirname] of a
    [realpath]. *)
Definition abs_host (H : host) : Prop :=
  startswith "/" (FILE_DIR_PATH H) = true.

Definition here (H : host) : path := resolve [] (FILE_DIR_PATH H).

(** Where [_get_container_tags] extracts the image manifest. *)
Definition manifest_tmp (H : host) : path := (here H ++ ["manifest.json"])%list.

(** Weakest precondition: [Q] holds of a run that returns, [X] of one that
    raises ([Some e]) or runs out of fuel ([None]). *)
Definition wp {A : Type} (m : M A) (Q : A -> world -> Prop)
    (X : option exn -> world -> Prop) (w : world) : Prop :=
  match m w with
  | Ret a w' => Q a w'
  | Raise e w' => X (Some e) w'
  | OutOfFuel w' => X None w'
  end.

(** The commands run so far, the earliest first. *)
Fixpoint commands (trace : list event) : list string :=
  match trace with
  | [] => []
  | Exec c _ _ :: rest => (commands rest ++ [c])%list
  | _ :: rest => commands rest
  end.

(** The events other than prints, the latest first. *)
Fixpoint actions (trace : list event) : list event :=
  match trace with
  | [] => []
  | Print _ :: rest => actions rest
  | e :: rest => e :: actions rest
  end.

(** [w'] has the trace of [w], then events that all satisfy [P]. *)
Definition extends (P : event -> Prop) (w w' : world) : Prop :=
  exists evs, w_trace w' = (evs ++ w_trace w)%list /\ Forall P evs.

(** Whatever its outcome, [m] adds only events that satisfy [P]. *)
Definition adds_only {A : Type} (P : event -> Prop) (m : M A) : Prop :=
  forall w, extends P w (outcome_world (m w)).

(** Every path but [k] is as it was. *)
Definition same_except (k : path) (fs fs' : fsT) : Prop :=
  forall p, p <> k -> fs_lookup fs' p = fs_lookup fs p.

(** The documents of a group: the [.yaml] entries of its directory, in
    the order the directory lists them. *)
Definition documents (H : host) (group_name : string) (w : world)
  : list string :=
  filter (endswith ".yaml")
         (fs_children (resolve [] (get_group_dir_path H group_name)) (w_fs w)).

(** [-f doc] for every document. *)
Definition file_arguments (docs : list string) : string :=
  String.concat "" (map (fun d => " -f " ++ d) docs).

(** What the loop over the [_LIST] keys makes of an entry. *)
Definition list_or_string (key raw : string) : value :=
  if endswith "_LIST" key then VList (split_on "," (slice_1_m1 raw))
  else VStr raw.

(** The entry [key=raw...] is a line of the manifest. *)
Definition entry_of (lines : list string) (key raw : string) : Prop :=
  exists line, In line lines
               /\ nth_error (split_on "=" line) 0 = Some key
               /\ nth_error (split_on "=" line) 1 = Some raw.

(** Every value of [d] is a string. *)
Definition all_strings (d : pydict) : Prop :=
  forall k v, assoc k d = Some v -> exists s, v = VStr s.

(** Nothing is left below [k]. *)
Definition emptied (k : path) (fs : fsT) : Prop :=
  forall p, is_prefix k p = true -> p <> k -> fs_lookup fs p = None.

(** The command that removes a container, and the one that asks for its
    status. *)
Definition is_remove (c : string) : bool := startswith "docker rm -f " c.
Definition is_status (c : string) : bool := startswith "docker inspect " c.

(** The latest actions are a status poll answered ['exited'] and the
    sleep that follows it. *)
Definition polled_exited (acts : list event) : Prop :=
  match acts with
  | Sleep secs :: Exec c rc out :: _ =>
      secs = 5 /\ rc = 0 /\ is_status c = true /\ strip out = "exited"
  | _ => False
  end.

(** Every removal comes right after such a poll. *)
Fixpoint removal_guarded (acts : list event) : Prop :=
  match acts with
  | [] => True
  | e :: rest =>
      match e with
      | Exec c _ _ => is_remove c = true -> polled_exited rest
      | _ => True
      end /\ removal_guarded rest
  end.

Definition answered_poll (e : event) : bool :=
  match e with
  | Exec c rc _ => (is_status c && (rc =? 0))%bool
  | _ => false
  end.

(** Every answered poll is followed at once by a sleep of five seconds;
    [later] is the action that follows the head of the list. *)
Fixpoint paced_after (later : option event) (acts : list event) : Prop :=
  match acts with
  | [] => True
  | e :: rest =>
      (answered_poll e = true -> later = Some (Sleep 5))
      /\ paced_after (Some e) rest
  end.

Definition protocol (trace : list event) : Prop :=
  removal_guarded (actions trace) /\ paced_after None (actions trace).

(** An event that is neither a removal nor a status poll. *)
Definition benign (e : event) : Prop :=
  match e with
  | Exec c _ _ => is_remove c = false /\ is_status c = false
  | _ => True
  end.

(** Whatever its outcome, [m] keeps [I] true of the trace. *)
Definition keeps {A : Type} (I : list event -> Prop) (m : M A) : Prop :=
  forall w, I (w_trace w) -> I (w_trace (outcome_world (m w))).

(** An engine that accepts every command and never answers ['exited']. *)
Definition never_exited (H : host) : Prop :=
  forall tr fs c, exists out fs',
    engine H tr fs c = (0, out, fs') /\ strip out <> "exited".

(** The groups of a batch are assembled one after the other, each from the
    world the one before left, and each returns a code. *)
Inductive assembled (H : host)
  : list string -> world -> list Z -> world -> Prop :=
| assembled_nil (w : world) : assembled H [] w [] w
| assembled_cons (g : string) (gs : list string) (w w1 w2 : world)
    (code : Z) (codes : list Z) :
    _create_compose_file H g w = Ret code w1 ->
    assembled H gs w1 codes w2 ->
    assembled H (g :: gs) w (code :: codes) w2.

(** A plain name: one path component, not empty and not a dot entry. *)
Definition plain_name (n : string) : Prop :=
  split_on "/" n = [n] /\ startswith "/" n = false
  /\ n <> "" /\ n <> "." /\ n <> "..".

(** The optional service, as the last argument of a command. *)
Definition service_suffix (a : args) : string :=
  if truthy (service a) then " " ++ format_opt (service a) else "".

(** The command of [stop], [restart] and [remove] for a group, its
    documents and a verb. *)
Definition compose_command_of (verb : string) (a : args) (files : string)
  : string :=
  "docker-compose -p " ++ group_name a ++ " " ++ files ++ " " ++ verb
  ++ service_suffix a.

Definition start_command_of (a : args) (files : string) : string :=
  "docker-compose -p " ++ group_name a ++ " " ++ files
  ++ (if truthy (service a) then " start " ++ format_opt (service a)
      else " up -d").

Definition cli_command_of (a : args) (files : string) : string :=
  "docker-compose -p " ++ group_name a ++ " " ++ files ++ " exec "
  ++ format_opt (service a) ++ " sh".

(** What [execute] prints after a command: its output, or the error. *)
Definition report_of (command_string : string) (rc : Z) (output : string)
  : event :=
  if rc =? 0 then Print (strip output)
  else Print (Fore_RED ++ execute_error command_string rc output).

(** What [remove] says it does, before [Success] or [Failure]. *)
Definition remove_message (a : args) : string :=
  if truthy (service a)
  then Fore_GREEN ++ "Remove " ++ group_name a ++ "'s service "
       ++ format_opt (service a)
  else "Remove group " ++ group_name a.

(** [o] is a return of [rc] that leaves the file system [fs'] and has
    added the events [new], the latest first, or it is the [OSError] of a
    working directory that is gone. *)
Definition returns_status (rc : Z) (fs' : fsT) (new : list event) (w : world)
    (o : outcome Z) : Prop :=
  match o with
  | Ret code w' =>
      code = rc /\ w_fs w' = fs' /\ w_trace w' = (new ++ w_trace w)%list
  | Raise e _ => e = OSError
  | OutOfFuel _ => False
  end.

(** Every character of [s] satisfies [q]. *)
Fixpoint all_chars (q : ascii -> bool) (s : string) : bool :=
  match s with
  | EmptyString => true
  | String c rest => (q c && all_chars q rest)%bool
  end.

(** [k in SERVICE_KEYS] *)
Definition is_role_key (k : string) : bool :=
  existsb (String.eqb k)
    ["JTI_NATIVE_COLLECTOR"; "JTI_OC_COLLECTOR"; "RULE_ENGINE";
     "TRAINING_ENGINE"; "COMMAND_RPC"; "DATABASE"].

(** The event is not a command that failed. *)
Definition succeeded (e : event) : Prop :=
  match e with
  | Exec _ rc _ => rc = 0
  | _ => True
  end.

(** Since [w0], every command succeeded. *)
Definition clean (w0 w : world) : Prop :=
  exists evs,
    w_trace w = (evs ++ w_trace w0)%list /\ Forall succeeded (actions evs).

(** Since [w0], commands were run; the last of them exited with [code] and
    those before it succeeded. *)
Definition last_status (w0 : world) (code : Z) (w : world) : Prop :=
  exists evs c out earlier,
    w_trace w = (evs ++ w_trace w0)%list
    /\ actions evs = Exec c code out :: earlier
    /\ Forall succeeded earlier.

(** When [m] returns, every command it ran succeeded. *)
Definition tidy {A : Type} (m : M A) : Prop :=
  forall w0 w, clean w0 w ->
    wp m (fun _ w' => clean w0 w') (fun _ _ => True) w.

(** [m] stops at the command that fails: when it returns, every command it
    ran succeeded; when it raises [CalledProcessError], the last command
    it ran failed with that status and those before it succeeded. *)
Definition strict {A : Type} (m : M A) : Prop :=
  forall w0 w, clean w0 w ->
    wp m (fun _ w' => clean w0 w')
       (fun e w' =>
          match e with
          | Some (CalledProcessError rc) => rc <> 0 /\ last_status w0 rc w'
          | _ => True
          end) w.

(** A line printed, or the extraction of [manifest.json] from an
    archive. *)
Definition extraction_or_print (e : event) : Prop :=
  match e with
  | Print _ => True
  | Exec c _ _ => exists p, c = "tar -xf " ++ p ++ " manifest.json"
  | Sleep _ => False
  end.

(** The names of the output root that [parse] takes for groups: those
    that do not start with a dot and are directories, in the order of the
    listing. *)
Definition group_names (output_folder : string) (w : world) : list string :=
  filter (fun x =>
            (negb (startswith "." x)
             && is_dir (w_fs w)
                  (resolve (w_cwd w) (path_join output_folder x)))%bool)
         (fs_children (resolve (w_cwd w) output_folder) (w_fs w)).

(** The commands of [mgd], for the tag of its image. *)
Definition mgd_plan (H : host) (mgd_command : string) (tag : json)
  : list string :=
  let exec := "docker exec -it jfit_mgd_cli /usr/sbin/cli" in
  if String.eqb mgd_command "start" then
    ["docker rm -f jfit_mgd_cli";
     "tar -xf " ++ path_join (DOCKER_IMAGE_DIR H) "jfit_mgd.tar.gz"
     ++ " manifest.json";
     "docker run -v "
     ++ path_join (path_join (FILE_DIR_PATH H) "config") ""
     ++ ":/config/ --name jfit_mgd_cli -d " ++ format_json H tag;
     exec]
  else if String.eqb mgd_command "stop" then ["docker stop jfit_mgd_cli"]
  else if String.eqb mgd_command "cli" then [exec]
  else [].

(** A name that [install] takes for an image of the product. *)
Definition image_name (f : string) : Prop :=
  startswith "jfit_" f = true /\ endswith ".tar.gz" f = true.

(** [manifest[0]['RepoTags'][0]] of an extracted manifest, when the
    script can read it. *)
Definition manifest_tag (c : content) : option json :=
  match c with
  | Json (JArr (JObj fields :: _)) =>
      match assoc "RepoTags" fields with
      | Some (JArr (tag :: _)) => Some tag
      | Some (JStr (String ch _)) => Some (JStr (String ch ""))
      | _ => None
      end
  | _ => None
  end.

(** The files of the image directory that [install] loads, in the order
    of the listing. *)
Definition product_images (H : host) (fs : fsT) : list string :=
  filter (fun f => (startswith "jfit_" f && endswith ".tar.gz" f)%bool)
         (fs_children (resolve [] (DOCKER_IMAGE_DIR H)) fs).

(** The archive of the image of a role that the manifest gives [impl]. *)
Definition image_of (H : host) (impl : value) : string :=
  path_join (DOCKER_IMAGE_DIR H) (("jfit_" ++ format_value impl) ++ ".tar.gz").

(** The template of a service, in the template directory [loc]. *)
Definition template_of (loc service : string) : string :=
  path_join loc
    (if String.eqb service "TRAINING_ENGINE"
     then service ++ "_training.yaml.j2"
     else service ++ ".yaml.j2").

(** The configuration file of a service, in the group directory. *)
Definition conf_of (dir_path role service : string) : string :=
  path_join (path_join dir_path (lower role)) (drop 5 service ++ ".conf").

(** [c in s] *)
Fixpoint contains (c : ascii) (s : string) : bool :=
  match s with
  | EmptyString => false
  | String x rest => (Ascii.eqb c x || contains c rest)%bool
  end.

(** The exceptions raised while the extracted manifest is decoded. *)
Definition decode_error (e : exn) : bool :=
  match e with
  | ValueError | IndexError | KeyError | TypeError => true
  | _ => false
  end.

(** ** A concrete installation, for the examples *)

Module Demo.

Definition dir_of (p : string) : path * node := (resolve [] p, Dir).

Definition file_of (p : string) (c : content) : path * node :=
  (resolve [] p, File c).

(** The manifest of an image whose first repository tag is [tag]. *)
Definition image (tag : json) : content :=
  TarGz [("manifest.json", Json (JArr [JObj [("RepoTags", JArr [tag])]]))].

(** A rendering that shows the template and the values it was given. *)
Definition show_render (template : string) (data : pydict) : option string :=
  Some (template ++ " <- "
        ++ join "," (map (fun kv => fst kv ++ "=" ++ format_value (snd kv))
                         data)).

Definition host_of (e : list event -> fsT -> string -> Z * string * fsT)
  : host :=
  {| FILE_DIR_PATH := "/opt/jfit";
     raw_bytes := fun _ => "";
     py_str := fun _ => "None";
     jinja2_render := show_render;
     engine := e |}.

(** An engine that accepts every command and prints nothing. *)
Definition engine_ok : list event -> fsT -> string -> Z * string * fsT :=
  fun _ fs _ => (0, "", fs).

(** An engine that rejects every command. *)
Definition engine_ko : list event -> fsT -> string -> Z * string * fsT :=
  fun _ fs _ => (1, "error", fs).

Definition host_ok : host := host_of engine_ok.
Definition host_ko : host := host_of engine_ko.

(** The installation: the script's directories, with the image of the
    rule engine, tagged [re_tag], and its template. *)
Definition installed_with (re_tag : json) : fsT :=
  [ dir_of "/opt"; dir_of "/opt/jfit"; dir_of "/opt/jfit/etc";
    dir_of "/opt/jfit/etc/core_output"; dir_of "/opt/jfit/docker_images";
    dir_of "/opt/jfit/compose_files"; dir_of "/opt/jfit/input";
    dir_of "/home";
    file_of "/opt/jfit/docker_images/jfit_re.tar.gz" (image re_tag);
    file_of "/opt/jfit/compose_files/jfit_re.yaml.j2" (Text "re-template") ].

Definition installed : fsT := installed_with (JStr "jfit_re:1.2").

(** A group directory of the output root, with its manifest. *)
Definition group_dir (g env : string) : fsT :=
  [ dir_of ("/opt/jfit/etc/core_output/" ++ g);
    file_of ("/opt/jfit/etc/core_output/" ++ g ++ "/source.env") (Text env) ].

Definition at_home (fs : fsT) : world :=
  {| w_fs := fs; w_cwd := ["home"]; w_trace := [] |}.

Definition args_group (g : string) (s : option string) : args :=
  {| group_name := g; service := s; input_file_path := "";
     device_group := ""; input_dir := None |}.

Definition args_parse (input dg : string) : args :=
  {| group_name := ""; service := None; input_file_path := input;
     device_group := dg; input_dir := None |}.

(** An image whose manifest is an empty JSON array. *)
Definition empty_manifest_fs : fsT :=
  (installed
   ++ [file_of "/opt/jfit/docker_images/jfit_db.tar.gz"
               (TarGz [("manifest.json", Json (JArr []))])])%list.

(** A rule engine whose image tag has an empty version. *)
Definition empty_version_fs : fsT :=
  (installed_with (JStr "jfit_re:") ++ group_dir "g1" "RULE_ENGINE=re")%list.

(** A group with the training engine, whose image comes with a generic
    and a specialized template. *)
Definition training_fs : fsT :=
  (installed
   ++ [ file_of "/opt/jfit/docker_images/jfit_te.tar.gz"
                (image (JStr "jfit_te:2.0"));
        file_of "/opt/jfit/compose_files/jfit_te.yaml.j2" (Text "generic");
        file_of "/opt/jfit/compose_files/jfit_te_training.yaml.j2"
                (Text "specialized") ]
   ++ group_dir "g1" "TRAINING_ENGINE=te")%list.

(** A group directory that was never assembled. *)
Definition unassembled_fs : fsT :=
  (installed ++ group_dir "g1" "RULE_ENGINE=re")%list.

(** The group [g1], assembled: two documents in its directory. *)
Definition assembled_fs : fsT :=
  (unassembled_fs
   ++ [ file_of "/opt/jfit/etc/core_output/g1/jfit_re.yaml" (Text "re");
        file_of "/opt/jfit/etc/core_output/g1/jfit_db.yaml" (Text "db") ])%list.

(** The assembled group, with the image of the helper container and an
    input model in the home directory. *)
Definition parse_fs : fsT :=
  (assembled_fs
   ++ [ file_of "/opt/jfit/docker_images/jfit_core.tar.gz"
                (image (JStr "jfit_core:1.0"));
        file_of "/home/in.json" (Text "{}") ])%list.

(** An engine under which the helper container never exits. *)
Definition engine_running : list event -> fsT -> string -> Z * string * fsT :=
  fun _ fs _ => (0, "running", fs).

Definition host_running : host := host_of engine_running.

(** An engine that runs the helper container [c0ffee], which leaves the
    group [g2] in the output root, and reports it running twice before it
    reports it exited. *)
Definition engine_scripted : list event -> fsT -> string -> Z * string * fsT :=
  fun trace fs c =>
    if is_status c then
      (0,
       (if Nat.leb 2 (List.length (filter answered_poll trace))
        then "exited" else "running") ++ NL,
       fs)
    else if startswith "docker run " c then
      (0, "c0ffee" ++ NL, (fs ++ group_dir "g2" "RULE_ENGINE=re")%list)
    else (0, "", fs).

Definition host_scripted : host := host_of engine_scripted.

(** A group with two roles; the image of the second is not installed. *)
Definition two_roles_fs : fsT :=
  (installed ++ group_dir "g1" "RULE_ENGINE=re DATABASE=db")%list.

(** The same, with a second, complete group beside it. *)
Definition two_roles_batch_fs : fsT :=
  (two_roles_fs ++ group_dir "g2" "RULE_ENGINE=re")%list.

(** Two groups in the output root; the image of the first is not an
    archive. *)
Definition two_groups_fs : fsT :=
  (installed
   ++ [file_of "/opt/jfit/docker_images/jfit_xx.tar.gz" (Text "junk")]
   ++ group_dir "g0" "RULE_ENGINE=xx"
   ++ group_dir "g1" "RULE_ENGINE=re")%list.

(** Two groups in the output root; the first has no manifest. *)
Definition no_manifest_fs : fsT :=
  (installed ++ [dir_of "/opt/jfit/etc/core_output/g0"]
   ++ group_dir "g1" "RULE_ENGINE=re")%list.

(** A group whose manifest carries a comment after its entry. *)
Definition commented_fs : fsT :=
  (installed ++ group_dir "g1" "RULE_ENGINE=re #comment")%list.

(** A group whose manifest names no role, and sets one of the injected
    keys. *)
Definition no_role_fs : fsT :=
  (installed ++ group_dir "g1" "JFIT_ETC_PATH=/tmp SITE=lab")%list.

(** The installation with the image of the management daemon. *)
Definition mgd_fs : fsT :=
  (installed
   ++ [file_of "/opt/jfit/docker_images/jfit_mgd.tar.gz"
               (image (JStr "jfit_mgd:3.1"))])%list.

End Demo.

(** * Properties *)

(** ** Strings and paths *)

#[local] Arguments Ascii.eqb : simpl never.
#[local] Arguments String.eqb : simpl never.

Example python_strings :
  split_on ":" "jfit_re:1.2" = ["jfit_re"; "1.2"]
  /\ split_on ":" "" = [""]
  /\ split_on "," "a,,b" = ["a"; ""; "b"]
  /\ split_ws " A=1  B=2 " = ["A=1"; "B=2"]
  /\ strip "  x y " = "x y"
  /\ slice_1_m1 "[a,b,c]" = "a,b,c"
  /\ endswith "_LIST" "DEVICE_LIST" = true
  /\ upper "jfit_re" = "JFIT_RE"
  /\ of_Z (-12) = "-12".
Proof. repeat split; reflexivity. Qed.

Lemma split_by_not_nil (p : ascii -> bool) (s : string) : split_by p s <> [].
Proof.
  destruct s as [|c s]; simpl; [discriminate|].
  destruct (p c); [discriminate|].
  destruct (split_by p s); discriminate.
Qed.

(** A separator between two strings separates their fields. *)
Lemma split_by_app_sep (p : ascii -> bool) (c : ascii) (a b : string) :
  p c = true ->
  split_by p (a ++ String c b) = (split_by p a ++ split_by p b)%list.
Proof.
  intros Hc. induction a as [|x a IH]; simpl.
  - rewrite Hc. reflexivity.
  - destruct (p x).
    + rewrite IH. reflexivity.
    + rewrite IH. destruct (split_by p a) eqn:E.
      * exfalso. eapply split_by_not_nil; eauto.
      * reflexivity.
Qed.

Lemma startswith_slash_inv (s : string) :
  startswith "/" s = true -> exists r, s = String "/" r.
Proof.
  destruct s as [|c s]; simpl; [discriminate|].
  destruct (Ascii.eqb_spec "/" c) as [<-|]; simpl; [eauto|discriminate].
Qed.

Lemma startswith_slash_app (a b : string) :
  a <> "" -> startswith "/" (a ++ b) = startswith "/" a.
Proof.
  destruct a as [|c a]; [congruence|]. intros _. reflexivity.
Qed.

Lemma endswith_slash_inv (s : string) :
  endswith "/" s = true -> exists r, s = r ++ "/".
Proof.
  induction s as [|c s IH]; simpl.
  - discriminate.
  - destruct (String.eqb (String c s) "/") eqn:E.
    + apply String.eqb_eq in E. intros _. exists "". rewrite E. reflexivity.
    + intros Hs. destruct (IH Hs) as [r ->]. exists (String c r). reflexivity.
Qed.

Lemma string_app_assoc (a b c : string) : (a ++ b) ++ c = a ++ (b ++ c).
Proof. induction a; simpl; congruence. Qed.

Lemma norm_step_plain (acc : path) (n : string) :
  plain_name n -> norm_step acc n = (acc ++ [n])%list.
Proof.
  intros (_ & _ & H1 & H2 & H3). unfold norm_step.
  apply String.eqb_neq in H1, H2, H3. rewrite H1, H2, H3. reflexivity.
Qed.

(** An absolute path resolves the same from every directory. *)
Lemma resolve_abs (c c' : path) (p : string) :
  startswith "/" p = true -> resolve c p = resolve c' p.
Proof. unfold resolve. intros ->. reflexivity. Qed.

Lemma resolve_name (c : path) (n : string) :
  plain_name n -> resolve c n = (c ++ [n])%list.
Proof.
  intros Hn. pose proof Hn as (Hs & Hr & _). unfold resolve.
  rewrite Hr, Hs. simpl. apply norm_step_plain, Hn.
Qed.

(** Joining a plain name to a directory adds one component. *)
Lemma resolve_join_name (c : path) (a n : string) :
  plain_name n -> resolve c (path_join a n) = (resolve c a ++ [n])%list.
Proof.
  intros Hn. pose proof Hn as (Hs & Hr & _).
  unfold path_join. rewrite Hr.
  destruct a as [|x a].
  - simpl. rewrite resolve_name by assumption. reflexivity.
  - cbn [nonempty negb orb].
    destruct (endswith "/" (String x a)) eqn:E.
    + apply endswith_slash_inv in E. destruct E as [r E]. rewrite E.
      unfold resolve.
      assert (Hst : startswith "/" ((r ++ "/") ++ n) = startswith "/" (r ++ "/")).
      { apply startswith_slash_app. destruct r; discriminate. }
      rewrite Hst. rewrite string_app_assoc. unfold split_on. simpl.
      rewrite !split_by_app_sep by reflexivity.
      fold (split_on "/" n). rewrite Hs. simpl.
      rewrite !fold_left_app. simpl.
      rewrite norm_step_plain by assumption. reflexivity.
    + unfold resolve.
      assert (Hst : startswith "/" (String x a ++ "/" ++ n)
                    = startswith "/" (String x a)).
      { apply startswith_slash_app. discriminate. }
      rewrite Hst. unfold split_on.
      change (String x a ++ "/" ++ n) with (String x a ++ String "/" n).
      rewrite split_by_app_sep by reflexivity.
      fold (split_on "/" n). rewrite Hs.
      rewrite fold_left_app. simpl.
      rewrite norm_step_plain by assumption. reflexivity.
Qed.

Lemma path_join_abs (a b : string) :
  startswith "/" a = true -> startswith "/" (path_join a b) = true.
Proof.
  intros Ha. unfold path_join. destruct (startswith "/" b) eqn:Hb; [assumption|].
  destruct a as [|x a]; [discriminate|].
  cbn [nonempty negb orb].
  destruct (endswith "/" (String x a));
    rewrite startswith_slash_app by discriminate; assumption.
Qed.

(** ** The file system *)

Lemma path_eqb_eq (p q : path) : path_eqb p q = true <-> p = q.
Proof.
  revert q. induction p as [|x p IH]; destruct q as [|y q]; simpl;
    try (split; congruence).
  rewrite andb_true_iff, String.eqb_eq, IH. split.
  - intros [-> ->]. reflexivity.
  - intros E. inversion E. auto.
Qed.

Lemma path_eqb_refl (p : path) : path_eqb p p = true.
Proof. apply path_eqb_eq. reflexivity. Qed.

Lemma path_eqb_neq (p q : path) : p <> q -> path_eqb p q = false.
Proof.
  intros Hn. destruct (path_eqb p q) eqn:E; [|reflexivity].
  apply path_eqb_eq in E. contradiction.
Qed.

Lemma fs_find_set_eq (p : path) (n : node) (fs : fsT) :
  fs_find (fs_set p n fs) p = Some n.
Proof.
  induction fs as [|[q m] fs IH]; simpl.
  - rewrite path_eqb_refl. reflexivity.
  - destruct (path_eqb q p) eqn:E; simpl.
    + rewrite path_eqb_refl. reflexivity.
    + rewrite E. exact IH.
Qed.

Lemma fs_find_set_neq (p q : path) (n : node) (fs : fsT) :
  q <> p -> fs_find (fs_set p n fs) q = fs_find fs q.
Proof.
  intros Hn. induction fs as [|[r m] fs IH]; simpl.
  - rewrite path_eqb_neq by congruence. reflexivity.
  - destruct (path_eqb r p) eqn:E; simpl.
    + apply path_eqb_eq in E. subst r.
      rewrite !path_eqb_neq by congruence. reflexivity.
    + rewrite IH. reflexivity.
Qed.

Lemma fs_lookup_set_eq (p : path) (n : node) (fs : fsT) :
  p <> [] -> fs_lookup (fs_set p n fs) p = Some n.
Proof.
  destruct p; [congruence|]. intros _. apply fs_find_set_eq.
Qed.

Lemma fs_lookup_set_neq (p q : path) (n : node) (fs : fsT) :
  q <> p -> fs_lookup (fs_set p n fs) q = fs_lookup fs q.
Proof.
  intros Hn. destruct q; [reflexivity|]. apply fs_find_set_neq, Hn.
Qed.

Lemma fs_find_del_eq (p : path) (fs : fsT) : fs_find (fs_del p fs) p = None.
Proof.
  induction fs as [|[q m] fs IH]; simpl; [reflexivity|].
  destruct (path_eqb q p) eqn:E; simpl; [exact IH|].
  rewrite E. exact IH.
Qed.

Lemma fs_find_del_neq (p q : path) (fs : fsT) :
  q <> p -> fs_find (fs_del p fs) q = fs_find fs q.
Proof.
  intros Hn. induction fs as [|[r m] fs IH]; simpl; [reflexivity|].
  destruct (path_eqb r p) eqn:E; simpl.
  - apply path_eqb_eq in E. subst r.
    rewrite path_eqb_neq by congruence. exact IH.
  - rewrite IH. reflexivity.
Qed.

Lemma fs_lookup_del_eq (p : path) (fs : fsT) :
  p <> [] -> fs_lookup (fs_del p fs) p = None.
Proof.
  destruct p; [congruence|]. intros _. apply fs_find_del_eq.
Qed.

Lemma fs_lookup_del_neq (p q : path) (fs : fsT) :
  q <> p -> fs_lookup (fs_del p fs) q = fs_lookup fs q.
Proof.
  intros Hn. destruct q; [reflexivity|]. apply fs_find_del_neq, Hn.
Qed.

Lemma app_one_not_nil {A : Type} (l : list A) (x : A) : (l ++ [x])%list <> [].
Proof. destruct l; discriminate. Qed.

(** ** The monad *)

Lemma wp_ret {A : Type} (a : A) Q X w : Q a w -> wp (ret a) Q X w.
Proof. exact (fun q => q). Qed.

Lemma wp_bind {A B : Type} (m : M A) (k : A -> M B) Q X w :
  wp m (fun a w' => wp (k a) Q X w') X w -> wp (bind m k) Q X w.
Proof. unfold wp, bind. destruct (m w); auto. Qed.

Lemma wp_conseq {A : Type} (m : M A) (Q Q' : A -> world -> Prop)
    (X X' : option exn -> world -> Prop) w :
  wp m Q X w ->
  (forall a w', Q a w' -> Q' a w') ->
  (forall e w', X e w' -> X' e w') ->
  wp m Q' X' w.
Proof. unfold wp. intros Hm HQ HX. destruct (m w); auto. Qed.

Lemma wp_try_except {A : Type} (m : M A) (h : Z -> M A) Q X w :
  wp m Q (fun e w' =>
            match e with
            | Some (CalledProcessError rc) => wp (h rc) Q X w'
            | _ => X e w'
            end) w ->
  wp (try_except m h) Q X w.
Proof.
  unfold wp, try_except. destruct (m w) as [a w'|e w'|w']; auto.
  destruct e; auto.
Qed.

(** From a run to what [wp] says of it. *)
Lemma wp_Ret {A : Type} (m : M A) Q X w a w' :
  wp m Q X w -> m w = Ret a w' -> Q a w'.
Proof. unfold wp. intros Hm E. rewrite E in Hm. exact Hm. Qed.

Lemma wp_Raise {A : Type} (m : M A) Q X w e w' :
  wp m Q X w -> m w = Raise e w' -> X (Some e) w'.
Proof. unfold wp. intros Hm E. rewrite E in Hm. exact Hm. Qed.

Lemma bind_Ret_inv {A B : Type} (m : M A) (k : A -> M B) w b w2 :
  bind m k w = Ret b w2 ->
  exists a w1, m w = Ret a w1 /\ k a w1 = Ret b w2.
Proof.
  unfold bind. destruct (m w) as [a w1|e w1|w1]; try discriminate. eauto.
Qed.

(** ** The image tag resolver *)

Lemma plain_manifest : plain_name "manifest.json".
Proof. unfold plain_name. repeat split; try reflexivity; discriminate. Qed.

Lemma resolve_here (H : host) (c : path) :
  abs_host H -> resolve c (FILE_DIR_PATH H) = here H.
Proof. intros Ha. apply resolve_abs, Ha. Qed.

Lemma same_except_refl k fs : same_except k fs fs.
Proof. intros p _. reflexivity. Qed.

Lemma same_except_trans k fs1 fs2 fs3 :
  same_except k fs1 fs2 -> same_except k fs2 fs3 -> same_except k fs1 fs3.
Proof. intros H1 H2 p Hp. rewrite H2, H1 by assumption. reflexivity. Qed.

Lemma same_except_set k n fs : same_except k fs (fs_set k n fs).
Proof. intros p Hp. apply fs_lookup_set_neq, Hp. Qed.

Lemma same_except_del k fs : same_except k fs (fs_del k fs).
Proof. intros p Hp. apply fs_lookup_del_neq, Hp. Qed.

(** [execute] as one step. *)
Lemma execute_eq (run : proc) (cmd : string) (w : world) :
  execute run cmd w =
  let w1 := add_event (Print (Fore_CYAN ++ cmd)) w in
  let '(rc, out, fs') := run w1 in
  let w2 := add_event (Exec cmd rc out) (set_fs fs' w1) in
  if rc =? 0 then Ret (strip out) w2
  else Raise (CalledProcessError rc)
             (add_event (Print (Fore_RED ++ execute_error cmd rc out)) w2).
Proof.
  unfold execute, bind, print, spawn. cbv zeta.
  destruct (run _) as [[rc out] fs']. destruct (rc =? 0); reflexivity.
Qed.

Lemma wp_execute (run : proc) (cmd : string) Q X w :
  (forall rc out fs',
      run (add_event (Print (Fore_CYAN ++ cmd)) w) = (rc, out, fs') ->
      let w2 := add_event (Exec cmd rc out)
                  (set_fs fs' (add_event (Print (Fore_CYAN ++ cmd)) w)) in
      (rc = 0 -> Q (strip out) w2)
      /\ (rc <> 0 ->
          X (Some (CalledProcessError rc))
            (add_event (Print (Fore_RED ++ execute_error cmd rc out)) w2))) ->
  wp (execute run cmd) Q X w.
Proof.
  intros Hr. unfold wp. rewrite execute_eq. cbv zeta.
  destruct (run _) as [[rc out] fs'] eqn:E.
  destruct (Hr _ _ _ eq_refl) as [H0 H1].
  destruct (Z.eqb_spec rc 0); auto.
Qed.

(** [tar] either extracts the member where it is run, or changes
    nothing. *)
Lemma tar_xf_cases (archive member : string) (w : world) rc out fs' :
  tar_xf archive member w = (rc, out, fs') ->
  (rc = 0 /\ exists c,
      fs' = fs_set (resolve (w_cwd w) member) (File c) (w_fs w))
  \/ (rc <> 0 /\ fs' = w_fs w).
Proof.
  unfold tar_xf. intros E.
  repeat match type of E with
         | context [match ?x with _ => _ end] => destruct x
         end; inversion E; subst; eauto; right; split; congruence || lia.
Qed.


Lemma wp_json_load c Q X w :
  (forall j, Q j w) ->
  (forall e, decode_error e = true -> X (Some e) w) ->
  wp (json_load c) Q X w.
Proof. intros HQ HX. destruct c; cbn; auto. Qed.

Lemma wp_json_index0 v Q X w :
  (forall j, Q j w) ->
  (forall e, decode_error e = true -> X (Some e) w) ->
  wp (json_index0 v) Q X w.
Proof.
  intros HQ HX. destruct v as [| | |[|ch s]|[|x xs]|fs0]; cbn; auto.
Qed.

Lemma wp_json_getitem v key Q X w :
  (forall j, Q j w) ->
  (forall e, decode_error e = true -> X (Some e) w) ->
  wp (json_getitem v key) Q X w.
Proof.
  intros HQ HX. destruct v; cbn; auto.
  destruct (assoc key fields); cbn; auto.
Qed.

Lemma gct_spec (H : host) (p : string) (w : world) :
  abs_host H ->
  wp (_get_container_tags H p)
     (fun _ w' =>
        fs_lookup (w_fs w') (manifest_tmp H) = None
        /\ same_except (manifest_tmp H) (w_fs w) (w_fs w')
        /\ commands (w_trace w')
           = (commands (w_trace w)
              ++ [("tar -xf " ++ p ++ " manifest.json")%string])%list)
     (fun e w' =>
        match e with
        | Some (CalledProcessError _) => w_fs w' = w_fs w
        | Some OSError => same_except (manifest_tmp H) (w_fs w) (w_fs w')
        | Some e =>
            decode_error e = true
            /\ is_file (w_fs w') (manifest_tmp H) = true
            /\ same_except (manifest_tmp H) (w_fs w) (w_fs w')
        | None => False
        end) w.
Proof.
  intros Ha. unfold _get_container_tags.
  apply wp_bind. unfold getcwd at 1, wp at 1.
  apply wp_bind. unfold chdir at 1, wp at 1.
  rewrite (resolve_here H _ Ha).
  destruct (is_dir (w_fs w) (here H)) eqn:Hd; [|apply same_except_refl].
  apply wp_bind. apply wp_execute. intros rc out fs' E.
  apply tar_xf_cases in E. cbn [w_cwd add_event set_cwd w_fs] in E.
  rewrite (resolve_name _ _ plain_manifest) in E. fold (manifest_tmp H) in E.
  destruct E as [[-> [c ->]]|[Hrc ->]]; (split; intros Hn);
    try congruence; try reflexivity.
  clear Hn.
  assert (Hk : manifest_tmp H <> []) by apply app_one_not_nil.
  apply wp_bind. unfold open_r at 1, wp at 1.
  cbn [w_cwd add_event set_cwd w_fs set_fs].
  rewrite (resolve_name _ _ plain_manifest). fold (manifest_tmp H).
  rewrite fs_lookup_set_eq by assumption.
  set (wx := add_event _ _).
  assert (Hfile : is_file (w_fs wx) (manifest_tmp H) = true).
  { subst wx. cbn. unfold is_file. rewrite fs_lookup_set_eq by assumption.
    reflexivity. }
  assert (Hsame : same_except (manifest_tmp H) (w_fs w) (w_fs wx))
    by apply same_except_set.
  assert (Hleak : forall e, decode_error e = true ->
            match e with
            | CalledProcessError _ => w_fs wx = w_fs w
            | OSError => same_except (manifest_tmp H) (w_fs w) (w_fs wx)
            | e0 => decode_error e0 = true
                    /\ is_file (w_fs wx) (manifest_tmp H) = true
                    /\ same_except (manifest_tmp H) (w_fs w) (w_fs wx)
            end).
  { intros e He. destruct e; try discriminate; auto. }
  apply wp_bind, wp_json_load; [intros doc|exact Hleak].
  apply wp_bind, wp_json_index0; [intros first|exact Hleak].
  apply wp_bind, wp_json_getitem; [intros repo_tags|exact Hleak].
  apply wp_bind, wp_json_index0; [intros tags|exact Hleak].
  apply wp_bind. unfold os_remove at 1, wp at 1.
  assert (Hcwd : w_cwd wx = here H) by reflexivity. rewrite Hcwd.
  rewrite (resolve_join_name _ _ _ plain_manifest), (resolve_here H _ Ha).
  fold (manifest_tmp H). rewrite Hfile.
  assert (Hgone : fs_lookup (fs_del (manifest_tmp H) (w_fs wx)) (manifest_tmp H)
                  = None) by (apply fs_lookup_del_eq; assumption).
  assert (Hsame' : same_except (manifest_tmp H) (w_fs w)
                               (fs_del (manifest_tmp H) (w_fs wx))).
  { eapply same_except_trans; [exact Hsame|apply same_except_del]. }
  apply wp_bind. unfold chdir at 1, wp at 1. cbv zeta.
  match goal with |- context [is_dir ?a ?b] => destruct (is_dir a b) end.
  - unfold wp, ret. cbn [w_fs set_cwd set_fs]. auto.
  - cbn [w_fs set_fs]. exact Hsame'.
Qed.




(** ** The fields of a tag *)

Lemma split_on_absent (c : ascii) (s : string) :
  contains c s = false -> split_on c s = [s].
Proof.
  unfold split_on. induction s as [|x s IH]; simpl; [reflexivity|].
  intros Hc. apply orb_false_iff in Hc. destruct Hc as [Hx Hs].
  rewrite Hx, (IH Hs). reflexivity.
Qed.

Lemma split_on_first (c : ascii) (a b : string) :
  contains c a = false ->
  split_on c (a ++ String c b) = a :: split_on c b.
Proof.
  intros Ha. unfold split_on.
  rewrite split_by_app_sep by apply Ascii.eqb_refl.
  fold (split_on c a). rewrite (split_on_absent _ _ Ha). reflexivity.
Qed.

(** C4 (as amended).  The tag is split on [':'] and the first two fields
    are trimmed: a tag without [':'] raises [IndexError]; any other tag is
    accepted, whether the name or the version comes out empty and whatever
    follows a second [':']. *)
Theorem split_tag_fields (w : world) :
  (forall tag, contains ":" tag = false ->
     split_tag tag w = Raise IndexError w)
  /\ (forall name rest, contains ":" name = false ->
        split_tag (name ++ ":" ++ rest) w
        = Ret (strip name, strip (hd "" (split_on ":" rest))) w).
Proof.
  split.
  - intros tag Hc. unfold split_tag.
    rewrite (split_on_absent _ _ Hc). reflexivity.
  - intros name rest Hc. unfold split_tag.
    change (name ++ ":" ++ rest) with (name ++ String ":" rest).
    rewrite (split_on_first _ _ _ Hc).
    pose proof (split_by_not_nil (Ascii.eqb ":") rest) as Hn.
    unfold split_on. destruct (split_by (Ascii.eqb ":") rest) as [|v vs];
      [congruence|reflexivity].
Qed.

Lemma split_tag_fields_witness :
  split_tag "latest" (Demo.at_home []) = Raise IndexError (Demo.at_home [])
  /\ split_tag "jfit_re:1.2" (Demo.at_home [])
     = Ret ("jfit_re", "1.2") (Demo.at_home [])
  /\ split_tag ": 3 :x" (Demo.at_home []) = Ret ("", "3") (Demo.at_home []).
Proof.
  pose proof (split_tag_fields (Demo.at_home [])) as [Hno Hyes].
  split; [|split].
  - exact (Hno "latest" eq_refl).
  - exact (Hyes "jfit_re" "1.2" eq_refl).
  - exact (Hyes "" " 3 :x" eq_refl).
Defined.

(** C4, as stated, fails: the tag of this image has an empty version; the
    group is assembled all the same, and its document is rendered with an
    empty tag. *)
Lemma empty_version_is_accepted :
  _get_container_tags Demo.host_ok "/opt/jfit/docker_images/jfit_re.tar.gz"
    (Demo.at_home Demo.empty_version_fs)
  = Ret (JStr "jfit_re:")
        (add_event
           (Exec "tar -xf /opt/jfit/docker_images/jfit_re.tar.gz manifest.json"
                 0 "")
           (add_event
              (Print (Fore_CYAN ++
                "tar -xf /opt/jfit/docker_images/jfit_re.tar.gz manifest.json"))
              (Demo.at_home Demo.empty_version_fs)))
  /\ exists w',
      _create_compose_file Demo.host_ok "/opt/jfit/etc/core_output/g1"
        (Demo.at_home Demo.empty_version_fs) = Ret 0 w'
      /\ fs_lookup (w_fs w')
           (resolve [] "/opt/jfit/etc/core_output/g1/jfit_re.yaml")
         = Some (File (Text
             ("re-template <- JFIT_RE_IMAGE=jfit_re,JFIT_RE_TAG=,"
              ++ "RULE_ENGINE=re,JFIT_ETC_PATH=/opt/jfit/etc,"
              ++ "JFIT_OUTPUT_PATH=/opt/jfit/etc/core_output"))).
Proof.
  split; [vm_compute; reflexivity|].
  eexists. split; vm_compute; reflexivity.
Qed.

(** ** The group assembler *)

(** C8 (the code departs from it).  Where the group directory has no
    [source.env], [_create_compose_file] prints that the file cannot be
    found and goes on to open it: it raises [IOError] and returns no
    code. *)
Theorem missing_manifest_raises (H : host) (dir_path : string) (w : world) :
  is_file (w_fs w) (resolve (w_cwd w) (path_join dir_path "source.env"))
  = false ->
  _create_compose_file H dir_path w
  = Raise IOError
      (add_event
         (Print (Fore_RED ++ "Unable to find file: "
                 ++ path_join dir_path "source.env")) w).
Proof.
  intros Hf. unfold _create_compose_file, _create_compose_file_in,
    load_env_dict, GROUP_ENV_FILE.
  unfold bind at 1. unfold bind at 1. unfold bind at 1.
  unfold isfile. rewrite Hf. cbn [negb]. unfold print.
  unfold bind at 1. unfold open_r. cbn [w_fs w_cwd add_event].
  unfold is_file in Hf.
  destruct (fs_lookup (w_fs w) _) as [[|c]|]; try discriminate; reflexivity.
Qed.

Lemma missing_manifest_raises_witness :
  _create_compose_file Demo.host_ok "/opt/jfit/etc/core_output/g0"
    (Demo.at_home Demo.no_manifest_fs)
  = Raise IOError
      (add_event
         (Print (Fore_RED ++ "Unable to find file: "
                 ++ "/opt/jfit/etc/core_output/g0/source.env"))
         (Demo.at_home Demo.no_manifest_fs)).
Proof.
  exact (missing_manifest_raises Demo.host_ok "/opt/jfit/etc/core_output/g0"
           (Demo.at_home Demo.no_manifest_fs) eq_refl).
Defined.

(** C2 (the code departs from it).  The manifest of this group has the
    key [TRAINING_ENGINE]; the generic template [jfit_te.yaml.j2] and
    the specialized [jfit_te_training.yaml.j2] both exist.  The template
    is chosen from the name in the image tag, which is not the role key:
    the document is rendered from the generic one. *)
Theorem training_role_gets_generic_template :
  exists w',
    _create_compose_file Demo.host_ok "/opt/jfit/etc/core_output/g1"
      (Demo.at_home Demo.training_fs) = Ret 0 w'
    /\ fs_lookup (w_fs w')
         (resolve [] "/opt/jfit/etc/core_output/g1/jfit_te.yaml")
       = Some (File (Text
           ("generic <- JFIT_TE_IMAGE=jfit_te,JFIT_TE_TAG=2.0,"
            ++ "TRAINING_ENGINE=te,JFIT_ETC_PATH=/opt/jfit/etc,"
            ++ "JFIT_OUTPUT_PATH=/opt/jfit/etc/core_output"))).
Proof. eexists. split; vm_compute; reflexivity. Qed.

(** ** The lifecycle commands *)

Lemma group_dir_abs (H : host) (g : string) :
  abs_host H -> startswith "/" (get_group_dir_path H g) = true.
Proof.
  intros Ha. unfold get_group_dir_path, GROUP_DIR, ETC_DIR_PATH.
  repeat apply path_join_abs. exact Ha.
Qed.

Lemma join_files (docs : list string) :
  join " -f " ("" :: docs) = file_arguments docs.
Proof.
  unfold join, file_arguments. destruct docs as [|d docs]; [reflexivity|].
  cbn [String.concat]. cbn [append].
  revert d. induction docs as [|e docs IH]; intros d; cbn [map String.concat].
  - induction d; cbn; congruence.
  - rewrite IH. clear IH. induction d; cbn; congruence.
Qed.

Lemma get_compose_files_eq (dir_path : string) (w : world) :
  _get_compose_files dir_path w =
  let d := resolve (w_cwd w) dir_path in
  if is_dir (w_fs w) d then
    match filter (endswith ".yaml") (fs_children d (w_fs w)) with
    | [] =>
        Ret (inr 1)
            (add_event
               (Print (Fore_RED ++ "Unable to find compose files." ++ NL
                       ++ " Please run parse command first!")) w)
    | docs => Ret (inl (file_arguments docs)) w
    end
  else Raise OSError w.
Proof.
  unfold _get_compose_files, bind, listdir. cbv zeta.
  destruct (is_dir _ _); [|reflexivity].
  destruct (filter _ _) as [|d docs] eqn:E; [reflexivity|].
  unfold ret. rewrite join_files. reflexivity.
Qed.

Lemma commands_run_compose (H : host) (cmd cwd message : string) (w : world) :
  commands (w_trace (outcome_world (run_compose H cmd cwd message w)))
  = (commands (w_trace w) ++ [cmd])%list.
Proof.
  unfold run_compose, try_except. unfold bind at 1. unfold bind at 1.
  rewrite execute_eq. cbv zeta. unfold docker.
  destruct (engine H _ _ _) as [[rc out] fs'].
  destruct (rc =? 0) eqn:Hrc.
  - unfold bind, print, ret, chdir. cbn [w_fs w_cwd add_event set_fs w_trace].
    destruct (is_dir _ _); reflexivity.
  - unfold bind, ret, chdir. cbn [w_fs w_cwd add_event set_fs w_trace].
    destruct (is_dir _ _); [|reflexivity].
    rewrite Hrc. reflexivity.
Qed.

Lemma start_eq (H : host) (a : args) (w : world) :
  abs_host H ->
  is_dir (w_fs w) (resolve [] (get_group_dir_path H (group_name a))) = true ->
  start H a w =
  let w1 := set_cwd (resolve [] (get_group_dir_path H (group_name a))) w in
  match documents H (group_name a) w with
  | [] =>
      Ret 1 (add_event
               (Print (Fore_RED ++ "Unable to find compose files." ++ NL
                       ++ " Please run parse command first!")) w1)
  | docs =>
      run_compose H
        ((("docker-compose -p " ++ group_name a) ++ " " ++ file_arguments docs)
         ++ (if truthy (service a) then " start " ++ format_opt (service a)
             else " up -d"))
        (path_str (w_cwd w)) (Fore_GREEN ++ "Success!") w1
  end.
Proof.
  intros Ha Hd. pose proof (group_dir_abs H (group_name a) Ha) as Hg.
  unfold start. unfold bind at 1. unfold isdir.
  rewrite (resolve_abs _ [] _ Hg), Hd. cbn [negb].
  unfold bind at 1. unfold getcwd. unfold bind at 1. unfold chdir.
  rewrite (resolve_abs _ [] _ Hg), Hd.
  unfold bind at 1. rewrite get_compose_files_eq. cbv zeta.
  cbn [w_cwd w_fs set_cwd]. rewrite (resolve_abs _ [] _ Hg), Hd.
  unfold documents.
  destruct (filter _ _) as [|d docs]; [reflexivity|].
  cbn [is_one format_files]. destruct (truthy (service a)); reflexivity.
Qed.



(** X1.  The check that [start], [stop], [restart] and [cli] share: a
    group directory that does not exist, or holds no document, is answered
    with a message and the code 1, and no command is run. *)
Lemma lifecycle_precondition (H : host) (op : args -> M Z) (a : args)
    (w : world) :
  abs_host H ->
  In op [start H; stop H; restart H; cli H] ->
  let d := resolve [] (get_group_dir_path H (group_name a)) in
  (is_dir (w_fs w) d = false ->
   op a w = Ret 1 (add_event (Print (Fore_RED ++ "Group name is not valid")) w))
  /\ (is_dir (w_fs w) d = true -> documents H (group_name a) w = [] ->
      op a w
      = Ret 1 (add_event
                 (Print (Fore_RED ++ "Unable to find compose files." ++ NL
                         ++ " Please run parse command first!"))
                 (set_cwd d w))).
Proof.
  intros Ha Hop d. pose proof (group_dir_abs H (group_name a) Ha) as Hg.
  assert (Hops : op = start H \/ op = stop H \/ op = restart H \/ op = cli H).
  { cbn in Hop. intuition auto. }
  split.
  - intros Hd.
    destruct Hops as [-> | [-> | [-> | ->]]];
      unfold start, stop, restart, cli; unfold bind at 1; unfold isdir;
      rewrite (resolve_abs _ [] _ Hg); fold d; rewrite Hd; reflexivity.
  - intros Hd Hdocs. unfold documents in Hdocs. fold d in Hdocs.
    destruct Hops as [-> | [-> | [-> | ->]]];
      unfold start, stop, restart, cli; unfold bind at 1; unfold isdir;
      rewrite (resolve_abs _ [] _ Hg); fold d; rewrite Hd; cbn [negb];
      unfold bind at 1; unfold getcwd; unfold bind at 1; unfold chdir;
      rewrite (resolve_abs _ [] _ Hg); fold d; rewrite Hd;
      unfold bind at 1; rewrite get_compose_files_eq; cbv zeta;
      cbn [w_cwd w_fs set_cwd]; rewrite (resolve_abs _ [] _ Hg); fold d;
      rewrite Hd, Hdocs; reflexivity.
Qed.

(** C5 (the code departs from it).  [remove] makes no such check: for a
    group directory without documents it runs the engine, with [1] where
    the documents should be; for a group that does not exist it raises
    [OSError].  [start], on the same inputs, returns 1 and runs nothing. *)
Theorem remove_skips_precondition :
  commands (w_trace (outcome_world
     (remove Demo.host_ok (Demo.args_group "g1" None)
             (Demo.at_home Demo.unassembled_fs))))
  = ["docker-compose -p g1 1 rm --force --stop -v"]
  /\ remove Demo.host_ok (Demo.args_group "g0" None)
            (Demo.at_home Demo.installed)
     = Raise OSError (Demo.at_home Demo.installed)
  /\ (exists w',
        start Demo.host_ok (Demo.args_group "g1" None)
              (Demo.at_home Demo.unassembled_fs) = Ret 1 w'
        /\ commands (w_trace w') = [])
  /\ (exists w',
        start Demo.host_ok (Demo.args_group "g0" None)
              (Demo.at_home Demo.installed) = Ret 1 w'
        /\ commands (w_trace w') = []).
Proof.
  split; [vm_compute; reflexivity|].
  split; [vm_compute; reflexivity|].
  split; eexists; split; vm_compute; reflexivity.
Qed.

(** ** The environment manifest *)

Lemma assoc_dict_set_eq {V : Type} (k : string) (v : V) d :
  assoc k (dict_set k v d) = Some v.
Proof.
  induction d as [|[k' v'] d IH]; simpl.
  - rewrite String.eqb_refl. reflexivity.
  - destruct (String.eqb k' k) eqn:E; simpl; rewrite E; auto.
Qed.

Lemma assoc_dict_set_neq {V : Type} (k k0 : string) (v : V) d :
  k0 <> k -> assoc k0 (dict_set k v d) = assoc k0 d.
Proof.
  intros Hn. induction d as [|[k' v'] d IH]; simpl.
  - apply String.eqb_neq in Hn. rewrite String.eqb_sym, Hn. reflexivity.
  - destruct (String.eqb k' k) eqn:E; simpl.
    + apply String.eqb_eq in E. subst k'.
      assert (E' : String.eqb k k0 = false)
        by (apply String.eqb_neq; congruence).
      rewrite E'. reflexivity.
    + rewrite IH. reflexivity.
Qed.

Lemma assoc_in_keys {V : Type} (k : string) (d : list (string * V)) :
  In k (dict_keys d) <-> assoc k d <> None.
Proof.
  induction d as [|[k' v'] d IH]; simpl.
  - split; [tauto|congruence].
  - destruct (String.eqb_spec k' k) as [->|Hn].
    + split; [discriminate|auto].
    + rewrite <- IH. split; [intros [?|?]; [contradiction|assumption]|auto].
Qed.

Lemma dict_keys_set_present {V : Type} (k : string) (v : V) d :
  In k (dict_keys d) -> dict_keys (dict_set k v d) = dict_keys d.
Proof.
  induction d as [|[k' v'] d IH]; simpl; [tauto|].
  destruct (String.eqb_spec k' k) as [->|Hn]; simpl; [reflexivity|].
  intros [?|Hin]; [contradiction|]. rewrite (IH Hin). reflexivity.
Qed.

Lemma dict_keys_set_absent {V : Type} (k : string) (v : V) d :
  ~ In k (dict_keys d) -> dict_keys (dict_set k v d) = (dict_keys d ++ [k])%list.
Proof.
  induction d as [|[k' v'] d IH]; simpl; [reflexivity|].
  intros Hn. destruct (String.eqb_spec k' k) as [->|Hne]; [tauto|].
  simpl. rewrite IH by tauto. reflexivity.
Qed.

Lemma NoDup_dict_set {V : Type} (k : string) (v : V) d :
  NoDup (dict_keys d) -> NoDup (dict_keys (dict_set k v d)).
Proof.
  intros Hd. destruct (in_dec string_dec k (dict_keys d)) as [Hin|Hout].
  - rewrite dict_keys_set_present by assumption. exact Hd.
  - rewrite dict_keys_set_absent by assumption.
    apply NoDup_app; [exact Hd|repeat constructor; simpl; tauto|].
    intros x Hx [<-|[]]. contradiction.
Qed.

Lemma parse_env_spec (lines : list string) (d : pydict) (w : world) env w1 :
  parse_env lines d w = Ret env w1 ->
  w1 = w
  /\ (all_strings d -> all_strings env)
  /\ (NoDup (dict_keys d) -> NoDup (dict_keys env))
  /\ (forall k raw, assoc k env = Some (VStr raw) ->
        assoc k d = Some (VStr raw) \/ entry_of lines k raw).
Proof.
  revert d. induction lines as [|line lines IH]; intros d; simpl.
  - intros E. inversion E; subst. repeat split; auto.
  - destruct (nonempty (strip line)).
    + unfold bind at 1. unfold list_index at 1.
      destruct (nth_error (split_on "=" line) 0) as [key|] eqn:E0;
        [|discriminate].
      unfold ret at 1. unfold bind at 1. unfold list_index at 1.
      destruct (nth_error (split_on "=" line) 1) as [val|] eqn:E1;
        [|discriminate].
      unfold ret at 1. intros E. apply IH in E.
      destruct E as (-> & Hs & Hn & Hp). repeat split.
      * intros Hd. apply Hs. intros k v.
        destruct (string_dec k key) as [->|Hk].
        -- rewrite assoc_dict_set_eq. intros [= <-]. eauto.
        -- rewrite assoc_dict_set_neq by assumption. apply Hd.
      * intros Hd. apply Hn, NoDup_dict_set, Hd.
      * intros k raw Hk. destruct (Hp k raw Hk) as [Hd|(l & Hl & H0 & H1)].
        -- destruct (string_dec k key) as [->|Hne].
           ++ rewrite assoc_dict_set_eq in Hd. injection Hd as <-.
              right. exists line. simpl. auto.
           ++ rewrite assoc_dict_set_neq in Hd by assumption. auto.
        -- right. exists l. simpl. auto.
    + intros E. apply IH in E. destruct E as (-> & Hs & Hn & Hp).
      repeat split; auto.
      intros k raw Hk. destruct (Hp k raw Hk) as [Hd|(l & Hl & H0 & H1)];
        [auto|]. right. exists l. simpl. auto.
Qed.

Lemma parse_lists_spec (keys : list string) (d : pydict) (w : world) :
  NoDup keys ->
  (forall k, In k keys -> exists s, assoc k d = Some (VStr s)) ->
  exists d',
    parse_lists keys d w = Ret d' w
    /\ forall k,
        assoc k d' =
        match assoc k d with
        | Some (VStr raw) =>
            if in_dec string_dec k keys then Some (list_or_string k raw)
            else Some (VStr raw)
        | other => other
        end.
Proof.
  revert d. induction keys as [|key keys IH]; intros d Hnd Hk; simpl.
  - exists d. split; [reflexivity|]. intros k.
    destruct (assoc k d) as [[raw|l]|]; reflexivity.
  - inversion Hnd as [|? ? Hnotin Hnd']; subst.
    destruct (Hk key (or_introl eq_refl)) as [s Hs].
    destruct (endswith "_LIST" key) eqn:He.
    + rewrite Hs.
      destruct (IH (dict_set key (VList (split_on "," (slice_1_m1 s))) d) Hnd')
        as (d' & Hrun & Hd').
      { intros k Hin. destruct (Hk k (or_intror Hin)) as [s' Hs'].
        exists s'. rewrite assoc_dict_set_neq; [assumption|].
        intros ->. contradiction. }
      exists d'. split; [exact Hrun|]. intros k. rewrite Hd'.
      destruct (string_dec key k) as [<-|Hne].
      * rewrite assoc_dict_set_eq, Hs. unfold list_or_string. rewrite He.
        reflexivity.
      * rewrite assoc_dict_set_neq by congruence.
        destruct (assoc k d) as [[raw|l]|]; try reflexivity.
        destruct (in_dec string_dec k keys); reflexivity.
    + destruct (IH d Hnd') as (d' & Hrun & Hd').
      { intros k Hin. apply Hk. right. exact Hin. }
      exists d'. split; [exact Hrun|]. intros k. rewrite Hd'.
      destruct (string_dec key k) as [<-|Hne].
      * rewrite Hs. destruct (in_dec string_dec key keys); [contradiction|].
        unfold list_or_string. rewrite He. reflexivity.
      * destruct (assoc k d) as [[raw|l]|]; try reflexivity.
        destruct (in_dec string_dec k keys); reflexivity.
Qed.

Lemma drop_last_app_one (x : string) (c : ascii) :
  drop_last (x ++ String c "") = x.
Proof.
  induction x as [|a x IH]; [reflexivity|].
  cbn [append drop_last]. rewrite IH.
  destruct x; reflexivity.
Qed.

Lemma slice_brackets (x : string) : slice_1_m1 ("[" ++ x ++ "]") = x.
Proof. unfold slice_1_m1. cbn [append drop]. apply drop_last_app_one. Qed.

Lemma split_join (c : ascii) (items : list string) :
  items <> [] ->
  Forall (fun s => contains c s = false) items ->
  split_on c (join (String c "") items) = items.
Proof.
  intros Hne Hall. induction Hall as [|a items Ha Hall IH]; [congruence|].
  destruct items as [|b items].
  - cbn. apply split_on_absent, Ha.
  - change (join (String c "") (a :: b :: items))
      with (a ++ String c (join (String c "") (b :: items))).
    rewrite (split_on_first _ _ _ Ha). rewrite IH by discriminate.
    reflexivity.
Qed.

(** The assembly of a group whose manifest is there starts with these
    two loops. *)
Lemma load_env_dict_eq (H : host) (dir_path : string) (w : world)
    (c : content) :
  fs_lookup (w_fs w) (resolve (w_cwd w) (path_join dir_path "source.env"))
  = Some (File c) ->
  load_env_dict H dir_path w
  = bind (parse_env (split_ws (read_text H c)) [])
      (fun env_dict =>
         bind (parse_lists (dict_keys env_dict) env_dict)
              (fun env_dict => ret (dict_update env_dict (injected_paths H))))
      w.
Proof.
  intros Hf. unfold load_env_dict, GROUP_ENV_FILE. unfold bind at 1.
  unfold isfile. unfold is_file. rewrite Hf. cbn [negb]. unfold bind at 1.
  unfold ret at 1. unfold bind at 1. unfold open_r. rewrite Hf. reflexivity.
Qed.

(** Lines that do not name [key] leave its entry alone. *)
Lemma parse_env_keeps (key : string) (after : list string) (d : pydict)
    (w : world) env w1 :
  parse_env after d w = Ret env w1 ->
  (forall l, In l after -> nonempty (strip l) = true ->
             nth_error (split_on "=" l) 0 <> Some key) ->
  assoc key env = assoc key d.
Proof.
  revert d. induction after as [|l after IH]; intros d E Hk.
  - simpl in E. unfold ret in E. injection E as <- _. reflexivity.
  - cbn [parse_env] in E.
    destruct (nonempty (strip l)) eqn:Hl.
    + unfold bind at 1 in E. unfold list_index at 1 in E.
      destruct (nth_error (split_on "=" l) 0) as [k|] eqn:E0;
        [|discriminate].
      unfold ret at 1 in E. unfold bind at 1 in E.
      unfold list_index at 1 in E.
      destruct (nth_error (split_on "=" l) 1) as [v|] eqn:E1;
        [|discriminate].
      unfold ret at 1 in E.
      rewrite (IH _ E) by (intros l' Hin; apply Hk; right; exact Hin).
      apply assoc_dict_set_neq. intros ->.
      apply (Hk l (or_introl eq_refl) Hl). exact E0.
    + apply (IH _ E). intros l' Hin. apply Hk. right. exact Hin.
Qed.

(** The last line that names [key] gives the dictionary its value. *)
Lemma parse_env_last (key raw line : string) (before after : list string)
    (d : pydict) (w : world) env w1 :
  parse_env (before ++ line :: after) d w = Ret env w1 ->
  nonempty (strip line) = true ->
  nth_error (split_on "=" line) 0 = Some key ->
  nth_error (split_on "=" line) 1 = Some raw ->
  (forall l, In l after -> nonempty (strip l) = true ->
             nth_error (split_on "=" l) 0 <> Some key) ->
  assoc key env = Some (VStr raw).
Proof.
  intros E Hl H0 H1 Hafter. revert d E.
  induction before as [|b before IH]; intros d E.
  - cbn [app parse_env] in E. rewrite Hl in E.
    unfold bind at 1 in E. unfold list_index at 1 in E. rewrite H0 in E.
    unfold ret at 1 in E. unfold bind at 1 in E.
    unfold list_index at 1 in E. rewrite H1 in E. unfold ret at 1 in E.
    rewrite (parse_env_keeps key after _ w env w1 E Hafter).
    apply assoc_dict_set_eq.
  - cbn [app parse_env] in E.
    destruct (nonempty (strip b)).
    + unfold bind at 1 in E. unfold list_index at 1 in E.
      destruct (nth_error (split_on "=" b) 0) as [k|]; [|discriminate].
      unfold ret at 1 in E. unfold bind at 1 in E.
      unfold list_index at 1 in E.
      destruct (nth_error (split_on "=" b) 1) as [v|]; [|discriminate].
      unfold ret at 1 in E. apply (IH _ E).
    + apply (IH _ E).
Qed.

(** C6.  Every entry of the manifest reaches the dictionary: the last
    line that names a key gives the key its value.  Once the manifest is
    read into the dictionary, the loop over its keys returns, and it turns
    the value of every key that ends in [_LIST], and of no other key, into
    the list of the comma-separated fields between its first and last
    characters; a bracketed list [[a,b,c]] gives its items back in their
    order.  This dictionary, under the two paths of the script, is the
    one a group directory with this manifest is assembled from. *)
Theorem list_entries_are_parsed (lines : list string) (w : world) env w1 :
  parse_env lines [] w = Ret env w1 ->
  (exists env',
      parse_lists (dict_keys env) env w1 = Ret env' w1
      /\ (forall key,
          match assoc key env with
          | Some (VStr raw) =>
              entry_of lines key raw
              /\ assoc key env' = Some (list_or_string key raw)
          | Some (VList _) => False
          | None => assoc key env' = None
          end)
      /\ (forall before line after key raw,
          lines = (before ++ line :: after)%list ->
          nonempty (strip line) = true ->
          nth_error (split_on "=" line) 0 = Some key ->
          nth_error (split_on "=" line) 1 = Some raw ->
          (forall l, In l after -> nonempty (strip l) = true ->
                     nth_error (split_on "=" l) 0 <> Some key) ->
          assoc key env' = Some (list_or_string key raw))
      /\ (forall (H : host) (dir_path : string) (c : content),
          fs_lookup (w_fs w)
            (resolve (w_cwd w) (path_join dir_path "source.env"))
          = Some (File c) ->
          split_ws (read_text H c) = lines ->
          load_env_dict H dir_path w
          = Ret (dict_update env' (injected_paths H)) w))
  /\ (forall key raw, endswith "_LIST" key = false ->
        list_or_string key raw = VStr raw)
  /\ (forall key items,
        endswith "_LIST" key = true ->
        items <> [] ->
        Forall (fun s => contains "," s = false) items ->
        list_or_string key ("[" ++ join "," items ++ "]") = VList items).
Proof.
  intros E. pose proof E as Erun.
  apply parse_env_spec in E. destruct E as (-> & Hs & Hn & Hp).
  assert (Hall : all_strings env) by (apply Hs; intros k v; discriminate).
  assert (Hnd : NoDup (dict_keys env)) by (apply Hn; constructor).
  split; [|split].
  - destruct (parse_lists_spec (dict_keys env) env w Hnd) as (env' & Hrun & He).
    { intros k Hin. apply assoc_in_keys in Hin.
      destruct (assoc k env) as [v|] eqn:Ek; [|congruence].
      destruct (Hall k v Ek) as [s ->]. eauto. }
    exists env'. split; [exact Hrun|]. split; [|split].
    + intros key. rewrite He.
      destruct (assoc key env) as [[raw|l]|] eqn:Ek.
      * split.
        -- destruct (Hp key raw Ek) as [Hd|Hd]; [discriminate|exact Hd].
        -- destruct (in_dec string_dec key (dict_keys env)) as [|Hout];
             [reflexivity|].
           exfalso. apply Hout, assoc_in_keys. congruence.
      * destruct (Hall key _ Ek) as [s Hs']. discriminate.
      * reflexivity.
    + intros before line after key raw -> Hl H0 H1 Hafter.
      rewrite He.
      rewrite (parse_env_last key raw line before after [] w env w
                 Erun Hl H0 H1 Hafter).
      destruct (in_dec string_dec key (dict_keys env)) as [|Hout];
        [reflexivity|].
      exfalso. apply Hout, assoc_in_keys.
      rewrite (parse_env_last key raw line before after [] w env w
                 Erun Hl H0 H1 Hafter). discriminate.
    + intros H dir_path c Hfile Hlines.
      rewrite (load_env_dict_eq H dir_path w c Hfile), Hlines.
      unfold bind at 1. rewrite Erun. unfold bind at 1. rewrite Hrun.
      reflexivity.
  - intros key raw He. unfold list_or_string. rewrite He. reflexivity.
  - intros key items He Hne Hitems. unfold list_or_string. rewrite He.
    rewrite slice_brackets, split_join by assumption. reflexivity.
Qed.

Lemma list_entries_are_parsed_witness :
  exists env,
    parse_env ["DEV_LIST=[x]"; "DEV_LIST=[a,b,c]"; "X=1"] []
              (Demo.at_home [])
    = Ret env (Demo.at_home [])
    /\ exists env',
        parse_lists (dict_keys env) env (Demo.at_home [])
        = Ret env' (Demo.at_home [])
        /\ assoc "DEV_LIST" env' = Some (VList ["a"; "b"; "c"])
        /\ assoc "X" env' = Some (VStr "1").
Proof.
  eexists. split; [vm_compute; reflexivity|].
  destruct (list_entries_are_parsed
              ["DEV_LIST=[x]"; "DEV_LIST=[a,b,c]"; "X=1"]
              (Demo.at_home []) _ _ eq_refl)
    as ((env' & Hrun & _ & Hlast & _) & _ & _).
  exists env'. split; [exact Hrun|]. split.
  - apply (Hlast ["DEV_LIST=[x]"] "DEV_LIST=[a,b,c]" ["X=1"]
             "DEV_LIST" "[a,b,c]" eq_refl eq_refl eq_refl eq_refl).
    intros l [<-|[]] _. discriminate.
  - apply (Hlast ["DEV_LIST=[x]"; "DEV_LIST=[a,b,c]"] "X=1" []
             "X" "1" eq_refl eq_refl eq_refl eq_refl).
    intros l [].
Defined.

(** ** The output root *)

Lemma is_prefix_refl (p : path) : is_prefix p p = true.
Proof. induction p; simpl; [reflexivity|]. rewrite String.eqb_refl. auto. Qed.

Lemma is_prefix_app (d x : path) : is_prefix d (d ++ x)%list = true.
Proof. induction d; simpl; [reflexivity|]. rewrite String.eqb_refl. auto. Qed.

Lemma is_prefix_antisym (p q : path) :
  is_prefix p q = true -> is_prefix q p = true -> p = q.
Proof.
  revert q. induction p as [|x p IH]; destruct q as [|y q]; simpl;
    try congruence.
  rewrite !andb_true_iff, String.eqb_eq. intros [-> Hp] [_ Hq].
  f_equal. auto.
Qed.

Lemma child_of_under (d q : path) (n : string) :
  child_of d q = Some n -> is_prefix d q = true /\ q <> d.
Proof.
  revert q. induction d as [|x d IH]; destruct q as [|y q]; simpl;
    try discriminate.
  - intros _. split; [reflexivity|discriminate].
  - destruct (String.eqb x y) eqn:E; [|discriminate].
    intros Hc. destruct (IH _ Hc) as [Hp Hn]. split; [exact Hp|].
    intros [= _ Hq]. contradiction.
Qed.

Lemma fs_find_in (fs : fsT) (q : path) (n : node) :
  In (q, n) fs -> fs_find fs q <> None.
Proof.
  induction fs as [|[r m] fs IH]; simpl; [tauto|].
  intros [[= -> ->]|Hin].
  - rewrite path_eqb_refl. discriminate.
  - destruct (path_eqb r q); [discriminate|auto].
Qed.

Lemma fs_children_emptied (k : path) (fs : fsT) :
  emptied k fs -> fs_children k fs = [].
Proof.
  intros He.
  assert (Hall : forall q n, In (q, n) fs -> child_of k q = None).
  { intros q n Hin. destruct (child_of k q) as [c|] eqn:E; [|reflexivity].
    apply child_of_under in E. destruct E as [Hp Hn].
    exfalso. apply (fs_find_in _ _ _ Hin).
    specialize (He q Hp Hn). destruct q; [discriminate|exact He]. }
  clear He. induction fs as [|[q n] fs IH]; simpl; [reflexivity|].
  rewrite (Hall q n (or_introl eq_refl)). apply IH.
  intros q' n' Hin. apply (Hall q' n'). right. exact Hin.
Qed.

Lemma fs_find_rmtree_under (k p : path) (fs : fsT) :
  is_prefix k p = true -> fs_find (fs_rmtree k fs) p = None.
Proof.
  intros Hp. induction fs as [|[q n] fs IH]; simpl; [reflexivity|].
  destruct (is_prefix k q) eqn:E; simpl; [exact IH|].
  destruct (path_eqb q p) eqn:Eq; [|exact IH].
  apply path_eqb_eq in Eq. congruence.
Qed.

Lemma mkdirs_from_outside (todo : list string) (done : path) (fs fs' : fsT) :
  mkdirs_from done todo fs = Some fs' ->
  forall p, is_prefix p (done ++ todo)%list = false ->
            fs_lookup fs' p = fs_lookup fs p.
Proof.
  revert done fs. induction todo as [|c todo IH]; intros done fs; simpl.
  - intros [= <-] p _. reflexivity.
  - intros E p Hp.
    assert (Ht : ((done ++ [c]) ++ todo = done ++ c :: todo)%list)
      by (rewrite <- app_assoc; reflexivity).
    destruct (fs_lookup fs (done ++ [c])%list) as [[|f]|] eqn:El; [|discriminate|].
    + eapply IH; [exact E|]. rewrite Ht. exact Hp.
    + rewrite (IH _ _ E p) by (rewrite Ht; exact Hp).
      apply fs_lookup_set_neq. intros ->.
      rewrite <- Ht, is_prefix_app in Hp. discriminate.
Qed.

Lemma mkdirs_from_made (todo : list string) (done : path) (fs fs' : fsT) :
  mkdirs_from done todo fs = Some fs' ->
  todo <> [] -> is_dir fs' (done ++ todo)%list = true.
Proof.
  revert done fs. induction todo as [|c todo IH]; intros done fs; simpl;
    [congruence|].
  intros E _.
  assert (Ht : ((done ++ [c]) ++ todo = done ++ c :: todo)%list)
    by (rewrite <- app_assoc; reflexivity).
  destruct todo as [|c' todo].
  - simpl in E. unfold is_dir.
    destruct (fs_lookup fs (done ++ [c])%list) as [[|f]|] eqn:El;
      inversion E; subst.
    + rewrite El. reflexivity.
    + rewrite fs_lookup_set_eq by apply app_one_not_nil. reflexivity.
  - rewrite <- Ht.
    destruct (fs_lookup fs (done ++ [c])%list) as [[|f]|] eqn:El; [|discriminate|];
      (eapply IH; [exact E|discriminate]).
Qed.

Lemma emptied_rmtree (k : path) (fs : fsT) : emptied k (fs_rmtree k fs).
Proof.
  intros p Hp Hn. destruct p; [|apply fs_find_rmtree_under, Hp].
  destruct k; [congruence|discriminate].
Qed.

(** A root that was a directory comes out of the reset as an empty
    directory; the reset prints nothing and runs nothing. *)
Lemma reset_output_spec (root : string) (w : world) :
  let k := resolve (w_cwd w) root in
  k <> [] ->
  is_dir (w_fs w) k = true ->
  exists w1,
    w_trace w1 = w_trace w /\ w_cwd w1 = w_cwd w /\ emptied k (w_fs w1)
    /\ (parse_reset_output root w = Raise OSError w1
        \/ (parse_reset_output root w = Ret tt w1
            /\ is_dir (w_fs w1) k = true)).
Proof.
  intros k Hk Hd. unfold parse_reset_output, bind, isdir. fold k.
  rewrite Hd. cbn [negb]. unfold rmtree. fold k. rewrite Hd.
  unfold makedirs. cbn [w_cwd w_fs set_fs]. fold k.
  assert (Hgone : fs_lookup (fs_rmtree k (w_fs w)) k = None).
  { destruct k; [congruence|]. apply fs_find_rmtree_under, is_prefix_refl. }
  rewrite Hgone.
  destruct (mkdirs_from [] k (fs_rmtree k (w_fs w))) as [fs'|] eqn:E.
  - exists (set_fs fs' (set_fs (fs_rmtree k (w_fs w)) w)).
    repeat split.
    + intros p Hp Hn. cbn [w_fs set_fs].
      rewrite (mkdirs_from_outside _ _ _ _ E).
      * apply emptied_rmtree; assumption.
      * cbn [app]. destruct (is_prefix p k) eqn:Epk; [|reflexivity].
        exfalso. apply Hn. apply is_prefix_antisym; assumption.
    + right. split; [reflexivity|]. cbn [w_fs set_fs].
      apply (mkdirs_from_made _ _ _ _ E Hk).
  - exists (set_fs (fs_rmtree k (w_fs w)) w). repeat split.
    + apply emptied_rmtree.
    + left. reflexivity.
Qed.

Lemma output_root_not_root (H : host) (c : path) : resolve c (GROUP_DIR H) <> [].
Proof.
  unfold GROUP_DIR. rewrite resolve_join_name.
  - apply app_one_not_nil.
  - unfold plain_name. repeat split; try reflexivity; discriminate.
Qed.

Lemma locate_input_pure (H : host) (a : args) (w : world) r w' :
  parse_locate_input H a w = Ret r w' -> w' = w.
Proof.
  unfold parse_locate_input, bind, getcwd, isfile, isdir, ret.
  repeat match goal with
         | |- context [if ?b then _ else _] => destruct b
         end; cbn; intros E; inversion E; reflexivity.
Qed.

(** C10 (as amended).  An invocation of [parse] whose input is located,
    where the output root is a directory: before anything is printed or
    run, everything below the output root is deleted; [parse] then either
    raises because the root cannot be made again, or goes on from an empty
    root to launch the helper container. *)
Theorem parse_resets_output_root (H : host) (fuel : nat) (a : args)
    (w w0 : world) (input_file_path input_dir : string) :
  parse_locate_input H a w = Ret (None, input_file_path, input_dir) w0 ->
  let root := resolve (w_cwd w) (GROUP_DIR H) in
  is_dir (w_fs w) root = true ->
  exists w1,
    w_trace w1 = w_trace w
    /\ emptied root (w_fs w1)
    /\ (parse H fuel a w = Raise OSError w1
        \/ (is_dir (w_fs w1) root = true
            /\ fs_children root (w_fs w1) = []
            /\ parse H fuel a w
               = parse_launch H fuel a input_file_path input_dir w1)).
Proof.
  intros E root Hd. pose proof (locate_input_pure _ _ _ _ _ E) as ->.
  destruct (reset_output_spec (GROUP_DIR H) w (output_root_not_root H _) Hd)
    as (w1 & Ht & _ & He & Hr).
  fold root in He, Hr. exists w1. split; [exact Ht|]. split; [exact He|].
  assert (Hp : parse H fuel a w
               = match parse_reset_output (GROUP_DIR H) w with
                 | Ret _ w' =>
                     parse_launch H fuel a input_file_path input_dir w'
                 | Raise e w' => Raise e w'
                 | OutOfFuel w' => OutOfFuel w'
                 end).
  { unfold parse. unfold bind at 1. rewrite E. reflexivity. }
  rewrite Hp.
  destruct Hr as [Hr|[Hr Hd1]]; rewrite Hr; [left; reflexivity|].
  right. split; [exact Hd1|]. split; [|reflexivity].
  apply fs_children_emptied, He.
Qed.

Lemma parse_resets_output_root_witness :
  exists w1,
    w_trace w1 = []
    /\ emptied (resolve [] "/opt/jfit/etc/core_output") (w_fs w1)
    /\ (parse Demo.host_ko 5 (Demo.args_parse "in.json" "dg")
              (Demo.at_home Demo.parse_fs) = Raise OSError w1
        \/ (is_dir (w_fs w1) (resolve [] "/opt/jfit/etc/core_output") = true
            /\ fs_children (resolve [] "/opt/jfit/etc/core_output") (w_fs w1)
               = []
            /\ parse Demo.host_ko 5 (Demo.args_parse "in.json" "dg")
                     (Demo.at_home Demo.parse_fs)
               = parse_launch Demo.host_ko 5 (Demo.args_parse "in.json" "dg")
                   "/home/in.json" "/opt/jfit/input" w1)).
Proof.
  exact (parse_resets_output_root Demo.host_ko 5
           (Demo.args_parse "in.json" "dg") (Demo.at_home Demo.parse_fs)
           (Demo.at_home Demo.parse_fs) "/home/in.json" "/opt/jfit/input"
           eq_refl eq_refl).
Defined.

(** C10, as stated, fails: an invocation whose input file is not found
    returns 1 and leaves the output root, and the documents assembled
    before, as they were. *)
Lemma parse_rejected_keeps_output :
  parse Demo.host_ok 5 (Demo.args_parse "missing.json" "dg")
        (Demo.at_home Demo.parse_fs)
  = Ret 1 (add_event
             (Print (Fore_RED ++ "Unable to locate file missing.json"))
             (Demo.at_home Demo.parse_fs))
  /\ fs_lookup Demo.parse_fs
       (resolve [] "/opt/jfit/etc/core_output/g1/jfit_re.yaml")
     = Some (File (Text "re")).
Proof. split; vm_compute; reflexivity. Qed.

(** An invocation whose input is found, and whose helper container the
    engine then refuses to run: it returns the engine's code, and the
    documents assembled before are gone. *)
Example parse_failed_destroys_documents :
  exists w',
    parse Demo.host_ko 5 (Demo.args_parse "in.json" "dg")
          (Demo.at_home Demo.parse_fs) = Ret 1 w'
    /\ fs_lookup (w_fs w')
         (resolve [] "/opt/jfit/etc/core_output/g1/jfit_re.yaml") = None
    /\ fs_children (resolve [] "/opt/jfit/etc/core_output") (w_fs w') = [].
Proof. eexists. repeat split; vm_compute; reflexivity. Qed.

(** ** Failures of a role, failures of a group *)

Lemma for_roles_break (body : string -> M flow) (pre post : list string)
    (k err : string) (w w1 w2 : world) :
  for_roles body pre w = Ret None w1 ->
  body k w1 = Ret (Break err) w2 ->
  for_roles body (pre ++ k :: post) w = Ret (Some err) w2.
Proof.
  revert w. induction pre as [|x pre IH]; intros w; simpl.
  - intros [= <-] Hk. unfold bind. rewrite Hk. reflexivity.
  - unfold bind. destruct (body x w) as [[|e] w'|e w'|w'];
      try discriminate.
    apply IH.
Qed.

Lemma wp_split_tag (tag : string) Q X (w : world) :
  (forall r, Q r w) -> (forall e, X e w) -> wp (split_tag tag) Q X w.
Proof.
  intros HQ HX. unfold split_tag, wp, bind, list_index.
  destruct (nth_error (split_on ":" tag) 0); [|apply HX].
  cbn [ret].
  destruct (nth_error (split_on ":" tag) 1); [apply HQ|apply HX].
Qed.

(** A turn of the loop that breaks changes no path but the transient
    manifest. *)
Lemma process_role_frame (H : host) (dir_path loc : string) (env : pydict)
    (service_type : string) (w : world) :
  abs_host H ->
  wp (process_role H dir_path loc env service_type)
     (fun f w' =>
        f = Continue \/ same_except (manifest_tmp H) (w_fs w) (w_fs w'))
     (fun _ _ => True) w.
Proof.
  intros Ha. unfold process_role.
  destruct (negb _); [right; apply same_except_refl|].
  apply wp_bind. destruct (assoc service_type env) as [impl|]; [|exact I].
  unfold ret at 1, wp at 1.
  apply wp_bind. unfold isfile at 1, wp at 1.
  destruct (negb _); [right; apply same_except_refl|].
  apply wp_bind. eapply wp_conseq; [apply (gct_spec H _ w Ha)| |intros; exact I].
  intros tags w1 (_ & Hsame & _). cbv beta.
  destruct tags; try exact I; [right; exact Hsame|].
  apply wp_bind, wp_split_tag; [intros [service version]|intros; exact I].
  apply wp_bind. unfold isfile at 1, wp at 1.
  destruct (negb _); [right; exact Hsame|].
  apply wp_bind. unfold open_r at 1, wp at 1.
  destruct (fs_lookup _ _) as [[|fob]|]; try exact I.
  destruct (negb _); [right; exact Hsame|].
  apply wp_bind. unfold isfile at 1, wp at 1.
  apply wp_bind. destruct (jinja2_render H _ _); [|exact I].
  unfold ret at 1, wp at 1.
  apply wp_bind. unfold write_file at 1, wp at 1.
  destruct (writable _ _); [|exact I]. left. reflexivity.
Qed.

Lemma assemble_groups_all (H : host) (groups : list string) (w w' : world)
    (codes : list Z) :
  assembled H groups w codes w' ->
  mapM (_create_compose_file H) groups w = Ret codes w'.
Proof.
  induction 1 as [w|g gs w w1 w2 code codes Hg Hgs IH]; simpl; [reflexivity|].
  unfold bind at 1. rewrite Hg. unfold bind at 1. rewrite IH. reflexivity.
Qed.




(** The same happens to a batch whose first group has no manifest. *)
Example batch_aborted_by_missing_manifest :
  exists w',
    parse_assemble Demo.host_ok "/opt/jfit/etc/core_output"
      (Demo.at_home Demo.no_manifest_fs) = Raise IOError w'
    /\ fs_lookup (w_fs w')
         (resolve [] "/opt/jfit/etc/core_output/g1/jfit_re.yaml") = None.
Proof. eexists. split; vm_compute; reflexivity. Qed.

(** ** Traces *)

Lemma extends_same (P : event -> Prop) (w w' : world) :
  w_trace w' = w_trace w -> extends P w w'.
Proof. intros E. exists []. split; [exact E|constructor]. Qed.

Lemma extends_refl (P : event -> Prop) (w : world) : extends P w w.
Proof. apply extends_same. reflexivity. Qed.

Lemma extends_trans (P : event -> Prop) (w1 w2 w3 : world) :
  extends P w1 w2 -> extends P w2 w3 -> extends P w1 w3.
Proof.
  intros (e1 & E1 & F1) (e2 & E2 & F2). exists (e2 ++ e1)%list. split.
  - rewrite E2, E1, app_assoc. reflexivity.
  - apply Forall_app. split; assumption.
Qed.

Lemma extends_add (P : event -> Prop) (e : event) (w w' : world) :
  P e -> w_trace w' = e :: w_trace w -> extends P w w'.
Proof. intros He E. exists [e]. split; [exact E|repeat constructor; exact He]. Qed.

Lemma adds_only_ret {A : Type} (P : event -> Prop) (a : A) :
  adds_only P (ret a).
Proof. intros w. apply extends_refl. Qed.

Lemma adds_only_raise {A : Type} (P : event -> Prop) (e : exn) :
  adds_only P (@raise A e).
Proof. intros w. apply extends_refl. Qed.

Lemma adds_only_bind {A B : Type} (P : event -> Prop) (m : M A) (k : A -> M B) :
  adds_only P m -> (forall a, adds_only P (k a)) -> adds_only P (bind m k).
Proof.
  intros Hm Hk w. specialize (Hm w). unfold bind.
  destruct (m w) as [a w1|e w1|w1]; cbn in *; try exact Hm.
  eapply extends_trans; [exact Hm|apply Hk].
Qed.

Lemma adds_only_try_except {A : Type} (P : event -> Prop) (m : M A)
    (h : Z -> M A) :
  adds_only P m -> (forall rc, adds_only P (h rc)) ->
  adds_only P (try_except m h).
Proof.
  intros Hm Hh w. specialize (Hm w). unfold try_except.
  destruct (m w) as [a w1|e w1|w1]; cbn in *; try exact Hm.
  destruct e; try exact Hm.
  eapply extends_trans; [exact Hm|apply Hh].
Qed.

(** The primitives that leave the trace alone. *)
Ltac silent :=
  intros ?w; cbv beta delta [getcwd chdir isfile isdir listdir open_r
    write_file os_remove rmtree makedirs realpath json_load json_index0
    json_getitem list_index ret raise];
  cbv zeta;
  repeat match goal with
         | |- context [match ?x with _ => _ end] => destruct x
         end;
  apply extends_same; reflexivity.

Lemma adds_only_getcwd P : adds_only P getcwd.
Proof. silent. Qed.
Lemma adds_only_chdir P p : adds_only P (chdir p).
Proof. silent. Qed.
Lemma adds_only_isfile P p : adds_only P (isfile p).
Proof. silent. Qed.
Lemma adds_only_isdir P p : adds_only P (isdir p).
Proof. silent. Qed.
Lemma adds_only_listdir P p : adds_only P (listdir p).
Proof. silent. Qed.
Lemma adds_only_open_r P p : adds_only P (open_r p).
Proof. silent. Qed.
Lemma adds_only_write_file P p t : adds_only P (write_file p t).
Proof. silent. Qed.
Lemma adds_only_os_remove P p : adds_only P (os_remove p).
Proof. silent. Qed.
Lemma adds_only_rmtree P p : adds_only P (rmtree p).
Proof. silent. Qed.
Lemma adds_only_makedirs P p : adds_only P (makedirs p).
Proof. silent. Qed.
Lemma adds_only_realpath P p : adds_only P (realpath p).
Proof. silent. Qed.
Lemma adds_only_json_load P c : adds_only P (json_load c).
Proof. silent. Qed.
Lemma adds_only_json_index0 P v : adds_only P (json_index0 v).
Proof. silent. Qed.
Lemma adds_only_json_getitem P v k : adds_only P (json_getitem v k).
Proof. silent. Qed.
Lemma adds_only_list_index {A : Type} P (l : list A) i :
  adds_only P (list_index l i).
Proof. silent. Qed.

Lemma adds_only_print (P : event -> Prop) (line : string) :
  P (Print line) -> adds_only P (print line).
Proof. intros Hp w. eapply extends_add; [exact Hp|reflexivity]. Qed.

Lemma adds_only_sleep (P : event -> Prop) (secs : Z) :
  P (Sleep secs) -> adds_only P (sleep secs).
Proof. intros Hp w. eapply extends_add; [exact Hp|reflexivity]. Qed.

Lemma adds_only_spawn (P : event -> Prop) (run : proc) (c : string) :
  (forall rc out, P (Exec c rc out)) -> adds_only P (spawn run c).
Proof.
  intros Hp w. unfold spawn. destruct (run w) as [[rc out] fs'].
  eapply extends_add; [apply Hp|reflexivity].
Qed.

Create HintDb quiet.

#[local] Hint Resolve adds_only_ret adds_only_raise adds_only_getcwd
  adds_only_chdir adds_only_isfile adds_only_isdir adds_only_listdir
  adds_only_open_r adds_only_write_file adds_only_os_remove adds_only_rmtree
  adds_only_makedirs adds_only_realpath adds_only_json_load
  adds_only_json_index0 adds_only_json_getitem adds_only_list_index : quiet.

(** Steps through a computation whose parts are known to add only [P]. *)
Ltac quiet :=
  repeat match goal with
         | |- adds_only _ (bind _ _) => apply adds_only_bind; [|intros]
         | |- adds_only _ (try_except _ _) =>
             apply adds_only_try_except; [|intros]
         | |- adds_only _ (print _) => apply adds_only_print; exact I
         | |- adds_only _ (if ?b then _ else _) => destruct b
         | |- adds_only _ (let '(_, _) := ?x in _) => destruct x
         | |- adds_only _ (match ?x with _ => _ end) => destruct x
         | |- adds_only _ _ => solve [auto with quiet]
         end.

Lemma benign_execute (run : proc) (c : string) :
  is_remove c = false -> is_status c = false ->
  adds_only benign (execute run c).
Proof.
  intros Hr Hs. unfold execute. quiet.
  apply adds_only_spawn. intros; split; assumption.
Qed.

Lemma benign_get_container_tags (H : host) (p : string) :
  adds_only benign (_get_container_tags H p).
Proof.
  unfold _get_container_tags. quiet.
  apply benign_execute; reflexivity.
Qed.

#[local] Hint Resolve benign_get_container_tags : quiet.

Lemma benign_split_tag (tag : string) : adds_only benign (split_tag tag).
Proof. unfold split_tag. quiet. Qed.

#[local] Hint Resolve benign_split_tag : quiet.

Lemma benign_process_role (H : host) dir_path loc env service_type :
  adds_only benign (process_role H dir_path loc env service_type).
Proof. unfold process_role. quiet. Qed.

Lemma benign_for_roles (body : string -> M flow) (keys : list string) :
  (forall k, adds_only benign (body k)) -> adds_only benign (for_roles body keys).
Proof. intros Hb. induction keys; simpl; quiet. Qed.

Lemma benign_parse_env (lines : list string) (d : pydict) :
  adds_only benign (parse_env lines d).
Proof. revert d. induction lines; intros d; simpl; quiet. Qed.

Lemma benign_parse_lists (keys : list string) (d : pydict) :
  adds_only benign (parse_lists keys d).
Proof. revert d. induction keys; intros d; simpl; quiet. Qed.

#[local] Hint Resolve benign_parse_env benign_parse_lists : quiet.

Lemma benign_create_compose_file (H : host) (dir_path : string) :
  adds_only benign (_create_compose_file H dir_path).
Proof.
  unfold _create_compose_file, _create_compose_file_in, load_env_dict. quiet.
  apply benign_for_roles. intros k. apply benign_process_role.
Qed.

Lemma benign_mapM {A B : Type} (f : A -> M B) (l : list A) :
  (forall x, adds_only benign (f x)) -> adds_only benign (mapM f l).
Proof. intros Hf. induction l; simpl; quiet. Qed.

Lemma benign_filterM {A : Type} (f : A -> M bool) (l : list A) :
  (forall x, adds_only benign (f x)) -> adds_only benign (filterM f l).
Proof. intros Hf. induction l; simpl; quiet. Qed.

Lemma benign_parse_assemble (H : host) (output_folder : string) :
  adds_only benign (parse_assemble H output_folder).
Proof.
  unfold parse_assemble, assemble_groups. quiet.
  - apply benign_filterM. intros x. quiet.
  - apply benign_mapM. intros x. apply benign_create_compose_file.
Qed.

Lemma benign_locate_input (H : host) (a : args) :
  adds_only benign (parse_locate_input H a).
Proof. unfold parse_locate_input. quiet. Qed.

Lemma benign_reset_output (root : string) :
  adds_only benign (parse_reset_output root).
Proof. unfold parse_reset_output. quiet. Qed.

(** ** The helper container *)

Lemma paced_after_any (later : option event) (acts : list event) :
  paced_after None acts -> paced_after later acts.
Proof.
  destruct acts as [|e rest]; simpl; [trivial|].
  intros [Hh Hr]. split; [|exact Hr].
  intros Ha. specialize (Hh Ha). discriminate.
Qed.

Lemma protocol_print (line : string) (tr : list event) :
  protocol tr -> protocol (Print line :: tr).
Proof. exact (fun p => p). Qed.

Lemma protocol_sleep (secs : Z) (tr : list event) :
  protocol tr -> protocol (Sleep secs :: tr).
Proof.
  intros [Hg Hp]. split; simpl.
  - split; [exact I|exact Hg].
  - split; [discriminate|]. apply paced_after_any, Hp.
Qed.

(** A command that is not an answered poll, and is guarded if it is a
    removal, keeps the protocol. *)
Lemma protocol_exec (c : string) (rc : Z) (out : string) (tr : list event) :
  (is_remove c = true -> polled_exited (actions tr)) ->
  answered_poll (Exec c rc out) = false ->
  protocol tr -> protocol (Exec c rc out :: tr).
Proof.
  intros Hr Ha [Hg Hp]. split; simpl.
  - split; [exact Hr|exact Hg].
  - split; [simpl in Ha; rewrite Ha; discriminate|].
    apply paced_after_any, Hp.
Qed.

Lemma protocol_benign (e : event) (tr : list event) :
  benign e -> protocol tr -> protocol (e :: tr).
Proof.
  destruct e as [line|c rc out|secs]; simpl.
  - intros _. apply protocol_print.
  - intros [Hr Hs]. apply protocol_exec.
    + rewrite Hr. discriminate.
    + simpl. rewrite Hs. reflexivity.
  - intros _. apply protocol_sleep.
Qed.

Lemma protocol_extends (w w' : world) :
  extends benign w w' -> protocol (w_trace w) -> protocol (w_trace w').
Proof.
  intros (evs & -> & Hall) Hp. induction Hall as [|e evs He Hall IH]; simpl.
  - exact Hp.
  - apply protocol_benign; assumption.
Qed.

Lemma keeps_benign {A : Type} (m : M A) :
  adds_only benign m -> keeps protocol m.
Proof. intros Hm w. apply protocol_extends, Hm. Qed.

Lemma keeps_bind {A B : Type} (I : list event -> Prop) (m : M A)
    (k : A -> M B) :
  keeps I m -> (forall a, keeps I (k a)) -> keeps I (bind m k).
Proof.
  intros Hm Hk w Hw. specialize (Hm w Hw). unfold bind.
  destruct (m w) as [a w1|e w1|w1]; cbn in *; try exact Hm.
  apply Hk, Hm.
Qed.

Lemma keeps_try_except {A : Type} (I : list event -> Prop) (m : M A)
    (h : Z -> M A) :
  keeps I m -> (forall rc, keeps I (h rc)) -> keeps I (try_except m h).
Proof.
  intros Hm Hh w Hw. specialize (Hm w Hw). unfold try_except.
  destruct (m w) as [a w1|e w1|w1]; cbn in *; try exact Hm.
  destruct e; try exact Hm. apply Hh, Hm.
Qed.

(** The polling loop: it keeps the protocol, and when it returns, the
    status it started from was ['exited'] or the latest poll said so. *)
Lemma poll_status_spec (H : host) (fuel : nat) (cmd status : string)
    (w : world) :
  is_status cmd = true -> is_remove cmd = false ->
  protocol (w_trace w) ->
  match poll_status H fuel cmd status w with
  | Ret _ w' =>
      protocol (w_trace w')
      /\ ((status = "exited" /\ w' = w) \/ polled_exited (actions (w_trace w')))
  | Raise _ w' => protocol (w_trace w')
  | OutOfFuel w' => protocol (w_trace w')
  end.
Proof.
  intros Hs Hr. revert status w.
  induction fuel as [|fuel IH]; intros status w Hp; simpl.
  - destruct (String.eqb_spec status "exited"); cbn; auto.
  - destruct (String.eqb_spec status "exited") as [->|Hne]; [cbn; auto|].
    unfold bind at 1. rewrite execute_eq. cbv zeta. unfold docker.
    destruct (engine H _ _ cmd) as [[rc out] fs'].
    destruct (Z.eqb_spec rc 0) as [->|Hrc].
    + unfold bind at 1. unfold sleep.
      set (w3 := add_event (Sleep 5) _).
      assert (Hp3 : protocol (w_trace w3)).
      { subst w3. cbn [w_trace add_event set_fs]. destruct Hp as [Hg Hpc].
        split; simpl.
        - repeat split; auto. rewrite Hr. discriminate.
        - repeat split; try discriminate. apply paced_after_any, Hpc. }
      specialize (IH (strip out) w3 Hp3).
      destruct (poll_status H fuel cmd (strip out) w3) as [u w'|e w'|w'];
        auto.
      destruct IH as [Hp' [[He ->]|Hx]]; split; auto.
      right. subst w3. cbn. auto.
    + cbn [w_trace add_event set_fs]. apply protocol_print.
      apply protocol_exec.
      * rewrite Hr. discriminate.
      * simpl. rewrite Hs. simpl. apply Z.eqb_neq, Hrc.
      * apply protocol_print, Hp.
Qed.

Lemma keeps_run_helper (H : host) (fuel : nat) (dpc : string) :
  is_remove dpc = false -> is_status dpc = false ->
  keeps protocol (run_helper H fuel dpc).
Proof.
  intros Hr Hs w Hp. unfold run_helper. unfold bind at 1.
  pose proof (benign_execute (docker H dpc) dpc Hr Hs w) as Hx.
  apply protocol_extends in Hx; [|exact Hp].
  destruct (execute (docker H dpc) dpc w) as [id w1|e w1|w1]; cbn in Hx;
    try exact Hx.
  unfold bind at 1.
  pose proof (poll_status_spec H fuel (status_command_of id) "" w1
                eq_refl eq_refl Hx) as Hpoll.
  destruct (poll_status H fuel (status_command_of id) "" w1)
    as [u w2|e w2|w2]; try exact Hpoll.
  destruct Hpoll as [Hp2 [[Hne _]|Hex]]; [discriminate|].
  unfold bind at 1. rewrite execute_eq. cbv zeta. unfold docker.
  destruct (engine H _ _ _) as [[rc out] fs'].
  assert (Hrm : protocol (Exec ("docker rm -f " ++ id) rc out
                          :: Print (Fore_CYAN ++ "docker rm -f " ++ id)
                          :: w_trace w2)).
  { apply protocol_exec; [intros _; exact Hex|reflexivity|].
    apply protocol_print, Hp2. }
  destruct (rc =? 0); cbn; [exact Hrm|apply protocol_print, Hrm].
Qed.

Lemma keeps_parse (H : host) (fuel : nat) (a : args) :
  keeps protocol (parse H fuel a).
Proof.
  unfold parse. apply keeps_bind.
  { apply keeps_benign, benign_locate_input. }
  intros [[[err|] ifp] idir].
  { apply keeps_benign. quiet. }
  unfold parse_located. apply keeps_bind.
  { apply keeps_benign, benign_reset_output. }
  intros _. unfold parse_launch. apply keeps_bind.
  { apply keeps_benign, benign_get_container_tags. }
  intros tags. apply keeps_bind.
  { apply keeps_benign. quiet. }
  intros output_mount. apply keeps_bind.
  { apply keeps_try_except.
    - apply keeps_run_helper; reflexivity.
    - intros rc. apply keeps_benign. quiet. }
  intros ret_code. destruct (negb (ret_code =? 0)).
  - apply keeps_benign. quiet.
  - apply keeps_benign, benign_parse_assemble.
Qed.

(** With an engine that never answers ['exited'], the loop is still
    polling when the fuel runs out, whatever the fuel. *)
Lemma poll_status_never_returns (H : host) (cmd : string) :
  never_exited H ->
  forall fuel status w, status <> "exited" ->
  exists w',
    poll_status H fuel cmd status w = OutOfFuel w'
    /\ commands (w_trace w') = (commands (w_trace w) ++ repeat cmd fuel)%list.
Proof.
  intros Hnever. induction fuel as [|fuel IH]; intros status w Hne; simpl.
  - apply String.eqb_neq in Hne. rewrite Hne. exists w. split; [reflexivity|].
    rewrite app_nil_r. reflexivity.
  - pose proof Hne as Hne'. apply String.eqb_neq in Hne'. rewrite Hne'.
    unfold bind at 1. rewrite execute_eq. cbv zeta. unfold docker.
    destruct (Hnever (w_trace (add_event (Print (Fore_CYAN ++ cmd)) w))
                     (w_fs (add_event (Print (Fore_CYAN ++ cmd)) w)) cmd)
      as (out & fs' & E & Hout).
    rewrite E. cbn [Z.eqb]. unfold bind at 1. unfold sleep.
    destruct (IH (strip out)
                 (add_event (Sleep 5)
                    (add_event (Exec cmd 0 out)
                       (set_fs fs' (add_event (Print (Fore_CYAN ++ cmd)) w))))
                 Hout) as (w' & Hrun & Hc).
    exists w'. split; [exact Hrun|]. rewrite Hc. cbn.
    rewrite <- app_assoc. reflexivity.
Qed.



(** With enough fuel the wait ends: under this engine the third poll
    answers ['exited'], the helper is removed, and the group it left is
    assembled. *)
Example helper_exits_at_third_poll :
  exists w',
    parse Demo.host_scripted 10 (Demo.args_parse "in.json" "dg")
          (Demo.at_home Demo.parse_fs) = Ret 0 w'
    /\ commands (w_trace w')
       = [ "tar -xf /opt/jfit/docker_images/jfit_core.tar.gz manifest.json";
           docker_parse_command_of "/home/in.json" "/opt/jfit/etc"
             "/opt/jfit/input" "jfit_core:1.0" (parse_command_of "dg");
           status_command_of "c0ffee"; status_command_of "c0ffee";
           status_command_of "c0ffee"; "docker rm -f c0ffee";
           "tar -xf /opt/jfit/docker_images/jfit_re.tar.gz manifest.json" ]
    /\ is_file (w_fs w')
         (resolve [] "/opt/jfit/etc/core_output/g2/jfit_re.yaml") = true.
Proof. eexists. repeat split; vm_compute; reflexivity. Qed.

(** ** Results of the lifecycle commands *)

Lemma run_compose_result (H : host) (cmd cwd message : string) (w : world)
    rc out fs' :
  engine H (Print (Fore_CYAN ++ cmd) :: w_trace w) (w_fs w) cmd
  = (rc, out, fs') ->
  returns_status rc fs'
    ((if rc =? 0 then [Print message] else [])
     ++ [report_of cmd rc out; Exec cmd rc out; Print (Fore_CYAN ++ cmd)])
    w (run_compose H cmd cwd message w).
Proof.
  intros E. unfold run_compose, try_except. unfold bind at 1. unfold bind at 1.
  rewrite execute_eq. cbv zeta. unfold docker.
  cbn [w_trace w_fs add_event]. rewrite E. unfold report_of, returns_status.
  destruct (rc =? 0) eqn:Hrc.
  - unfold bind, print, ret, chdir.
    cbn [w_fs w_cwd add_event set_fs w_trace].
    destruct (is_dir _ _); [|reflexivity].
    apply Z.eqb_eq in Hrc. subst rc. cbn. auto.
  - unfold bind, ret, chdir. cbn [w_fs w_cwd add_event set_fs w_trace].
    destruct (is_dir _ _); [|reflexivity].
    rewrite Hrc. cbn. auto.
Qed.

Lemma stop_eq (H : host) (a : args) (w : world) :
  abs_host H ->
  is_dir (w_fs w) (resolve [] (get_group_dir_path H (group_name a))) = true ->
  documents H (group_name a) w <> [] ->
  stop H a w
  = run_compose H
      (compose_command_of "stop" a
         (file_arguments (documents H (group_name a) w)))
      (path_str (w_cwd w)) (Fore_GREEN ++ "Success!")
      (set_cwd (resolve [] (get_group_dir_path H (group_name a))) w).
Proof.
  intros Ha Hd Hdocs. unfold stop. unfold bind at 1. unfold isdir at 1.
  pose proof (group_dir_abs H (group_name a) Ha) as Hg.
  rewrite (resolve_abs _ [] _ Hg), Hd. cbn [negb].
  unfold bind at 1. unfold getcwd. unfold bind at 1. unfold chdir.
  rewrite (resolve_abs _ [] _ Hg), Hd.
  unfold bind at 1. rewrite get_compose_files_eq. cbv zeta.
  cbn [w_cwd w_fs set_cwd]. rewrite (resolve_abs _ [] _ Hg), Hd.
  unfold documents in *.
  destruct (filter _ _) as [|d docs]; [congruence|].
  cbn [is_one format_files]. unfold compose_command_of, service_suffix.
  destruct (truthy (service a)); f_equal;
    rewrite ?string_app_assoc; cbn; rewrite ?string_app_assoc;
    reflexivity.
Qed.

Lemma restart_eq (H : host) (a : args) (w : world) :
  abs_host H ->
  is_dir (w_fs w) (resolve [] (get_group_dir_path H (group_name a))) = true ->
  documents H (group_name a) w <> [] ->
  restart H a w
  = run_compose H
      (compose_command_of "restart" a
         (file_arguments (documents H (group_name a) w)))
      (path_str (w_cwd w)) (Fore_GREEN ++ "Success!")
      (set_cwd (resolve [] (get_group_dir_path H (group_name a))) w).
Proof.
  intros Ha Hd Hdocs. unfold restart. unfold bind at 1. unfold isdir at 1.
  pose proof (group_dir_abs H (group_name a) Ha) as Hg.
  rewrite (resolve_abs _ [] _ Hg), Hd. cbn [negb].
  unfold bind at 1. unfold getcwd. unfold bind at 1. unfold chdir.
  rewrite (resolve_abs _ [] _ Hg), Hd.
  unfold bind at 1. rewrite get_compose_files_eq. cbv zeta.
  cbn [w_cwd w_fs set_cwd]. rewrite (resolve_abs _ [] _ Hg), Hd.
  unfold documents in *.
  destruct (filter _ _) as [|d docs]; [congruence|].
  cbn [is_one format_files]. unfold compose_command_of, service_suffix.
  destruct (truthy (service a)); f_equal;
    rewrite ?string_app_assoc; cbn; rewrite ?string_app_assoc;
    reflexivity.
Qed.

Lemma start_eq' (H : host) (a : args) (w : world) :
  abs_host H ->
  is_dir (w_fs w) (resolve [] (get_group_dir_path H (group_name a))) = true ->
  documents H (group_name a) w <> [] ->
  start H a w
  = run_compose H
      (start_command_of a (file_arguments (documents H (group_name a) w)))
      (path_str (w_cwd w)) (Fore_GREEN ++ "Success!")
      (set_cwd (resolve [] (get_group_dir_path H (group_name a))) w).
Proof.
  intros Ha Hd Hdocs. rewrite (start_eq H a w Ha Hd). cbv zeta.
  destruct (documents H (group_name a) w) as [|d docs]; [congruence|].
  unfold start_command_of. f_equal.
  rewrite !string_app_assoc. reflexivity.
Qed.


Lemma cli_eq (H : host) (a : args) (w : world) :
  abs_host H ->
  is_dir (w_fs w) (resolve [] (get_group_dir_path H (group_name a))) = true ->
  documents H (group_name a) w <> [] ->
  cli H a w
  = bind (shell_command
            (docker H (cli_command_of a
                         (file_arguments (documents H (group_name a) w))))
            (cli_command_of a (file_arguments (documents H (group_name a) w))))
         (fun ret_code => bind (chdir (path_str (w_cwd w)))
                               (fun _ => ret ret_code))
         (set_cwd (resolve [] (get_group_dir_path H (group_name a))) w).
Proof.
  intros Ha Hd Hdocs. unfold cli. unfold bind at 1. unfold isdir at 1.
  pose proof (group_dir_abs H (group_name a) Ha) as Hg.
  rewrite (resolve_abs _ [] _ Hg), Hd. cbn [negb].
  unfold bind at 1. unfold getcwd. unfold bind at 1. unfold chdir at 1.
  rewrite (resolve_abs _ [] _ Hg), Hd.
  unfold bind at 1. rewrite get_compose_files_eq. cbv zeta.
  cbn [w_cwd w_fs set_cwd]. rewrite (resolve_abs _ [] _ Hg), Hd.
  unfold documents in *.
  destruct (filter _ _) as [|d docs]; [congruence|].
  cbn [is_one format_files]. unfold cli_command_of.
  unfold try_except, shell_command, print, spawn, bind.
  match goal with
  | |- context [docker H ?c ?w0] => destruct (docker H c w0) as [[rc out] fs']
  end.
  reflexivity.
Qed.








Lemma lifecycle_precondition_witness :
  restart Demo.host_ok (Demo.args_group "g0" None)
          (Demo.at_home Demo.installed)
  = Ret 1 (add_event (Print (Fore_RED ++ "Group name is not valid"))
                     (Demo.at_home Demo.installed))
  /\ cli Demo.host_ok (Demo.args_group "g1" (Some "jfit_re"))
         (Demo.at_home Demo.unassembled_fs)
     = Ret 1 (add_event
                (Print (Fore_RED ++ "Unable to find compose files." ++ NL
                        ++ " Please run parse command first!"))
                (set_cwd (resolve [] "/opt/jfit/etc/core_output/g1")
                         (Demo.at_home Demo.unassembled_fs))).
Proof.
  split.
  - exact (proj1 (lifecycle_precondition Demo.host_ok (restart Demo.host_ok)
                    (Demo.args_group "g0" None) (Demo.at_home Demo.installed)
                    eq_refl
                    (or_intror (or_intror (or_introl eq_refl))))
                 eq_refl).
  - exact (proj2 (lifecycle_precondition Demo.host_ok (cli Demo.host_ok)
                    (Demo.args_group "g1" (Some "jfit_re"))
                    (Demo.at_home Demo.unassembled_fs) eq_refl
                    (or_intror (or_intror (or_intror (or_introl eq_refl)))))
                 eq_refl eq_refl).
Defined.

(** ** More on the environment manifest *)

Lemma split_by_pieces (p : ascii -> bool) (s : string) :
  Forall (fun t => all_chars (fun c => negb (p c)) t = true) (split_by p s).
Proof.
  induction s as [|c s IH]; simpl.
  - repeat constructor.
  - destruct (p c) eqn:E.
    + constructor; [reflexivity|exact IH].
    + destruct (split_by p s) as [|hd tl]; [repeat constructor; simpl; rewrite E; reflexivity|].
      inversion IH; subst. constructor; [|assumption].
      simpl. rewrite E. assumption.
Qed.

Lemma contains_split (c : ascii) (s : string) :
  contains c s = true ->
  exists a b rest, split_on c s = a :: b :: rest.
Proof.
  unfold split_on. induction s as [|x s IH]; simpl; [discriminate|].
  rewrite orb_true_iff. intros Hc.
  destruct (Ascii.eqb c x) eqn:E.
  - pose proof (split_by_not_nil (Ascii.eqb c) s) as Hn.
    destruct (split_by (Ascii.eqb c) s) as [|b rest]; [congruence|].
    exists "", b, rest. reflexivity.
  - destruct Hc as [Hc|Hc]; [discriminate|].
    destruct (IH Hc) as (a & b & rest & ->). eauto.
Qed.

(** Trimming keeps every character that is not white space. *)
Lemma lstrip_keeps (c : ascii) (s : string) :
  is_space c = false -> contains c s = true -> contains c (lstrip s) = true.
Proof.
  intros Hc. induction s as [|x s IH]; simpl; [discriminate|].
  destruct (is_space x) eqn:Ex; [|auto].
  destruct (Ascii.eqb_spec c x) as [->|Hn]; [congruence|]. exact IH.
Qed.

Lemma rstrip_keeps (c : ascii) (s : string) :
  is_space c = false -> contains c s = true -> contains c (rstrip s) = true.
Proof.
  intros Hc. induction s as [|x s IH]; simpl; [discriminate|].
  destruct (Ascii.eqb_spec c x) as [<-|Hn].
  - intros _. destruct (rstrip s); [rewrite Hc|]; simpl;
      rewrite Ascii.eqb_refl; reflexivity.
  - simpl. intros Hs. specialize (IH Hs).
    destruct (rstrip s) as [|y r]; [discriminate|].
    simpl in *. rewrite IH. apply orb_true_r.
Qed.

Lemma strip_nonempty (c : ascii) (s : string) :
  is_space c = false -> contains c s = true -> nonempty (strip s) = true.
Proof.
  intros Hc Hs. unfold strip.
  pose proof (rstrip_keeps c _ Hc (lstrip_keeps c s Hc Hs)) as Hk.
  destruct (rstrip (lstrip s)); [discriminate|reflexivity].
Qed.

Lemma parse_env_app (l1 l2 : list string) (d : pydict) (w : world) :
  parse_env (l1 ++ l2) d w
  = match parse_env l1 d w with
    | Ret env w' => parse_env l2 env w'
    | other => other
    end.
Proof.
  revert d. induction l1 as [|line l1 IH]; intros d; simpl; [reflexivity|].
  destruct (nonempty (strip line)); [|apply IH].
  unfold bind at 1 3. destruct (list_index (split_on "=" line) 0 w)
    as [key w1|e w1|w1] eqn:E0; try reflexivity.
  unfold bind at 1 2. destruct (list_index (split_on "=" line) 1 w1)
    as [val w2|e w2|w2] eqn:E1; try reflexivity.
  assert (Hw : w2 = w).
  { unfold list_index in E0, E1.
    destruct (nth_error _ 0); inversion E0; subst.
    destruct (nth_error _ 1); inversion E1; subst. reflexivity. }
  subst w2. apply IH.
Qed.

Lemma parse_env_line (line : string) (d : pydict) (w : world) :
  contains "=" line = true ->
  exists key val rest,
    split_on "=" line = key :: val :: rest
    /\ parse_env [line] d w = Ret (dict_set key (VStr val) d) w.
Proof.
  intros Hc. destruct (contains_split _ _ Hc) as (key & val & rest & E).
  exists key, val, rest. split; [exact E|]. simpl.
  rewrite (strip_nonempty "=" line eq_refl Hc). rewrite E. reflexivity.
Qed.

Lemma split_ws_tokens (s : string) :
  Forall (fun t => nonempty (strip t) = true) (split_ws s).
Proof.
  unfold split_ws. pose proof (split_by_pieces is_space s) as Hp.
  induction Hp as [|t l Ht Hl IH]; simpl; [constructor|].
  destruct t as [|c r]; simpl; [exact IH|].
  constructor; [|exact IH].
  simpl in Ht. apply andb_true_iff in Ht. destruct Ht as [Hc _].
  apply negb_true_iff in Hc.
  apply (strip_nonempty c); [exact Hc|]. simpl.
  rewrite Ascii.eqb_refl. reflexivity.
Qed.

Lemma parse_env_tokens (lines : list string) (w : world) :
  Forall (fun t => nonempty (strip t) = true) lines ->
  forall d,
    (forallb (contains "=") lines = false ->
     parse_env lines d w = Raise IndexError w)
    /\ (forallb (contains "=") lines = true ->
        exists env, parse_env lines d w = Ret env w).
Proof.
  induction 1 as [|line lines Hne Hall IH]; intros d.
  - split; [discriminate|]. intros _. exists d. reflexivity.
  - change (line :: lines) with ([line] ++ lines)%list.
    rewrite parse_env_app. cbn [forallb app].
    destruct (contains "=" line) eqn:Hc; cbn [andb].
    + destruct (parse_env_line line d w Hc) as (key & val & rest & _ & E).
      rewrite E. apply IH.
    + split; [|discriminate]. intros _. cbn [parse_env].
      rewrite Hne, (split_on_absent _ _ Hc). reflexivity.
Qed.

Lemma parse_lists_total (keys : list string) (d : pydict) (w : world) :
  NoDup keys ->
  (forall k, In k keys -> exists s, assoc k d = Some (VStr s)) ->
  exists d', parse_lists keys d w = Ret d' w.
Proof.
  intros Hn Hk. destruct (parse_lists_spec keys d w Hn Hk) as (d' & E & _).
  eauto.
Qed.

(** X6.  Every whitespace-separated token of [source.env]
    must hold an ['=']: with one that does not (a comment, a value with a
    blank in it), [_create_compose_file] raises [IndexError] before any
    role is looked at; when all do, the dictionary is built. *)
Theorem manifest_tokens_need_equals (H : host) (dir_path : string)
    (w : world) (c : content) :
  fs_lookup (w_fs w) (resolve (w_cwd w) (path_join dir_path "source.env"))
  = Some (File c) ->
  let tokens := split_ws (read_text H c) in
  (forallb (contains "=") tokens = false ->
   _create_compose_file H dir_path w = Raise IndexError w)
  /\ (forallb (contains "=") tokens = true ->
      exists env, load_env_dict H dir_path w = Ret env w).
Proof.
  intros Hf tokens.
  assert (Hload : load_env_dict H dir_path w
                  = bind (parse_env tokens [])
                      (fun env_dict =>
                         bind (parse_lists (dict_keys env_dict) env_dict)
                              (fun env_dict =>
                                 ret (dict_update env_dict (injected_paths H))))
                      w).
  { unfold load_env_dict, GROUP_ENV_FILE. unfold bind at 1. unfold isfile.
    unfold is_file. rewrite Hf. cbn [negb]. unfold bind at 1. unfold ret at 1.
    unfold bind at 1. unfold open_r. rewrite Hf. reflexivity. }
  destruct (parse_env_tokens tokens w (split_ws_tokens _) []) as [Hbad Hok].
  split.
  - intros Hb. unfold _create_compose_file, _create_compose_file_in.
    unfold bind at 1. rewrite Hload. unfold bind at 1.
    rewrite (Hbad Hb). reflexivity.
  - intros Hg. destruct (Hok Hg) as [env Henv]. rewrite Hload.
    unfold bind at 1. rewrite Henv.
    destruct (parse_env_spec _ _ _ _ _ Henv) as (_ & Hs & Hn & _).
    destruct (parse_lists_total (dict_keys env) env w) as [env' E'].
    + apply Hn. constructor.
    + intros k Hin. apply assoc_in_keys in Hin.
      destruct (assoc k env) as [v|] eqn:Ek; [|congruence].
      destruct (Hs ltac:(intros k0 v0; discriminate) k v Ek) as [s0 ->]. eauto.
    + unfold bind. rewrite E'. eexists. reflexivity.
Qed.

Lemma load_env_dict_file (H : host) (dir_path : string) (w w0 : world) env :
  load_env_dict H dir_path w = Ret env w0 ->
  exists c,
    fs_lookup (w_fs w) (resolve (w_cwd w) (path_join dir_path "source.env"))
    = Some (File c).
Proof.
  unfold load_env_dict, GROUP_ENV_FILE. unfold bind at 1. unfold isfile.
  unfold is_file.
  destruct (fs_lookup (w_fs w) _) as [[|c]|] eqn:Hf; [| eauto |];
    cbn [negb]; unfold bind at 1; unfold print; unfold bind at 1;
    unfold open_r; cbn [w_fs w_cwd add_event]; rewrite Hf; discriminate.
Qed.

Lemma role_key_cases (k : string) :
  is_role_key k = true ->
  endswith "_LIST" k = false
  /\ k <> "JFIT_ETC_PATH" /\ k <> "JFIT_OUTPUT_PATH".
Proof.
  unfold is_role_key. cbn [existsb]. rewrite !orb_true_iff.
  rewrite !String.eqb_eq.
  intros [->|[->|[->|[->|[->|[->|Hf]]]]]]; try discriminate Hf;
    (split; [reflexivity|split; discriminate]).
Qed.

(** X7.  The dictionary of a group, when it is built, leaves the
    world as it was; the two injected keys hold the paths of the script
    whatever the manifest says of them; and a role key, which never ends
    in [_LIST], holds the string of its manifest entry. *)
Theorem env_dict_shape (H : host) (dir_path : string) (w w0 : world) env :
  load_env_dict H dir_path w = Ret env w0 ->
  w0 = w
  /\ assoc "JFIT_ETC_PATH" env = Some (VStr (ETC_DIR_PATH H))
  /\ assoc "JFIT_OUTPUT_PATH" env = Some (VStr (GROUP_DIR H))
  /\ exists c,
      fs_lookup (w_fs w) (resolve (w_cwd w) (path_join dir_path "source.env"))
      = Some (File c)
      /\ forall k, is_role_key k = true ->
           match assoc k env with
           | Some (VStr raw) => entry_of (split_ws (read_text H c)) k raw
           | Some (VList _) => False
           | None => True
           end.
Proof.
  intros E. destruct (load_env_dict_file _ _ _ _ _ E) as [c Hf].
  rewrite (load_env_dict_eq H dir_path w c Hf) in E.
  apply bind_Ret_inv in E. destruct E as (env1 & w1 & E1 & E).
  apply bind_Ret_inv in E. destruct E as (env2 & w2 & E2 & E).
  destruct (parse_env_spec _ _ _ _ _ E1) as (-> & Hs & Hn & Hp).
  assert (Hall : all_strings env1) by (apply Hs; intros k v; discriminate).
  assert (Hnd : NoDup (dict_keys env1)) by (apply Hn; constructor).
  destruct (parse_lists_spec (dict_keys env1) env1 w Hnd) as (d' & Hrun & Hd').
  { intros k Hin. apply assoc_in_keys in Hin.
    destruct (assoc k env1) as [v|] eqn:Ek; [|congruence].
    destruct (Hall k v Ek) as [s0 ->]. eauto. }
  rewrite Hrun in E2. injection E2 as <- <-.
  unfold ret in E. injection E as <- <-.
  unfold injected_paths, dict_update. cbn [fold_left fst snd].
  split; [reflexivity|]. split.
  { rewrite assoc_dict_set_neq by discriminate. apply assoc_dict_set_eq. }
  split; [apply assoc_dict_set_eq|].
  exists c. split; [exact Hf|]. intros k Hk.
  destruct (role_key_cases k Hk) as (Hlist & Hk1 & Hk2).
  rewrite !assoc_dict_set_neq by assumption. rewrite Hd'.
  destruct (assoc k env1) as [[raw|l]|] eqn:Ek.
  - assert (Hent : entry_of (split_ws (read_text H c)) k raw).
    { destruct (Hp k raw Ek) as [Hd|Hd]; [discriminate|exact Hd]. }
    destruct (in_dec string_dec k (dict_keys env1)); [|exact Hent].
    unfold list_or_string. rewrite Hlist. exact Hent.
  - destruct (Hall k _ Ek) as [s0 Hs0]. discriminate.
  - exact I.
Qed.

Lemma contains_app_sep (c : ascii) (a b : string) :
  contains c (a ++ String c b) = true.
Proof.
  induction a as [|x a IH]; simpl.
  - rewrite Ascii.eqb_refl. reflexivity.
  - rewrite IH. apply orb_true_r.
Qed.

(** X8.  In the manifest the last entry of a key wins, and the
    value of an entry ends at its second ['=']: whatever came before,
    after [key=rest] the key holds the first ['=']-field of [rest] and the
    other keys hold what they held. *)
Theorem manifest_last_entry_wins (lines : list string) (d : pydict)
    (w : world) env (key rest : string) :
  parse_env lines d w = Ret env w ->
  contains "=" key = false ->
  exists env',
    parse_env (lines ++ [key ++ "=" ++ rest]) d w = Ret env' w
    /\ assoc key env' = Some (VStr (hd "" (split_on "=" rest)))
    /\ forall k, k <> key -> assoc k env' = assoc k env.
Proof.
  intros E Hk. rewrite parse_env_app, E.
  change (key ++ "=" ++ rest) with (key ++ String "=" rest).
  destruct (parse_env_line (key ++ String "=" rest) env w
              (contains_app_sep _ _ _))
    as (key' & val & more & Hsplit & Hrun).
  rewrite (split_on_first _ _ _ Hk) in Hsplit.
  assert (Hkey : key' = key) by congruence. subst key'.
  assert (Hval : hd "" (split_on "=" rest) = val).
  { injection Hsplit as Hs. rewrite Hs. reflexivity. }
  rewrite Hval. eexists. split; [exact Hrun|]. split.
  - apply assoc_dict_set_eq.
  - intros k Hne. apply assoc_dict_set_neq, Hne.
Qed.

Lemma for_roles_skip (body : string -> M flow) (keys : list string)
    (w : world) :
  (forall k, In k keys -> body k w = Ret Continue w) ->
  for_roles body keys w = Ret None w.
Proof.
  induction keys as [|k keys IH]; intros Hb; simpl; [reflexivity|].
  unfold bind. rewrite (Hb k (or_introl eq_refl)). apply IH.
  intros k' Hin. apply Hb. right. exact Hin.
Qed.

(** X9.  A group whose manifest names no role is assembled with
    success: [_create_compose_file] returns 0 and leaves the world as it
    was, with nothing written, run or printed. *)
Theorem group_without_roles (H : host) (dir_path : string) (w w0 : world)
    env :
  load_env_dict H dir_path w = Ret env w0 ->
  (forall k, In k (dict_keys env) -> is_role_key k = false) ->
  _create_compose_file H dir_path w = Ret 0 w.
Proof.
  intros E Hk.
  assert (Hw : w0 = w).
  { destruct (load_env_dict_file _ _ _ _ _ E) as [c Hf].
    rewrite (load_env_dict_eq H dir_path w c Hf) in E.
    apply bind_Ret_inv in E. destruct E as (env1 & w1 & E1 & E).
    apply bind_Ret_inv in E. destruct E as (env2 & w2 & E2 & E).
    destruct (parse_env_spec _ _ _ _ _ E1) as (-> & Hs & Hn & _).
    destruct (parse_lists_spec (dict_keys env1) env1 w) as (d' & Hrun & _).
    - apply Hn. constructor.
    - intros k Hin. apply assoc_in_keys in Hin.
      destruct (assoc k env1) as [v|] eqn:Ek; [|congruence].
      destruct (Hs ltac:(intros k0 v0; discriminate) k v Ek) as [s0 ->]. eauto.
    - rewrite Hrun in E2. injection E2 as <- <-.
      unfold ret in E. congruence. }
  subst w0.
  unfold _create_compose_file, _create_compose_file_in. unfold bind at 1.
  rewrite E. unfold bind at 1. rewrite for_roles_skip; [reflexivity|].
  intros k Hin. unfold process_role.
  change (existsb (String.eqb k) SERVICE_KEYS) with (is_role_key k).
  rewrite (Hk k Hin). reflexivity.
Qed.

Lemma manifest_tokens_need_equals_witness :
  _create_compose_file Demo.host_ok "/opt/jfit/etc/core_output/g1"
    (Demo.at_home Demo.commented_fs)
  = Raise IndexError (Demo.at_home Demo.commented_fs)
  /\ exists env,
      load_env_dict Demo.host_ok "/opt/jfit/etc/core_output/g1"
        (Demo.at_home Demo.unassembled_fs)
      = Ret env (Demo.at_home Demo.unassembled_fs).
Proof.
  split.
  - exact (proj1 (manifest_tokens_need_equals Demo.host_ok
                    "/opt/jfit/etc/core_output/g1"
                    (Demo.at_home Demo.commented_fs)
                    (Text "RULE_ENGINE=re #comment") eq_refl) eq_refl).
  - exact (proj2 (manifest_tokens_need_equals Demo.host_ok
                    "/opt/jfit/etc/core_output/g1"
                    (Demo.at_home Demo.unassembled_fs)
                    (Text "RULE_ENGINE=re") eq_refl) eq_refl).
Defined.

Lemma env_dict_shape_witness :
  assoc "JFIT_ETC_PATH"
    [("JFIT_ETC_PATH", VStr "/opt/jfit/etc"); ("SITE", VStr "lab");
     ("JFIT_OUTPUT_PATH", VStr "/opt/jfit/etc/core_output")]
  = Some (VStr (ETC_DIR_PATH Demo.host_ok)).
Proof.
  exact (proj1 (proj2 (env_dict_shape Demo.host_ok
                         "/opt/jfit/etc/core_output/g1"
                         (Demo.at_home Demo.no_role_fs)
                         (Demo.at_home Demo.no_role_fs)
                         [("JFIT_ETC_PATH", VStr "/opt/jfit/etc");
                          ("SITE", VStr "lab");
                          ("JFIT_OUTPUT_PATH",
                           VStr "/opt/jfit/etc/core_output")]
                         eq_refl))).
Defined.

Lemma manifest_last_entry_wins_witness :
  exists env',
    parse_env (["DATABASE=db"] ++ ["DATABASE" ++ "=" ++ "pg=13"]) []
      (Demo.at_home Demo.installed)
    = Ret env' (Demo.at_home Demo.installed)
    /\ assoc "DATABASE" env' = Some (VStr (hd "" (split_on "=" "pg=13")))
    /\ forall k, k <> "DATABASE" ->
         assoc k env' = assoc k [("DATABASE", VStr "db")].
Proof.
  exact (manifest_last_entry_wins ["DATABASE=db"] []
           (Demo.at_home Demo.installed) [("DATABASE", VStr "db")]
           "DATABASE" "pg=13" eq_refl eq_refl).
Defined.

Lemma group_without_roles_witness :
  _create_compose_file Demo.host_ok "/opt/jfit/etc/core_output/g1"
    (Demo.at_home Demo.no_role_fs)
  = Ret 0 (Demo.at_home Demo.no_role_fs).
Proof.
  refine (group_without_roles Demo.host_ok "/opt/jfit/etc/core_output/g1"
            (Demo.at_home Demo.no_role_fs) (Demo.at_home Demo.no_role_fs)
            [("JFIT_ETC_PATH", VStr "/opt/jfit/etc"); ("SITE", VStr "lab");
             ("JFIT_OUTPUT_PATH", VStr "/opt/jfit/etc/core_output")]
            eq_refl _).
  intros k [<-|[<-|[<-|[]]]]; reflexivity.
Defined.

(** ** Installation *)

Lemma clean_refl (w : world) : clean w w.
Proof. exists []. split; [reflexivity|constructor]. Qed.

Lemma clean_same (w0 w w' : world) :
  clean w0 w -> w_trace w' = w_trace w -> clean w0 w'.
Proof. intros (evs & E & F) Ht. exists evs. rewrite Ht. auto. Qed.

Lemma clean_print (w0 w : world) (s : string) :
  clean w0 w -> clean w0 (add_event (Print s) w).
Proof.
  intros (evs & E & F). exists (Print s :: evs). split.
  - cbn [add_event w_trace]. rewrite E. reflexivity.
  - exact F.
Qed.

Lemma clean_exec (w0 w : world) (c out : string) :
  clean w0 w -> clean w0 (add_event (Exec c 0 out) w).
Proof.
  intros (evs & E & F). exists (Exec c 0 out :: evs). split.
  - cbn [add_event w_trace]. rewrite E. reflexivity.
  - cbn [actions]. constructor; [reflexivity|exact F].
Qed.

Lemma last_status_exec (w0 w : world) (c out : string) (rc : Z) :
  clean w0 w -> last_status w0 rc (add_event (Exec c rc out) w).
Proof.
  intros (evs & E & F). exists (Exec c rc out :: evs), c, out, (actions evs).
  split; [|split].
  - cbn [add_event w_trace]. rewrite E. reflexivity.
  - reflexivity.
  - exact F.
Qed.

Lemma last_status_print (w0 w : world) (rc : Z) (s : string) :
  last_status w0 rc w -> last_status w0 rc (add_event (Print s) w).
Proof.
  intros (evs & c & out & earlier & E & A & F).
  exists (Print s :: evs), c, out, earlier. split; [|split].
  - cbn [add_event w_trace]. rewrite E. reflexivity.
  - exact A.
  - exact F.
Qed.

Lemma last_status_same (w0 w w' : world) (rc : Z) :
  last_status w0 rc w -> w_trace w' = w_trace w -> last_status w0 rc w'.
Proof.
  intros (evs & c & out & earlier & E & A & F) Ht.
  exists evs, c, out, earlier. rewrite Ht. auto.
Qed.

(** A command run under [try: execute(...) except CalledProcessError],
    with the code it leaves in [ret_code]. *)
Lemma wp_guarded (run : proc) (cmd : string) (w0 w : world)
    (Q : Z -> world -> Prop) X :
  clean w0 w ->
  (forall w', clean w0 w' -> last_status w0 0 w' -> Q 0 w') ->
  (forall rc w', rc <> 0 -> last_status w0 rc w' -> Q rc w') ->
  wp (try_except (bind (execute run cmd) (fun _ => ret 0))
                 (fun returncode => ret returncode)) Q X w.
Proof.
  intros Hc H0 Hf. apply wp_try_except, wp_bind, wp_execute.
  intros rc out fs' Hrun w2. split.
  - intros ->. apply wp_ret. apply H0.
    + apply clean_exec. eapply clean_same; [apply clean_print, Hc|reflexivity].
    + apply last_status_exec.
      eapply clean_same; [apply clean_print, Hc|reflexivity].
  - intros Hrc. apply wp_ret. apply Hf; [exact Hrc|].
    apply last_status_print, last_status_exec.
    eapply clean_same; [apply clean_print, Hc|reflexivity].
Qed.

Lemma load_images_status (H : host) (docker_images : list string)
    (w0 w : world) :
  clean w0 w ->
  wp (load_images H docker_images)
     (fun code w' =>
        (code = 0 /\ clean w0 w') \/ (code <> 0 /\ last_status w0 code w'))
     (fun _ _ => True) w.
Proof.
  revert w. induction docker_images as [|docker_image rest IH]; intros w Hc.
  - apply wp_ret. left. auto.
  - cbn [load_images]. apply wp_bind, wp_try_except, wp_bind, wp_execute.
    intros rc out fs' Hrun w2. split.
    + intros ->. apply wp_ret. apply wp_bind. unfold wp at 1, print.
      apply IH. apply clean_print, clean_exec.
      eapply clean_same; [apply clean_print, Hc|reflexivity].
    + intros Hrc. apply wp_ret. apply wp_ret. right. split; [exact Hrc|].
      apply last_status_print, last_status_exec.
      eapply clean_same; [apply clean_print, Hc|reflexivity].
Qed.

(** X10.  [install] stops at the first command that fails: when it
    returns, it has run at least one command, all but the last of them
    exited with 0, and the code returned is the exit status of the last.
    So it returns 0 exactly when the dependency script, every image load
    and the link all succeeded. *)
Theorem install_stops_at_first_failure (H : host) (script_name : string)
    (w w' : world) (code : Z) :
  install H script_name w = Ret code w' -> last_status w code w'.
Proof.
  apply (wp_Ret (install H script_name)
           (fun code w' => last_status w code w') (fun _ _ => True)).
  unfold install. apply wp_bind. unfold wp at 1, getcwd.
  apply wp_bind. unfold wp at 1, chdir.
  destruct (is_dir _ _); [|exact I].
  apply wp_bind.
  apply (wp_guarded _ _ w); [eapply clean_same; [apply clean_refl|reflexivity]| |].
  - intros w1 Hc1 _. cbn [Z.eqb negb]. apply wp_bind. unfold wp at 1, print.
    apply wp_bind. unfold wp at 1, chdir. cbn [w_cwd w_fs add_event].
    destruct (is_dir _ _); [|exact I].
    apply wp_bind. unfold get_docker_images. apply wp_bind.
    unfold wp at 1, listdir. cbn [w_cwd w_fs set_cwd].
    destruct (is_dir _ _); [|exact I]. apply wp_ret. apply wp_bind.
    eapply wp_conseq;
      [apply (load_images_status H _ w);
       eapply clean_same; [apply clean_print, Hc1|reflexivity]
      | |auto].
    intros rc w2 [[-> Hc2]|[Hrc Hl]].
    + cbn [Z.eqb negb]. apply wp_bind.
      apply (wp_guarded _ _ w); [exact Hc2| |].
      * intros w3 _ Hl3. cbn [Z.eqb negb]. apply wp_bind. apply wp_ret.
        apply wp_ret. exact Hl3.
      * intros rc3 w3 Hrc3 Hl3. apply Z.eqb_neq in Hrc3 as Hb. rewrite Hb.
        cbn [negb]. apply wp_bind. unfold wp at 1, print. apply wp_ret.
        apply last_status_print, Hl3.
    + apply Z.eqb_neq in Hrc as Hb. rewrite Hb. cbn [negb].
      apply wp_bind. unfold wp at 1, print. apply wp_ret.
      apply last_status_print, Hl.
  - intros rc w1 Hrc Hl. apply Z.eqb_neq in Hrc as Hb. rewrite Hb.
    cbn [negb]. apply wp_bind. unfold wp at 1, print. apply wp_ret.
    apply last_status_print, Hl.
Qed.

Lemma install_stops_at_first_failure_witness :
  exists w',
    install Demo.host_ko "jfit.py" (Demo.at_home Demo.installed) = Ret 1 w'
    /\ last_status (Demo.at_home Demo.installed) 1 w'.
Proof.
  eexists. split; [vm_compute; reflexivity|].
  apply (install_stops_at_first_failure Demo.host_ko "jfit.py").
  vm_compute. reflexivity.
Defined.

(** ** [parse]: what is checked of the input, and the code returned *)

(** X11.  What [parse] checks of its input.  The file is looked
    for in the working directory, then in the directory of the script; the
    input directory is looked for as given, then below the directory of
    the script, but only when the file was found in the working directory:
    with a file found beside the script, the input directory goes to the
    helper container unchecked.  A rejected invocation prints its error,
    returns 1 and does nothing else. *)
Theorem parse_input_validation (H : host) (fuel : nat) (a : args)
    (w : world) :
  let given := input_file_path a in
  let dir :=
    if truthy (input_dir a) then format_opt (input_dir a)
    else PARSE_INPUT_DIR H in
  let in_cwd := path_join (path_str (w_cwd w)) given in
  let in_script := path_join (FILE_DIR_PATH H) given in
  let below_script := path_join (FILE_DIR_PATH H) dir in
  let is_f p := is_file (w_fs w) (resolve (w_cwd w) p) in
  let is_d p := is_dir (w_fs w) (resolve (w_cwd w) p) in
  let rejected err :=
    parse H fuel a w = Ret 1 (add_event (Print (Fore_RED ++ err)) w) in
  let goes_on file d :=
    parse H fuel a w = parse_located H fuel a file d w in
  if is_f in_cwd then
    if is_d dir then goes_on in_cwd dir
    else if is_d below_script then goes_on in_cwd below_script
         else rejected ("Invalid input directory: " ++ dir)
  else
    if is_f in_script then goes_on in_script dir
    else rejected ("Unable to locate file " ++ given).
Proof.
  cbv zeta. unfold parse, parse_locate_input, bind, getcwd, isfile, isdir, ret.
  cbv beta.
  destruct (is_file (w_fs w) (resolve (w_cwd w)
              (path_join (path_str (w_cwd w)) (input_file_path a))));
    cbn [negb].
  - destruct (is_dir (w_fs w) (resolve (w_cwd w) _)); [reflexivity|].
    cbn [negb].
    destruct (is_dir (w_fs w) (resolve (w_cwd w) _)); reflexivity.
  - destruct (is_file (w_fs w) (resolve (w_cwd w) _)); reflexivity.
Qed.

Lemma tidy_ret {A : Type} (a : A) : tidy (ret a).
Proof. intros w0 w Hc. exact Hc. Qed.

Lemma tidy_bind {A B : Type} (m : M A) (k : A -> M B) :
  tidy m -> (forall a, tidy (k a)) -> tidy (bind m k).
Proof.
  intros Hm Hk w0 w Hc. apply wp_bind.
  eapply wp_conseq; [apply (Hm w0 w Hc)| |auto].
  intros a w1 Hc1. apply (Hk a w0 w1 Hc1).
Qed.

Lemma tidy_silent {A : Type} (m : M A) :
  adds_only (fun _ => False) m -> tidy m.
Proof.
  intros Hm w0 w Hc. unfold wp. specialize (Hm w).
  destruct (m w) as [a w1|e w1|w1]; [|exact I|exact I].
  destruct Hm as (evs & E & F). cbn [outcome_world] in E.
  destruct evs as [|e evs]; [|inversion F; contradiction].
  apply (clean_same w0 w w1 Hc E).
Qed.

Lemma tidy_print (line : string) : tidy (print line).
Proof. intros w0 w Hc. apply clean_print, Hc. Qed.

Lemma strict_tidy {A : Type} (m : M A) : strict m -> tidy m.
Proof.
  intros Hm w0 w Hc. eapply wp_conseq; [apply (Hm w0 w Hc)|auto|auto].
Qed.

Lemma strict_ret {A : Type} (a : A) : strict (ret a).
Proof. intros w0 w Hc. exact Hc. Qed.

Lemma strict_bind {A B : Type} (m : M A) (k : A -> M B) :
  strict m -> (forall a, strict (k a)) -> strict (bind m k).
Proof.
  intros Hm Hk w0 w Hc. apply wp_bind.
  eapply wp_conseq; [apply (Hm w0 w Hc)| |auto].
  intros a w1 Hc1. apply (Hk a w0 w1 Hc1).
Qed.

Lemma strict_execute (run : proc) (cmd : string) : strict (execute run cmd).
Proof.
  intros w0 w Hc. apply wp_execute. intros rc out fs' Hrun w2. split.
  - intros ->. apply clean_exec.
    eapply clean_same; [apply clean_print, Hc|reflexivity].
  - intros Hrc. split; [exact Hrc|].
    apply last_status_print, last_status_exec.
    eapply clean_same; [apply clean_print, Hc|reflexivity].
Qed.

Lemma strict_sleep (secs : Z) : strict (sleep secs).
Proof.
  intros w0 w (evs & E & F). exists (Sleep secs :: evs). split.
  - cbn [add_event w_trace]. rewrite E. reflexivity.
  - cbn [actions]. constructor; [exact I|exact F].
Qed.

Lemma strict_poll_status (H : host) (fuel : nat) (cmd status : string) :
  strict (poll_status H fuel cmd status).
Proof.
  revert status. induction fuel as [|fuel IH]; intros status; simpl.
  - destruct (String.eqb status "exited"); [apply strict_ret|].
    intros w0 w Hc. exact I.
  - destruct (String.eqb status "exited"); [apply strict_ret|].
    apply strict_bind; [apply strict_execute|intros status'].
    apply strict_bind; [apply strict_sleep|intros _]. apply IH.
Qed.

Lemma run_helper_status (H : host) (fuel : nat) (cmd : string)
    (w0 w : world) :
  clean w0 w ->
  wp (run_helper H fuel cmd)
     (fun code w' => code = 0 /\ clean w0 w')
     (fun e w' =>
        match e with
        | Some (CalledProcessError rc) => rc <> 0 /\ last_status w0 rc w'
        | _ => True
        end) w.
Proof.
  intros Hc. unfold run_helper. apply wp_bind.
  eapply wp_conseq; [apply (strict_execute _ _ w0 w Hc)| |auto].
  intros container_id w1 Hc1. apply wp_bind.
  eapply wp_conseq; [apply (strict_poll_status H fuel _ _ w0 w1 Hc1)| |auto].
  intros [] w2 Hc2. apply wp_bind.
  eapply wp_conseq; [apply (strict_execute _ _ w0 w2 Hc2)| |auto].
  intros out w3 Hc3. apply wp_ret. auto.
Qed.

Create HintDb tidy.

#[local] Hint Resolve tidy_ret tidy_print : tidy.

(** Steps through a computation whose parts are known to be tidy. *)
Ltac tidy :=
  repeat match goal with
         | |- tidy (bind _ _) => apply tidy_bind; [|intros]
         | |- tidy (execute _ _) => apply strict_tidy, strict_execute
         | |- tidy (if ?b then _ else _) => destruct b
         | |- tidy (let '(_, _) := ?x in _) => destruct x
         | |- tidy (match ?x with _ => _ end) => destruct x
         | |- tidy _ =>
             solve [auto with tidy | apply tidy_silent; auto with quiet]
         end.

Lemma tidy_get_container_tags (H : host) (p : string) :
  tidy (_get_container_tags H p).
Proof. unfold _get_container_tags. tidy. Qed.

Lemma tidy_split_tag (tag : string) : tidy (split_tag tag).
Proof. unfold split_tag. tidy. Qed.

#[local] Hint Resolve tidy_get_container_tags tidy_split_tag : tidy.

Lemma tidy_process_role (H : host) dir_path loc env service_type :
  tidy (process_role H dir_path loc env service_type).
Proof. unfold process_role. tidy. Qed.

Lemma tidy_for_roles (body : string -> M flow) (keys : list string) :
  (forall k, tidy (body k)) -> tidy (for_roles body keys).
Proof. intros Hb. induction keys; simpl; tidy. Qed.

Lemma tidy_parse_env (lines : list string) (d : pydict) :
  tidy (parse_env lines d).
Proof. revert d. induction lines; intros d; simpl; tidy. Qed.

Lemma tidy_parse_lists (keys : list string) (d : pydict) :
  tidy (parse_lists keys d).
Proof. revert d. induction keys; intros d; simpl; tidy. Qed.

#[local] Hint Resolve tidy_parse_env tidy_parse_lists : tidy.

Lemma tidy_create_compose_file (H : host) (dir_path : string) :
  tidy (_create_compose_file H dir_path).
Proof.
  unfold _create_compose_file, _create_compose_file_in, load_env_dict. tidy.
  apply tidy_for_roles. intros k. apply tidy_process_role.
Qed.

Lemma tidy_mapM {A B : Type} (f : A -> M B) (l : list A) :
  (forall x, tidy (f x)) -> tidy (mapM f l).
Proof. intros Hf. induction l; simpl; tidy. Qed.

Lemma tidy_filterM {A : Type} (f : A -> M bool) (l : list A) :
  (forall x, tidy (f x)) -> tidy (filterM f l).
Proof. intros Hf. induction l; simpl; tidy. Qed.

(** The code of a batch is 0 or 1. *)
Lemma parse_assemble_status (H : host) (output_folder : string)
    (w0 w : world) :
  clean w0 w ->
  wp (parse_assemble H output_folder)
     (fun code w' => clean w0 w' /\ (code = 0 \/ code = 1))
     (fun _ _ => True) w.
Proof.
  intros Hc. unfold parse_assemble. apply wp_bind. unfold wp at 1.
  unfold isdir at 1.
  destruct (is_dir _ _); cbn [negb].
  - apply wp_bind. unfold wp at 1. unfold listdir at 1.
    destruct (is_dir _ _); [|exact I].
    apply wp_bind.
    eapply wp_conseq; [refine (tidy_filterM _ _ _ w0 w Hc)| |auto].
    + intros x. tidy.
    + intros kept w1 Hc1. cbv beta.
      destruct (map _ kept) as [|g gs].
      * apply wp_bind. unfold wp at 1, print. apply wp_ret.
        split; [apply clean_print, Hc1|auto].
      * unfold assemble_groups. apply wp_bind.
        eapply wp_conseq;
          [apply (tidy_mapM (_create_compose_file H) (g :: gs)
                    (tidy_create_compose_file H) w0 w1 Hc1)| |auto].
        intros codes w2 Hc2. cbv beta.
        destruct (filter _ codes); apply wp_ret; auto.
  - apply wp_bind. unfold wp at 1, print. apply wp_ret.
    split; [apply clean_print, Hc|auto].
Qed.

(** X12.  The code [parse] returns.  Either a container
    command failed (the launch of the helper, a poll of its status, its
    removal): that was the last command [parse] ran, and its exit status
    is returned, so that nothing is assembled after it.  Or every command
    [parse] ran succeeded, and it returns 0 or 1.  (A [tar] that fails is
    not caught: [parse] then raises.) *)
Theorem parse_status (H : host) (fuel : nat) (a : args) (w w' : world)
    (code : Z) :
  parse H fuel a w = Ret code w' ->
  (clean w w' /\ (code = 0 \/ code = 1))
  \/ (code <> 0 /\ last_status w code w').
Proof.
  apply (wp_Ret (parse H fuel a)
           (fun code w' =>
              (clean w w' /\ (code = 0 \/ code = 1))
              \/ (code <> 0 /\ last_status w code w'))
           (fun _ _ => True)).
  unfold parse. apply wp_bind.
  assert (Hl : tidy (parse_locate_input H a))
    by (unfold parse_locate_input; tidy).
  eapply wp_conseq; [apply (Hl w w (clean_refl w))| |auto].
  intros [[[err|] input_file_path] input_dir] w1 Hc1; cbv beta iota.
  { apply wp_bind. unfold wp at 1, print. apply wp_ret. left.
    split; [apply clean_print, Hc1|auto]. }
  unfold parse_located. apply wp_bind.
  assert (Hr : tidy (parse_reset_output (GROUP_DIR H)))
    by (unfold parse_reset_output; tidy).
  eapply wp_conseq; [apply (Hr w w1 Hc1)| |auto].
  intros [] w2 Hc2. cbv beta. unfold parse_launch. apply wp_bind.
  eapply wp_conseq; [apply (tidy_get_container_tags H _ w w2 Hc2)| |auto].
  intros tags w3 Hc3. cbv beta. apply wp_bind. unfold wp at 1, realpath.
  apply wp_bind. apply wp_try_except.
  eapply wp_conseq; [apply (run_helper_status H fuel _ w w3 Hc3)| |].
  - intros code0 w4 [-> Hc4]. cbn [Z.eqb negb].
    eapply wp_conseq; [apply (parse_assemble_status H _ w w4 Hc4)| |auto].
    intros rc w5 Hrc. left. exact Hrc.
  - intros [[rc| | | | | | | |]|] w4; auto.
    intros [Hrc Hl4]. apply wp_ret. apply Z.eqb_neq in Hrc as Hb.
    rewrite Hb. cbn [negb]. apply wp_ret. right. auto.
Qed.

Lemma parse_status_witness :
  exists w',
    parse Demo.host_ko 5 (Demo.args_parse "in.json" "dg")
          (Demo.at_home Demo.parse_fs) = Ret 1 w'
    /\ ((clean (Demo.at_home Demo.parse_fs) w' /\ (1 = 0 \/ 1 = 1))
        \/ (1 <> 0 /\ last_status (Demo.at_home Demo.parse_fs) 1 w')).
Proof.
  eexists. split; [vm_compute; reflexivity|].
  apply (parse_status Demo.host_ko 5 (Demo.args_parse "in.json" "dg")).
  vm_compute. reflexivity.
Defined.

(** ** The tag of an image *)

Lemma plain_no_slash (n : string) : plain_name n -> contains "/" n = false.
Proof.
  intros [Hs _]. destruct (contains "/" n) eqn:E; [|reflexivity].
  destruct (contains_split _ _ E) as (a & b & rest & Hab). congruence.
Qed.

Lemma fold_norm_plain (p acc : path) :
  Forall plain_name p -> fold_left norm_step p acc = (acc ++ p)%list.
Proof.
  intros Hp. revert acc. induction Hp as [|n p Hn Hp IH]; intros acc; simpl.
  - rewrite app_nil_r. reflexivity.
  - rewrite (norm_step_plain _ _ Hn), IH, <- app_assoc. reflexivity.
Qed.

(** [os.getcwd()] names the working directory: the string resolves to the
    path it was made from. *)
Lemma resolve_path_str (c p : path) :
  Forall plain_name p -> resolve c (path_str p) = p.
Proof.
  intros Hp. unfold resolve, path_str.
  change ("/" ++ join "/" p) with ("" ++ String "/" (join "/" p)).
  rewrite split_on_first by reflexivity.
  change (startswith "/" ("" ++ String "/" (join "/" p))) with true.
  cbn [fold_left]. change (norm_step [] "") with (@nil string).
  destruct p as [|n p]; [reflexivity|].
  rewrite split_join.
  - apply (fold_norm_plain (n :: p) [] Hp).
  - discriminate.
  - eapply Forall_impl; [|exact Hp]. apply plain_no_slash.
Qed.



(** ** The working directory after a lifecycle command *)

Lemma chdir_back (c : path) (w w' : world) :
  Forall plain_name c ->
  chdir (path_str c) w = Ret tt w' -> w' = set_cwd c w.
Proof.
  intros Hp. unfold chdir. rewrite (resolve_path_str _ _ Hp).
  destruct (is_dir _ _); [|discriminate]. intros E. injection E as <-.
  reflexivity.
Qed.

Lemma run_compose_cwd (H : host) (cmd message : string) (c : path)
    (w w' : world) (rc : Z) :
  Forall plain_name c ->
  run_compose H cmd (path_str c) message w = Ret rc w' -> w_cwd w' = c.
Proof.
  intros Hp E. unfold run_compose in E.
  apply bind_Ret_inv in E. destruct E as (code & w1 & _ & E).
  apply bind_Ret_inv in E. destruct E as ([] & w2 & Hback & E).
  apply (chdir_back _ _ _ Hp) in Hback. subst w2.
  apply bind_Ret_inv in E. destruct E as ([] & w3 & Hmsg & E).
  unfold ret in E. injection E as _ <-.
  destruct (code =? 0); unfold print, ret in Hmsg; injection Hmsg as <-;
    reflexivity.
Qed.

(** X14.  [start], [stop], [restart] and [cli], once the group
    directory holds documents, return in the working directory they were
    called from, whatever the exit status of their command.  (With no
    document they return in the group directory.) *)
Theorem lifecycle_restores_cwd (H : host) (op : args -> M Z) (a : args)
    (w w' : world) (rc : Z) :
  abs_host H ->
  In op [start H; stop H; restart H; cli H] ->
  Forall plain_name (w_cwd w) ->
  is_dir (w_fs w) (resolve [] (get_group_dir_path H (group_name a))) = true ->
  documents H (group_name a) w <> [] ->
  op a w = Ret rc w' ->
  w_cwd w' = w_cwd w.
Proof.
  intros Ha Hop Hp Hd Hdocs E. cbn in Hop.
  destruct Hop as [<- | [<- | [<- | [<- | []]]]].
  - rewrite (start_eq' H a w Ha Hd Hdocs) in E.
    apply (run_compose_cwd _ _ _ _ _ _ _ Hp E).
  - rewrite (stop_eq H a w Ha Hd Hdocs) in E.
    apply (run_compose_cwd _ _ _ _ _ _ _ Hp E).
  - rewrite (restart_eq H a w Ha Hd Hdocs) in E.
    apply (run_compose_cwd _ _ _ _ _ _ _ Hp E).
  - rewrite (cli_eq H a w Ha Hd Hdocs) in E.
    apply bind_Ret_inv in E. destruct E as (code & w1 & _ & E).
    apply bind_Ret_inv in E. destruct E as ([] & w2 & Hback & E).
    apply (chdir_back _ _ _ Hp) in Hback. subst w2.
    unfold ret in E. injection E as _ <-. reflexivity.
Qed.

Lemma lifecycle_restores_cwd_witness :
  exists w',
    stop Demo.host_ko (Demo.args_group "g1" None)
         (Demo.at_home Demo.assembled_fs) = Ret 1 w'
    /\ w_cwd w' = w_cwd (Demo.at_home Demo.assembled_fs).
Proof.
  eexists. split; [vm_compute; reflexivity|].
  apply (lifecycle_restores_cwd Demo.host_ko (stop Demo.host_ko)
           (Demo.args_group "g1" None) (Demo.at_home Demo.assembled_fs) _ 1).
  - reflexivity.
  - right. left. reflexivity.
  - repeat constructor; discriminate.
  - reflexivity.
  - vm_compute. discriminate.
  - vm_compute. reflexivity.
Defined.

(** ** What the assembly runs *)

Lemma extraction_get_container_tags (H : host) (p : string) :
  adds_only extraction_or_print (_get_container_tags H p).
Proof.
  unfold _get_container_tags, execute. quiet.
  apply adds_only_spawn. intros rc out. exists p. reflexivity.
Qed.

Lemma extraction_split_tag (tag : string) :
  adds_only extraction_or_print (split_tag tag).
Proof. unfold split_tag. quiet. Qed.

Lemma extraction_process_role (H : host) dir_path loc env service_type :
  adds_only extraction_or_print (process_role H dir_path loc env service_type).
Proof.
  pose proof (extraction_get_container_tags H).
  pose proof extraction_split_tag.
  unfold process_role. quiet.
Qed.

Lemma extraction_for_roles (body : string -> M flow) (keys : list string) :
  (forall k, adds_only extraction_or_print (body k)) ->
  adds_only extraction_or_print (for_roles body keys).
Proof. intros Hb. induction keys; simpl; quiet. Qed.

Lemma extraction_parse_env (lines : list string) (d : pydict) :
  adds_only extraction_or_print (parse_env lines d).
Proof. revert d. induction lines; intros d; simpl; quiet. Qed.

Lemma extraction_parse_lists (keys : list string) (d : pydict) :
  adds_only extraction_or_print (parse_lists keys d).
Proof. revert d. induction keys; intros d; simpl; quiet. Qed.

Lemma extraction_create_compose_file (H : host) (dir_path : string) :
  adds_only extraction_or_print (_create_compose_file H dir_path).
Proof.
  pose proof extraction_parse_env. pose proof extraction_parse_lists.
  unfold _create_compose_file, _create_compose_file_in, load_env_dict. quiet.
  apply extraction_for_roles. intros k. apply extraction_process_role.
Qed.

Lemma extraction_mapM {A B : Type} (f : A -> M B) (l : list A) :
  (forall x, adds_only extraction_or_print (f x)) ->
  adds_only extraction_or_print (mapM f l).
Proof. intros Hf. induction l; simpl; quiet. Qed.

Lemma extraction_filterM {A : Type} (f : A -> M bool) (l : list A) :
  (forall x, adds_only extraction_or_print (f x)) ->
  adds_only extraction_or_print (filterM f l).
Proof. intros Hf. induction l; simpl; quiet. Qed.

(** X15.  The assembly starts no container.  Whatever their
    outcome, a return or an exception, [_create_compose_file] and the
    assembly of every group that ends [parse] add to the trace only lines
    printed and commands of the form [tar -xf archive manifest.json]:
    they run nothing else, and they never wait. *)
Theorem assembly_only_extracts (H : host) (path : string) :
  adds_only extraction_or_print (_create_compose_file H path)
  /\ adds_only extraction_or_print (parse_assemble H path).
Proof.
  split; [apply extraction_create_compose_file|].
  unfold parse_assemble, assemble_groups. quiet.
  - apply extraction_filterM. intros x. quiet.
  - apply extraction_mapM. intros x. apply extraction_create_compose_file.
Qed.

(** ** The groups [parse] assembles *)

Lemma filterM_pure {A : Type} (f : A -> M bool) (g : A -> bool)
    (l : list A) (w : world) :
  (forall x, f x w = Ret (g x) w) ->
  filterM f l w = Ret (filter g l) w.
Proof.
  intros Hf. induction l as [|x l IH]; simpl; [reflexivity|].
  unfold bind at 1. rewrite Hf. unfold bind at 1. rewrite IH.
  unfold ret. destruct (g x); reflexivity.
Qed.

(** X16.  The groups that [parse] assembles are the entries of the
    output root that are directories and whose name does not start with a
    dot, in the order of the listing; plain files and hidden directories
    are passed over without a word.  With no output root, or no such
    entry, [parse] prints that it was unable to parse and returns 1. *)
Theorem groups_selected (H : host) (output_folder : string) (w : world) :
  parse_assemble H output_folder w
  = if is_dir (w_fs w) (resolve (w_cwd w) output_folder) then
      match group_names output_folder w with
      | [] =>
          Ret 1 (add_event
                   (Print (Fore_RED
                           ++ "Unable to parse the input configuration")) w)
      | names =>
          assemble_groups H (map (path_join output_folder) names) w
      end
    else
      Ret 1 (add_event
               (Print (Fore_RED ++ "Unable to parse input configuration")) w).
Proof.
  unfold parse_assemble. unfold bind at 1. unfold isdir at 1.
  destruct (is_dir (w_fs w) (resolve (w_cwd w) output_folder)) eqn:Hd;
    cbn [negb]; [|reflexivity].
  unfold bind at 1. unfold listdir. rewrite Hd.
  unfold bind at 1.
  rewrite (filterM_pure _
             (fun x => (negb (startswith "." x)
                        && is_dir (w_fs w)
                             (resolve (w_cwd w) (path_join output_folder x)))%bool)).
  - fold (group_names output_folder w).
    destruct (group_names output_folder w); reflexivity.
  - intros x. destruct (startswith "." x); reflexivity.
Qed.

(** ** The tag a resolution returns *)

Lemma image_dir_abs (H : host) :
  abs_host H -> startswith "/" (DOCKER_IMAGE_DIR H) = true.
Proof. intros Ha. apply path_join_abs, Ha. Qed.

(** A resolution that returns has read its tag in the manifest of the
    archive, looked for from the directory of the script. *)
Lemma tag_resolved_inv (H : host) (p : string) (w w' : world) (tag : json) :
  abs_host H ->
  _get_container_tags H p w = Ret tag w' ->
  exists members c,
    fs_lookup (w_fs w) (resolve (here H) p) = Some (File (TarGz members))
    /\ assoc "manifest.json" members = Some c
    /\ manifest_tag c = Some tag.
Proof.
  intros Ha E. unfold _get_container_tags in E.
  apply bind_Ret_inv in E. destruct E as (cwd & w0 & Hcwd & E).
  unfold getcwd in Hcwd. injection Hcwd as <- <-.
  apply bind_Ret_inv in E. destruct E as ([] & w1 & Hcd & E).
  unfold chdir in Hcd. rewrite (resolve_here H _ Ha) in Hcd.
  destruct (is_dir (w_fs w) (here H)); [|discriminate].
  injection Hcd as <-.
  apply bind_Ret_inv in E. destruct E as (out & w2 & Htar & E).
  rewrite execute_eq in Htar. cbv zeta in Htar. unfold tar_xf in Htar.
  cbn [w_cwd w_fs add_event set_cwd] in Htar.
  rewrite (resolve_name _ _ plain_manifest) in Htar.
  fold (manifest_tmp H) in Htar.
  destruct (fs_lookup (w_fs w) (resolve (here H) p)) as [[|[t|j|members]]|];
    try discriminate.
  destruct (assoc "manifest.json" members) as [c|] eqn:Hc; [|discriminate].
  destruct (writable (w_fs w) (manifest_tmp H)); [|discriminate].
  cbn [Z.eqb] in Htar. injection Htar as _ <-.
  exists members, c. split; [reflexivity|]. split; [exact Hc|].
  assert (Hk : manifest_tmp H <> []) by apply app_one_not_nil.
  apply bind_Ret_inv in E. destruct E as (fob & w3 & Hopen & E).
  unfold open_r in Hopen. cbn [w_cwd w_fs add_event set_cwd set_fs] in Hopen.
  rewrite (resolve_name _ _ plain_manifest) in Hopen.
  fold (manifest_tmp H) in Hopen.
  rewrite fs_lookup_set_eq in Hopen by assumption.
  injection Hopen as <- <-.
  apply bind_Ret_inv in E. destruct E as (doc & w4 & Hload & E).
  destruct c as [t|doc0|ms]; try discriminate.
  unfold json_load, ret in Hload. injection Hload as <- <-.
  apply bind_Ret_inv in E. destruct E as (first & w5 & Hfirst & E).
  apply bind_Ret_inv in E. destruct E as (repo_tags & w6 & Hrepo & E).
  apply bind_Ret_inv in E. destruct E as (tags & w7 & Htags & E).
  apply bind_Ret_inv in E. destruct E as ([] & w8 & _ & E).
  apply bind_Ret_inv in E. destruct E as ([] & w9 & _ & E).
  unfold ret in E. injection E as <- _.
  destruct doc0 as [| | |s|items|fields]; try discriminate.
  - destruct s; discriminate Hfirst || (unfold json_index0, ret in Hfirst;
      injection Hfirst as <- <-; discriminate).
  - destruct items as [|x items]; [discriminate|].
    unfold json_index0, ret in Hfirst. injection Hfirst as <- <-.
    destruct x as [| | |s|xs|fields]; try discriminate.
    unfold json_getitem in Hrepo. cbn [manifest_tag].
    destruct (assoc "RepoTags" fields) as [v|]; [|discriminate].
    unfold ret in Hrepo. injection Hrepo as <- <-.
    destruct v as [| | |s|xs|fs0]; try discriminate.
    + destruct s as [|ch s]; [discriminate|].
      unfold json_index0, ret in Htags. injection Htags as <- _.
      reflexivity.
    + destruct xs as [|t0 xs]; [discriminate|].
      unfold json_index0, ret in Htags. injection Htags as <- _.
      reflexivity.
Qed.

(** ** The commands of [mgd] *)

Lemma execute_commands (run : proc) (cmd : string) (w : world) :
  commands (w_trace (outcome_world (execute run cmd w)))
  = (commands (w_trace w) ++ [cmd])%list.
Proof.
  rewrite execute_eq. cbv zeta. destruct (run _) as [[rc out] fs'].
  destruct (rc =? 0); reflexivity.
Qed.

Lemma execute_Ret_commands (run : proc) (cmd out : string) (w w' : world) :
  execute run cmd w = Ret out w' ->
  commands (w_trace w') = (commands (w_trace w) ++ [cmd])%list.
Proof.
  intros E. rewrite <- execute_commands with (run := run). rewrite E.
  reflexivity.
Qed.

Lemma mgd_cli_commands (H : host) (w w' : world) :
  mgd_cli H w = Ret tt w' ->
  commands (w_trace w')
  = (commands (w_trace w)
     ++ ["docker exec -it jfit_mgd_cli /usr/sbin/cli"])%list.
Proof.
  unfold mgd_cli, shell_command, bind, print, spawn, ret.
  destruct (docker H _ _) as [[rc out] fs']. intros E. injection E as <-.
  reflexivity.
Qed.

(** X17.  The commands of [mgd].  When [mgd start] returns, it has run
    four commands: the forced removal of the container [jfit_mgd_cli],
    whether or not there was one to remove, the extraction of the
    manifest of the image, the detached run of the tag that this
    manifest holds, in the archive as the removal left it, a tag that is
    not checked to be one, with the [config] directory of the script
    mounted, and the command line of the container.  [mgd stop] has run
    [docker stop], [mgd cli] the command line. *)
Theorem mgd_commands (H : host) (mgd_command : string) (w w' : world) :
  abs_host H ->
  mgd H mgd_command w = Ret tt w' ->
  exists tag,
    commands (w_trace w')
    = (commands (w_trace w) ++ mgd_plan H mgd_command tag)%list
    /\ (mgd_command = "start" ->
        exists rc out fs1 members manifest,
          engine H
            (Print (Fore_CYAN ++ "docker rm -f jfit_mgd_cli") :: w_trace w)
            (w_fs w) "docker rm -f jfit_mgd_cli"
          = (rc, out, fs1)
          /\ fs_lookup fs1
               (resolve (here H)
                  (path_join (DOCKER_IMAGE_DIR H) "jfit_mgd.tar.gz"))
             = Some (File (TarGz members))
          /\ assoc "manifest.json" members = Some manifest
          /\ manifest_tag manifest = Some tag).
Proof.
  intros Ha. unfold mgd, mgd_plan.
  destruct (String.eqb_spec mgd_command "start") as [->|Hstart].
  - intros E.
    apply bind_Ret_inv in E. destruct E as ([] & w1 & Hrm & E).
    apply bind_Ret_inv in E. destruct E as (tag & w2 & Htag & E).
    apply bind_Ret_inv in E. destruct E as (out & w3 & Hrun & E).
    exists tag.
    assert (Hw1 : exists rc rm_out fs1,
               engine H
                 (Print (Fore_CYAN ++ "docker rm -f jfit_mgd_cli")
                  :: w_trace w)
                 (w_fs w) "docker rm -f jfit_mgd_cli"
               = (rc, rm_out, fs1)
               /\ w_fs w1 = fs1
               /\ commands (w_trace w1)
                  = (commands (w_trace w)
                     ++ ["docker rm -f jfit_mgd_cli"])%list).
    { revert Hrm. unfold try_except. unfold bind at 1.
      rewrite execute_eq. cbv zeta. unfold docker.
      cbn [w_trace w_fs add_event].
      destruct (engine H _ _ _) as [[rc rm_out] fs1].
      exists rc, rm_out, fs1. split; [reflexivity|].
      destruct (rc =? 0); unfold print, ret in Hrm; injection Hrm as <-;
        split; reflexivity. }
    destruct Hw1 as (rc & rm_out & fs1 & Heng & Hfs1 & Hc1).
    split.
    + rewrite (mgd_cli_commands H w3 w' E).
      rewrite (execute_Ret_commands _ _ _ _ _ Hrun).
      pose proof (wp_Ret _ _ _ _ _ _ (gct_spec H _ w1 Ha) Htag)
        as (_ & _ & Hc2).
      rewrite Hc2, Hc1. rewrite <- !app_assoc. reflexivity.
    + intros _.
      destruct (tag_resolved_inv H _ w1 w2 tag Ha Htag)
        as (members & manifest & Harch & Hman & Hmt).
      subst fs1. exists rc, rm_out, (w_fs w1), members, manifest.
      repeat split; assumption.
  - destruct (String.eqb mgd_command "stop").
    + intros E. exists JNull. split; [|intros; contradiction].
      apply bind_Ret_inv in E. destruct E as (out & w1 & Hstop & E).
      unfold ret in E. injection E as <-.
      apply (execute_Ret_commands _ _ _ _ _ Hstop).
    + destruct (String.eqb mgd_command "cli").
      * intros E. exists JNull. split; [|intros; contradiction].
        apply (mgd_cli_commands H w w' E).
      * unfold ret. intros E. injection E as <-. exists JNull.
        split; [|intros; contradiction].
        rewrite app_nil_r. reflexivity.
Qed.

Lemma mgd_commands_witness :
  exists w',
    mgd Demo.host_ok "start" (Demo.at_home Demo.mgd_fs) = Ret tt w'
    /\ commands (w_trace w')
       = ["docker rm -f jfit_mgd_cli";
          "tar -xf /opt/jfit/docker_images/jfit_mgd.tar.gz manifest.json";
          "docker run -v /opt/jfit/config/:/config/ --name jfit_mgd_cli -d jfit_mgd:3.1";
          "docker exec -it jfit_mgd_cli /usr/sbin/cli"].
Proof.
  eexists. split; [vm_compute; reflexivity|].
  destruct (mgd_commands Demo.host_ok "start" (Demo.at_home Demo.mgd_fs)
              _ eq_refl eq_refl)
    as (tag & Hc & Htag).
  destruct (Htag eq_refl) as (rc & out & fs1 & members & manifest
                              & Heng & Harch & Hman & Hmt).
  vm_compute in Heng. injection Heng as <- <- <-.
  vm_compute in Harch. injection Harch as <-.
  vm_compute in Hman. injection Hman as <-.
  vm_compute in Hmt. injection Hmt as <-.
  exact Hc.
Defined.

(** ** The document of a role *)

Lemma dict_update_absent {V : Type} (k : string) (other d : list (string * V)) :
  assoc k other = None -> assoc k (dict_update d other) = assoc k d.
Proof.
  unfold dict_update. revert d.
  induction other as [|[k0 v0] rest IH]; intros d Hk; [reflexivity|].
  cbn [assoc] in Hk. cbn [fold_left fst snd].
  destruct (String.eqb_spec k0 k) as [->|Hne]; [discriminate|].
  rewrite (IH _ Hk). apply assoc_dict_set_neq. congruence.
Qed.

Lemma dict_update_present {V : Type} (k : string) (v : V)
    (other d : list (string * V)) :
  NoDup (dict_keys other) ->
  assoc k other = Some v -> assoc k (dict_update d other) = Some v.
Proof.
  unfold dict_update. revert d.
  induction other as [|[k0 v0] rest IH]; intros d Hnd Hk; [discriminate|].
  cbn [assoc] in Hk. cbn [fold_left fst snd].
  cbn [dict_keys map fst] in Hnd. inversion Hnd as [|? ? Hnotin Hnd']; subst.
  destruct (String.eqb_spec k0 k) as [->|Hne].
  - injection Hk as ->.
    assert (Hnone : assoc k rest = None).
    { destruct (assoc k rest) eqn:E; [|reflexivity].
      exfalso. apply Hnotin. apply assoc_in_keys. congruence. }
    pose proof (dict_update_absent k rest (dict_set k v d) Hnone) as Hu.
    unfold dict_update in Hu. rewrite Hu. apply assoc_dict_set_eq.
  - apply IH; assumption.
Qed.

Lemma app_tail_neq (s a b : string) : a <> b -> s ++ a <> s ++ b.
Proof.
  intros Hab E. induction s as [|c s IH]; [exact (Hab E)|].
  injection E as E. exact (IH E).
Qed.

Lemma write_file_lookup (p text : string) (w w' : world) :
  write_file p text w = Ret tt w' ->
  fs_lookup (w_fs w') (resolve (w_cwd w') p) = Some (File (Text text)).
Proof.
  unfold write_file.
  destruct (writable (w_fs w) (resolve (w_cwd w) p)) eqn:Hw; [|discriminate].
  intros E. injection E as <-. cbn [w_fs w_cwd set_fs].
  apply fs_lookup_set_eq. intros Hnil. rewrite Hnil in Hw. discriminate.
Qed.

Lemma isfile_inv (p : string) (w w' : world) (b : bool) :
  isfile p w = Ret b w' ->
  w' = w /\ b = is_file (w_fs w) (resolve (w_cwd w) p).
Proof. unfold isfile. intros E. injection E as <- <-. auto. Qed.

Lemma open_r_inv (p : string) (w w' : world) (c : content) :
  open_r p w = Ret c w' ->
  w' = w /\ fs_lookup (w_fs w) (resolve (w_cwd w) p) = Some (File c).
Proof.
  unfold open_r. destruct (fs_lookup _ _) as [[|c0]|]; try discriminate.
  intros E. injection E as <- <-. auto.
Qed.

Lemma split_tag_inv (tag service version : string) (w w' : world) :
  split_tag tag w = Ret (service, version) w' ->
  w' = w
  /\ option_map strip (nth_error (split_on ":" tag) 0) = Some service
  /\ option_map strip (nth_error (split_on ":" tag) 1) = Some version.
Proof.
  unfold split_tag, bind, list_index, ret.
  destruct (nth_error (split_on ":" tag) 0) as [s0|]; [|discriminate].
  destruct (nth_error (split_on ":" tag) 1) as [v0|]; [|discriminate].
  intros E. injection E as <- <- <-. auto.
Qed.

(** X18.  The document of a role.  When the turn of a role goes through,
    the tag of the role is the one that the manifest of its image holds,
    the service and the version are the first two fields of this tag,
    stripped, and the template is the file of the service in the template
    directory.  The turn changes one thing after the resolution of the
    tag: the file [<service>.yaml] of the group directory now holds what
    the template engine made of the template and of a dictionary in which
    every entry of the environment dictionary has its value, the
    environment being laid over the values computed for the service; for
    a key the environment does not name, the dictionary has the service
    under [<SERVICE>_IMAGE], the version under [<SERVICE>_TAG], the
    configuration file of the service, when there is one, under
    [<SERVICE>_CONF], and nothing else. *)
Theorem role_document (H : host) (dir_path loc : string) (env : pydict)
    (role : string) (w w' : world) :
  abs_host H ->
  is_role_key role = true ->
  NoDup (dict_keys env) ->
  process_role H dir_path loc env role w = Ret Continue w' ->
  exists impl members manifest tag w3 service version c data output,
    assoc role env = Some impl
    /\ fs_lookup (w_fs w) (resolve (here H) (image_of H impl))
       = Some (File (TarGz members))
    /\ assoc "manifest.json" members = Some manifest
    /\ manifest_tag manifest = Some (JStr tag)
    /\ _get_container_tags H (image_of H impl) w = Ret (JStr tag) w3
    /\ option_map strip (nth_error (split_on ":" tag) 0) = Some service
    /\ option_map strip (nth_error (split_on ":" tag) 1) = Some version
    /\ fs_lookup (w_fs w3) (resolve (w_cwd w3) (template_of loc service))
       = Some (File c)
    /\ jinja2_render H (read_text H c) data = Some output
    /\ w' = set_fs (fs_set (resolve (w_cwd w3)
                              (path_join dir_path (service ++ ".yaml")))
                           (File (Text output)) (w_fs w3)) w3
    /\ fs_lookup (w_fs w')
         (resolve (w_cwd w') (path_join dir_path (service ++ ".yaml")))
       = Some (File (Text output))
    /\ (forall k v, assoc k env = Some v -> assoc k data = Some v)
    /\ (forall k, assoc k env = None ->
          assoc k data
          = if String.eqb (upper service ++ "_IMAGE") k
            then Some (VStr service)
            else if String.eqb (upper service ++ "_TAG") k
            then Some (VStr version)
            else if (String.eqb (upper service ++ "_CONF") k
                     && is_file (w_fs w3)
                          (resolve (w_cwd w3)
                                   (conf_of dir_path role service)))%bool
            then Some (VStr (conf_of dir_path role service))
            else None).
Proof.
  intros Ha Hrole Hnd. unfold process_role.
  change (existsb (String.eqb role) SERVICE_KEYS) with (is_role_key role).
  rewrite Hrole. cbn [negb]. intros E.
  apply bind_Ret_inv in E. destruct E as (impl & w1 & Himpl & E).
  destruct (assoc role env) as [impl0|] eqn:Hassoc; [|discriminate].
  unfold ret in Himpl. injection Himpl as <- <-.
  fold (image_of H impl0) in E.
  apply bind_Ret_inv in E. destruct E as (found & w2 & Hfound & E).
  apply isfile_inv in Hfound. destruct Hfound as [Hw2 _]. subst w2.
  destruct found; cbn [negb] in E; [|discriminate].
  apply bind_Ret_inv in E. destruct E as (service_tag & w3 & Htag & E).
  destruct service_tag as [| | |tag| |]; try discriminate.
  destruct (tag_resolved_inv H _ w w3 _ Ha Htag)
    as (members & manifest & Harch & Hman & Hmt).
  apply bind_Ret_inv in E. destruct E as ([service version] & w4 & Hsplit & E).
  apply split_tag_inv in Hsplit.
  destruct Hsplit as (Hw4 & Hservice & Hversion). subst w4.
  fold (template_of loc service) in E.
  apply bind_Ret_inv in E. destruct E as (found & w5 & Hfound & E).
  apply isfile_inv in Hfound. destruct Hfound as [Hw5 _]. subst w5.
  destruct found; cbn [negb] in E; [|discriminate].
  apply bind_Ret_inv in E. destruct E as (fob & w6 & Hopen & E).
  apply open_r_inv in Hopen. destruct Hopen as [Hw6 Htemplate]. subst w6.
  destruct (nonempty (read_text H fob)); cbn [negb] in E; [|discriminate].
  fold (conf_of dir_path role service) in E.
  apply bind_Ret_inv in E. destruct E as (has_conf & w7 & Hconf & E).
  apply isfile_inv in Hconf. destruct Hconf as [Hw7 Hconf]. subst w7.
  apply bind_Ret_inv in E. destruct E as (output & w8 & Hrender & E).
  apply bind_Ret_inv in E. destruct E as ([] & w9 & Hwrite & E).
  unfold ret in E. injection E as <-.
  match type of Hrender with
  | match jinja2_render H _ ?d with _ => _ end _ = _ => set (data := d) in *
  end.
  destruct (jinja2_render H (read_text H fob) data) as [text|] eqn:Hr;
    [|discriminate].
  unfold ret in Hrender. injection Hrender as Ho Hw8. subst text w8.
  exists impl0, members, manifest, tag, w3, service, version, fob, data,
         output.
  split; [reflexivity|].
  repeat (split; [assumption|]).
  split.
  { unfold write_file in Hwrite. destruct (writable _ _); [|discriminate].
    injection Hwrite as <-. reflexivity. }
  split; [apply (write_file_lookup _ _ _ _ Hwrite)|].
  split; [intros k v Hk; apply (dict_update_present _ _ _ _ Hnd Hk)|].
  intros k Hno. subst data. rewrite (dict_update_absent _ _ _ Hno).
  assert (Hic : String.eqb (upper service ++ "_IMAGE")
                           (upper service ++ "_CONF") = false)
    by (apply String.eqb_neq, app_tail_neq; discriminate).
  assert (Htc : String.eqb (upper service ++ "_TAG")
                           (upper service ++ "_CONF") = false)
    by (apply String.eqb_neq, app_tail_neq; discriminate).
  rewrite <- Hconf. destruct has_conf.
  - cbn [dict_set]. rewrite Hic, Htc. cbn [assoc].
    rewrite andb_true_r. reflexivity.
  - cbn [assoc]. rewrite andb_false_r. reflexivity.
Qed.

Lemma role_document_witness :
  exists w',
    process_role Demo.host_ok "/opt/jfit/etc/core_output/g1"
      "/opt/jfit/compose_files"
      [("RULE_ENGINE", VStr "re"); ("JFIT_RE_IMAGE", VStr "mine")]
      "RULE_ENGINE" (Demo.at_home Demo.unassembled_fs)
    = Ret Continue w'
    /\ exists data output,
        jinja2_render Demo.host_ok "re-template" data = Some output
        /\ fs_lookup (w_fs w')
             (resolve [] "/opt/jfit/etc/core_output/g1/jfit_re.yaml")
           = Some (File (Text output))
        /\ assoc "JFIT_RE_IMAGE" data = Some (VStr "mine")
        /\ assoc "JFIT_RE_TAG" data = Some (VStr "1.2")
        /\ assoc "JFIT_RE_CONF" data = None.
Proof.
  eexists. split; [vm_compute; reflexivity|].
  destruct (role_document Demo.host_ok "/opt/jfit/etc/core_output/g1"
              "/opt/jfit/compose_files"
              [("RULE_ENGINE", VStr "re"); ("JFIT_RE_IMAGE", VStr "mine")]
              "RULE_ENGINE" (Demo.at_home Demo.unassembled_fs) _
              eq_refl eq_refl
              ltac:(repeat constructor; cbn; intuition discriminate)
              eq_refl)
    as (impl & members & manifest & tag & w3 & service & version & c & data
        & output & Himpl & _ & _ & _ & Htag & Hservice & Hversion & Htpl & Hr
        & _ & Hlook & Hover & Hdef).
  vm_compute in Himpl. injection Himpl as Himpl. subst impl.
  vm_compute in Htag. injection Htag as Htag Hw3. subst tag w3.
  vm_compute in Hservice. injection Hservice as Hservice. subst service.
  vm_compute in Hversion. injection Hversion as Hversion. subst version.
  vm_compute in Htpl. injection Htpl as Htpl. subst c.
  exists data, output. split; [exact Hr|]. split; [exact Hlook|].
  split; [exact (Hover "JFIT_RE_IMAGE" (VStr "mine") eq_refl)|].
  split.
  - exact (Hdef "JFIT_RE_TAG" eq_refl).
  - exact (Hdef "JFIT_RE_CONF" eq_refl).
Defined.

(** ** The commands of a successful installation *)

Lemma guarded_commands (run : proc) (cmd : string) (w w' : world) (code : Z) :
  try_except (bind (execute run cmd) (fun _ => ret 0))
             (fun returncode => ret returncode) w = Ret code w' ->
  commands (w_trace w') = (commands (w_trace w) ++ [cmd])%list.
Proof.
  unfold try_except. unfold bind at 1. rewrite execute_eq. cbv zeta.
  destruct (run _) as [[rc out] fs'].
  destruct (rc =? 0); unfold ret; intros E; injection E as _ <-; reflexivity.
Qed.

Lemma load_images_commands (H : host) (docker_images : list string)
    (w w' : world) :
  load_images H docker_images w = Ret 0 w' ->
  commands (w_trace w')
  = (commands (w_trace w)
     ++ map (fun i => ("sudo docker load --input " ++ i)%string)
            docker_images)%list.
Proof.
  revert w. induction docker_images as [|i rest IH]; intros w; cbn [load_images].
  - unfold ret. intros E. injection E as <-. cbn [map].
    rewrite app_nil_r. reflexivity.
  - unfold bind at 1. unfold try_except. unfold bind at 1.
    rewrite execute_eq. cbv zeta. unfold system, docker.
    destruct (engine H _ _ _) as [[rc out] fs'].
    destruct (Z.eqb_spec rc 0) as [->|Hrc].
    + unfold ret at 1. unfold bind at 1. unfold print at 1. intros E.
      rewrite (IH _ E). cbn [w_trace add_event set_fs commands map].
      rewrite <- app_assoc. reflexivity.
    + unfold ret. intros E. injection E as E _. contradiction.
Qed.

Lemma chdir_trace (p : string) (w w' : world) :
  chdir p w = Ret tt w' -> w_trace w' = w_trace w.
Proof.
  unfold chdir. destruct (is_dir _ _); [|discriminate].
  intros E. injection E as <-. reflexivity.
Qed.

(** X19.  The commands of an installation that returns 0: the dependency
    script, which has succeeded, then one [docker load] for each file
    that the image directory holds once the script has run and whose name
    starts with [jfit_] and ends in [.tar.gz], by its full path and in
    the order of the listing, then the link of the script into
    [/usr/local/bin]. *)
Theorem install_commands (H : host) (script_name : string) (w w' : world) :
  abs_host H ->
  install H script_name w = Ret 0 w' ->
  exists out fs1 names,
    engine H (Print (Fore_CYAN ++ "bash install_dep.sh") :: w_trace w)
           (w_fs w) "bash install_dep.sh"
    = (0, out, fs1)
    /\ names = product_images H fs1
    /\ Forall image_name names
    /\ commands (w_trace w')
       = (commands (w_trace w)
          ++ ["bash install_dep.sh"]
          ++ map (fun f => ("sudo docker load --input "
                            ++ path_join (DOCKER_IMAGE_DIR H) f)%string) names
          ++ [("ln -sf " ++ path_join (FILE_DIR_PATH H) script_name
               ++ " /usr/local/bin/jfit")%string])%list.
Proof.
  intros Ha. unfold install. intros E.
  apply bind_Ret_inv in E. destruct E as (cwd & w0 & Hcwd & E).
  unfold getcwd in Hcwd. injection Hcwd as <- <-.
  apply bind_Ret_inv in E. destruct E as ([] & w1 & Hcd & E).
  assert (Hw1 : w_trace w1 = w_trace w /\ w_fs w1 = w_fs w).
  { unfold chdir in Hcd. destruct (is_dir _ _); [|discriminate].
    injection Hcd as <-. split; reflexivity. }
  destruct Hw1 as [Htr1 Hfs1]. clear Hcd.
  apply bind_Ret_inv in E. destruct E as (code & w2 & Hdep & E).
  pose proof (guarded_commands _ _ _ _ _ Hdep) as Hc2. rewrite Htr1 in Hc2.
  destruct (Z.eqb_spec code 0) as [->|Hcode]; cbn [negb] in E.
  2:{ apply bind_Ret_inv in E. destruct E as (? & ? & _ & E).
      unfold ret in E. injection E as E _. contradiction. }
  assert (Heng : exists out,
             engine H (Print (Fore_CYAN ++ "bash install_dep.sh") :: w_trace w)
                    (w_fs w) "bash install_dep.sh"
             = (0, out, w_fs w2)).
  { revert Hdep. unfold try_except. unfold bind at 1.
    rewrite execute_eq. cbv zeta. unfold system, docker.
    cbn [w_trace w_fs add_event]. rewrite Htr1, Hfs1.
    change (DEP_SCRIPT) with "install_dep.sh".
    change ("bash " ++ "install_dep.sh") with "bash install_dep.sh".
    destruct (engine H _ _ _) as [[rc out] fs1].
    destruct (Z.eqb_spec rc 0) as [->|Hrc]; unfold ret.
    - intros E0. injection E0 as <-. exists out. reflexivity.
    - intros E0. injection E0 as E0 _. contradiction. }
  destruct Heng as (out & Heng).
  apply bind_Ret_inv in E. destruct E as ([] & w3 & Hp & E).
  unfold print in Hp. injection Hp as <-.
  apply bind_Ret_inv in E. destruct E as ([] & w4 & Hback & E).
  assert (Hw4 : w_trace w4 = Print (Fore_GREEN ++ "Success: Dependency install")
                             :: w_trace w2
                /\ w_fs w4 = w_fs w2).
  { unfold chdir in Hback. destruct (is_dir _ _); [|discriminate].
    injection Hback as <-. split; reflexivity. }
  destruct Hw4 as [Htr4 Hfs4]. clear Hback.
  apply bind_Ret_inv in E. destruct E as (images & w5 & Himg & E).
  unfold get_docker_images in Himg.
  apply bind_Ret_inv in Himg. destruct Himg as (listing & w5' & Hls & Himg).
  unfold listdir in Hls.
  rewrite (resolve_abs _ [] _ (image_dir_abs H Ha)) in Hls.
  destruct (is_dir _ _); [|discriminate].
  injection Hls as <- <-. unfold ret in Himg. injection Himg as <- <-.
  apply bind_Ret_inv in E. destruct E as (code & w6 & Hload & E).
  destruct (Z.eqb_spec code 0) as [->|Hcode]; cbn [negb] in E.
  2:{ apply bind_Ret_inv in E. destruct E as (? & ? & _ & E).
      unfold ret in E. injection E as E _. contradiction. }
  apply load_images_commands in Hload.
  apply bind_Ret_inv in E. destruct E as (code & w7 & Hln & E).
  apply guarded_commands in Hln.
  apply bind_Ret_inv in E. destruct E as ([] & w8 & Hmsg & E).
  unfold ret in E. injection E as -> <-.
  cbn [Z.eqb negb] in Hmsg. unfold ret in Hmsg. injection Hmsg as <-.
  exists out, (w_fs w2), (product_images H (w_fs w2)).
  split; [exact Heng|]. split; [reflexivity|]. split.
  - apply Forall_forall. intros f Hf. apply filter_In in Hf.
    destruct Hf as [_ Hf]. apply andb_true_iff in Hf. exact Hf.
  - rewrite Hln, Hload, Htr4. cbn [commands]. rewrite Hc2, map_map.
    unfold product_images. rewrite Hfs4.
    rewrite <- !app_assoc. reflexivity.
Qed.

Lemma install_commands_witness :
  exists w',
    install Demo.host_ok "jfit.py" (Demo.at_home Demo.installed) = Ret 0 w'
    /\ commands (w_trace w')
       = ["bash install_dep.sh";
          "sudo docker load --input /opt/jfit/docker_images/jfit_re.tar.gz";
          "ln -sf /opt/jfit/jfit.py /usr/local/bin/jfit"].
Proof.
  eexists. split; [vm_compute; reflexivity|].
  destruct (install_commands Demo.host_ok "jfit.py"
              (Demo.at_home Demo.installed) _ eq_refl eq_refl)
    as (out & fs1 & names & Heng & Hnames & _ & Hc).
  vm_compute in Heng. injection Heng as <- <-.
  vm_compute in Hnames. subst names. exact Hc.
Defined.
